(** * AI Math Tutor web client: streaming session client

    A shallow embedding of the browser client of the math tutor
    (web/src/services/mathAPI.js, the ConversationalMathTutor components)
    and the properties of its streaming session client.

    Conventions of the embedding.
    - A JavaScript value is a [JSValue]; objects are finite maps from
      property names to values.  Numbers are exact rationals, with the
      two zeros, the two infinities and NaN: the client only compares
      them and does one division, one product and one sum on them, so
      IEEE rounding is left out of the model.
    - A JavaScript string is modelled by its UTF-8 encoding, a [string]
      of bytes; the text decoder of the transport is the identity on it.
    - React state is explicit state passing; a state setter called with
      an updater function applies it to the current state, in call order.
    - [console.log] output is not modelled; [console.error] is. *)

From Stdlib Require Import QArith ZArith Lia Bool Ascii String.
From stdpp Require Import gmap strings list pretty.

Set Warnings "-register-all".

#[local] Open Scope string_scope.
#[local] Open Scope list_scope.

(** ** JavaScript values *)

Module JS.

Inductive JSValue : Type :=
| JUndefined
| JNull
| JBool (b : bool)
| JNum (q : Q)
| JStr (s : string)
| JArr (l : list JSValue)
| JObj (o : gmap string JSValue)
| JNaN
| JInfinity (negative : bool)
| JNegZero.

(** ToBoolean: [undefined], [null], [false], [0], [NaN] and the empty
    string are falsy, every array and object is truthy. *)
Definition truthy (v : JSValue) : bool :=
  match v with
  | JUndefined | JNull | JNaN | JNegZero => false
  | JBool b => b
  | JNum q => negb (Qeq_bool q 0)
  | JStr s => negb (String.eqb s "")
  | JArr _ | JObj _ | JInfinity _ => true
  end.

(** [v === s] for a string literal [s] *)
Definition is_string (v : JSValue) (s : string) : bool :=
  match v with
  | JStr t => String.eqb t s
  | _ => false
  end.

(** [a || b] *)
Definition js_or (a b : JSValue) : JSValue := if truthy a then a else b.

(** [v.k] for a property name [k] that no prototype defines (the client
    reads [type], [message], [progress], [data], ...).  [None] is the
    TypeError of reading a property of [undefined] or [null]. *)
Definition prop (v : JSValue) (k : string) : option JSValue :=
  match v with
  | JUndefined | JNull => None
  | JObj o => Some (default JUndefined (o !! k))
  | _ => Some JUndefined
  end.

(** [v.k] where [v] is known to be an object or a primitive other than
    [undefined] and [null]. *)
Definition get (v : JSValue) (k : string) : JSValue :=
  default JUndefined (prop v k).

(** *** Numbers

    ToNumber and the three arithmetic operators the client uses.  A
    number is [JNum] (a rational; [JNum 0] is +0), [JNegZero] (-0),
    [JNaN] or [JInfinity].  ToNumber of a string recognises the decimal
    literals of the JSON grammar only, and ToNumber of an array or object
    is [JNaN] in the model: no event of the protocol carries such an
    operand. *)

Definition sign_of (q : Q) : bool := (Qnum q <? 0)%Z.

(** The zero of a sign. *)
Definition zero (negative : bool) : JSValue := if negative then JNegZero else JNum 0.

Definition js_div (a b : JSValue) : JSValue :=
  match a, b with
  | JNum x, JNum y =>
      if Qeq_bool y 0 then (if Qeq_bool x 0 then JNaN else JInfinity (sign_of x))
      else if Qeq_bool x 0 then zero (sign_of y)
      else JNum (Qred (x / y))
  | JNum x, JNegZero => if Qeq_bool x 0 then JNaN else JInfinity (negb (sign_of x))
  | JNegZero, JNum y => if Qeq_bool y 0 then JNaN else zero (negb (sign_of y))
  | JNum x, JInfinity n => zero (xorb (sign_of x) n)
  | JNegZero, JInfinity n => zero (negb n)
  | JInfinity n, JNum y => JInfinity (xorb n (sign_of y))
  | JInfinity n, JNegZero => JInfinity (negb n)
  | _, _ => JNaN
  end.

Definition js_mul (a b : JSValue) : JSValue :=
  match a, b with
  | JNum x, JNum y =>
      if Qeq_bool (x * y) 0 then zero (xorb (sign_of x) (sign_of y))
      else JNum (Qred (x * y))
  | JNum x, JNegZero | JNegZero, JNum x => zero (negb (sign_of x))
  | JNegZero, JNegZero => JNum 0
  | JNum x, JInfinity n | JInfinity n, JNum x =>
      if Qeq_bool x 0 then JNaN else JInfinity (xorb n (sign_of x))
  | JInfinity n, JInfinity m => JInfinity (xorb n m)
  | _, _ => JNaN
  end.

Definition js_add (a b : JSValue) : JSValue :=
  match a, b with
  | JNum x, JNum y => JNum (Qred (x + y))
  | JNum x, JNegZero | JNegZero, JNum x => JNum x
  | JNegZero, JNegZero => JNegZero
  | JNum _, JInfinity n | JInfinity n, JNum _ => JInfinity n
  | JNegZero, JInfinity n | JInfinity n, JNegZero => JInfinity n
  | JInfinity n, JInfinity m => if Bool.eqb n m then JInfinity n else JNaN
  | _, _ => JNaN
  end.

(** The outcome of running a piece of code that may throw: the state it
    leaves behind, and whether it returned or threw. *)
Inductive Completion (S : Type) : Type :=
| Normal (s : S)
| Throws (s : S).
Arguments Normal {S} s.
Arguments Throws {S} s.

Definition state_of {S : Type} (c : Completion S) : S :=
  match c with Normal s | Throws s => s end.

(** *** Strings *)

Definition newline : ascii := ascii_of_nat 10.

(** [s.split('\n')] *)
Fixpoint split_lines (s : string) : list string :=
  match s with
  | EmptyString => [EmptyString]
  | String c r =>
      if Ascii.eqb c newline then EmptyString :: split_lines r
      else match split_lines r with
           | h :: t => String c h :: t
           | [] => [String c EmptyString]
           end
  end.

(** A string literal of JSON text whose content needs no escape. *)
Definition quoted (s : string) : string :=
  String (ascii_of_nat 34) (s +:+ String (ascii_of_nat 34) EmptyString).

(** [lines.join('\n')] *)
Fixpoint join_lines (lines : list string) : string :=
  match lines with
  | [] => EmptyString
  | [line] => line
  | line :: rest => line +:+ String newline (join_lines rest)
  end.

Fixpoint has_newline (s : string) : bool :=
  match s with
  | EmptyString => false
  | String c r => Ascii.eqb c newline || has_newline r
  end.

(** [s.endsWith('\n')] *)
Fixpoint ends_with_newline (s : string) : bool :=
  match s with
  | EmptyString => false
  | String c EmptyString => Ascii.eqb c newline
  | String _ r => ends_with_newline r
  end.

(** [s.startsWith(p)] *)
Definition startsWith (s p : string) : bool := String.prefix p s.

(** [s.slice(n)] for [n >= 0] *)
Fixpoint slice (n : nat) (s : string) : string :=
  match n, s with
  | O, _ => s
  | S n', String _ r => slice n' r
  | S _, EmptyString => EmptyString
  end.

(** The length in bytes of the white space or line terminator code point
    that starts [s] (ECMAScript WhiteSpace and LineTerminator, in UTF-8),
    or 0 when [s] starts with none. *)
Definition ws_prefix (s : string) : nat :=
  match s with
  | String a r =>
      let x := nat_of_ascii a in
      if (Nat.leb 9 x && Nat.leb x 13) || Nat.eqb x 32 then 1
      else match r with
           | String b r' =>
               let y := nat_of_ascii b in
               if Nat.eqb x 194 && Nat.eqb y 160 then 2            (* U+00A0 *)
               else match r' with
                    | String c _ =>
                        let z := nat_of_ascii c in
                        if Nat.eqb x 225 && Nat.eqb y 154 && Nat.eqb z 128 then 3  (* U+1680 *)
                        else if Nat.eqb x 226 && Nat.eqb y 128 &&
                                ((Nat.leb 128 z && Nat.leb z 138)     (* U+2000..200A *)
                                 || Nat.eqb z 168 || Nat.eqb z 169    (* U+2028, U+2029 *)
                                 || Nat.eqb z 175) then 3             (* U+202F *)
                        else if Nat.eqb x 226 && Nat.eqb y 129 && Nat.eqb z 159 then 3  (* U+205F *)
                        else if Nat.eqb x 227 && Nat.eqb y 128 && Nat.eqb z 128 then 3  (* U+3000 *)
                        else if Nat.eqb x 239 && Nat.eqb y 187 && Nat.eqb z 191 then 3  (* U+FEFF *)
                        else 0
                    | EmptyString => 0
                    end
           | EmptyString => 0
           end
  | EmptyString => 0
  end.

(** [s.trimStart()]; the fuel is the length of [s]. *)
Fixpoint trimStart_fuel (fuel : nat) (s : string) : string :=
  match fuel with
  | O => s
  | S f => match ws_prefix s with
           | O => s
           | n => trimStart_fuel f (slice n s)
           end
  end.

Definition trimStart (s : string) : string := trimStart_fuel (String.length s) s.

(** [s] consists of white space only: [s.trim()] is the empty string. *)
Definition blank (s : string) : bool := String.eqb (trimStart s) "".

(** [s.trimEnd()]: cut [s] where only white space follows. *)
Fixpoint trimEnd (s : string) : string :=
  match s with
  | EmptyString => EmptyString
  | String c r => if blank s then EmptyString else String c (trimEnd r)
  end.

(** [s.trim()] *)
Definition trim (s : string) : string := trimEnd (trimStart s).

End JS.


(** ** JSON.parse

    The built-in parser of the JavaScript engine, modelled on the JSON
    grammar (ECMA-404): white space, the three literals, numbers, strings
    with their escapes, arrays and objects.  A repeated key keeps its last
    value.  [None] is the SyntaxError [JSON.parse] throws.  An escape
    [\uXXXX] above U+007F is stored in UTF-8, each code unit on its own. *)

Module JSON.
Import JS.

Definition is_ws (c : ascii) : bool :=
  let x := nat_of_ascii c in
  Nat.eqb x 32 || Nat.eqb x 9 || Nat.eqb x 10 || Nat.eqb x 13.

Fixpoint skip_ws (s : string) : string :=
  match s with
  | String c r => if is_ws c then skip_ws r else s
  | EmptyString => s
  end.

Definition digit (c : ascii) : option Z :=
  let x := Z.of_nat (nat_of_ascii c) in
  if ((48 <=? x) && (x <=? 57))%Z then Some (x - 48)%Z else None.

(** The longest run of digits that starts [s]: the accumulated value, the
    number of digits read and the rest of the input. *)
Fixpoint digits (s : string) (acc : Z) (n : nat) : Z * nat * string :=
  match s with
  | String c r =>
      match digit c with
      | Some d => digits r (10 * acc + d)%Z (S n)
      | None => (acc, n, s)
      end
  | EmptyString => (acc, n, s)
  end.

(** The fraction of a number: mantissa so far, count of fraction digits. *)
Definition parse_frac (ip : Z) (s : string) : option (Z * nat * string) :=
  match s with
  | String c r =>
      if Nat.eqb (nat_of_ascii c) 46 then
        match digits r ip 0 with
        | (_, O, _) => None
        | res => Some res
        end
      else Some (ip, O, s)
  | EmptyString => Some (ip, O, s)
  end.

Definition parse_exp (s : string) : option (Z * string) :=
  match s with
  | String c r =>
      let x := nat_of_ascii c in
      if Nat.eqb x 101 || Nat.eqb x 69 then
        let '(sgn, r1) :=
          match r with
          | String d r' =>
              if Nat.eqb (nat_of_ascii d) 43 then (1%Z, r')
              else if Nat.eqb (nat_of_ascii d) 45 then ((-1)%Z, r')
              else (1%Z, r)
          | EmptyString => (1%Z, r)
          end in
        match digits r1 0 0 with
        | (_, O, _) => None
        | (e, _, rest) => Some ((sgn * e)%Z, rest)
        end
      else Some (0%Z, s)
  | EmptyString => Some (0%Z, s)
  end.

Definition parse_number (s : string) : option (Q * string) :=
  let '(neg, s1) :=
    match s with
    | String c r => if Nat.eqb (nat_of_ascii c) 45 then (true, r) else (false, s)
    | EmptyString => (false, s)
    end in
  match s1 with
  | String c r =>
      match digit c with
      | None => None
      | Some d =>
          let '(ip, _, s2) := if (d =? 0)%Z then (0%Z, 1%nat, r) else digits r d 1 in
          match parse_frac ip s2 with
          | None => None
          | Some (m, fl, s3) =>
              match parse_exp s3 with
              | None => None
              | Some (e, s4) =>
                  let v := (inject_Z m * Qpower (10 # 1) (e - Z.of_nat fl))%Q in
                  Some (Qred (if neg then - v else v)%Q, s4)
              end
          end
      end
  | EmptyString => None
  end.

Definition hex (c : ascii) : option N :=
  let x := N_of_ascii c in
  if ((48 <=? x) && (x <=? 57))%N then Some (x - 48)%N
  else if ((65 <=? x) && (x <=? 70))%N then Some (x - 55)%N
  else if ((97 <=? x) && (x <=? 102))%N then Some (x - 87)%N
  else None.

Definition utf8 (cu : N) : string :=
  if (cu <? 128)%N then String (ascii_of_N cu) ""
  else if (cu <? 2048)%N then
    String (ascii_of_N (192 + cu / 64)) (String (ascii_of_N (128 + cu mod 64)) "")
  else
    String (ascii_of_N (224 + cu / 4096))
      (String (ascii_of_N (128 + (cu / 64) mod 64))
         (String (ascii_of_N (128 + cu mod 64)) "")).

Definition escape (c : ascii) : option ascii :=
  let x := nat_of_ascii c in
  if Nat.eqb x 34 || Nat.eqb x 92 || Nat.eqb x 47 then Some c
  else if Nat.eqb x 98 then Some (ascii_of_nat 8)
  else if Nat.eqb x 102 then Some (ascii_of_nat 12)
  else if Nat.eqb x 110 then Some (ascii_of_nat 10)
  else if Nat.eqb x 114 then Some (ascii_of_nat 13)
  else if Nat.eqb x 116 then Some (ascii_of_nat 9)
  else None.

(** The characters of a string literal after its opening quote, up to and
    including the closing quote. *)
Fixpoint parse_chars (s : string) : option (string * string) :=
  match s with
  | EmptyString => None
  | String c r =>
      let x := nat_of_ascii c in
      if Nat.eqb x 34 then Some ("", r)
      else if Nat.eqb x 92 then
        match r with
        | String e r1 =>
            if Nat.eqb (nat_of_ascii e) 117 then
              match r1 with
              | String h1 (String h2 (String h3 (String h4 r2))) =>
                  match hex h1, hex h2, hex h3, hex h4 with
                  | Some a, Some b, Some c', Some d =>
                      match parse_chars r2 with
                      | Some (t, rest) =>
                          Some (utf8 (4096 * a + 256 * b + 16 * c' + d) +:+ t, rest)
                      | None => None
                      end
                  | _, _, _, _ => None
                  end
              | _ => None
              end
            else
              match escape e with
              | Some ch =>
                  match parse_chars r1 with
                  | Some (t, rest) => Some (String ch t, rest)
                  | None => None
                  end
              | None => None
              end
        | EmptyString => None
        end
      else if Nat.ltb x 32 then None
      else
        match parse_chars r with
        | Some (t, rest) => Some (String c t, rest)
        | None => None
        end
  end.

(** The value of a number literal: -0 for a zero with a minus sign. *)
Definition number (text : string) (q : Q) : JSValue :=
  if Qeq_bool q 0 && String.prefix "-" text then JNegZero else JNum q.

Definition literal (w : string) (v : JSValue) (s : string) : option (JSValue * string) :=
  if String.prefix w s then Some (v, slice (String.length w) s) else None.

(** One value, after optional white space; the rest of the input is
    returned.  The fuel bounds the depth of the recursion. *)
Fixpoint parse_value (fuel : nat) (s : string) : option (JSValue * string) :=
  match fuel with
  | O => None
  | S f =>
      match skip_ws s with
      | EmptyString => None
      | String c r as s' =>
          let x := nat_of_ascii c in
          if Nat.eqb x 123 then
            match skip_ws r with
            | String c1 r1 as r' =>
                if Nat.eqb (nat_of_ascii c1) 125 then Some (JObj ∅, r1)
                else parse_members f r' ∅
            | EmptyString => None
            end
          else if Nat.eqb x 91 then
            match skip_ws r with
            | String c1 r1 as r' =>
                if Nat.eqb (nat_of_ascii c1) 93 then Some (JArr [], r1)
                else parse_elems f r' []
            | EmptyString => None
            end
          else if Nat.eqb x 34 then
            match parse_chars r with
            | Some (t, rest) => Some (JStr t, rest)
            | None => None
            end
          else if Nat.eqb x 116 then literal "true" (JBool true) s'
          else if Nat.eqb x 102 then literal "false" (JBool false) s'
          else if Nat.eqb x 110 then literal "null" JNull s'
          else
            match parse_number s' with
            | Some (q, rest) => Some (number s' q, rest)
            | None => None
            end
      end
  end
with parse_elems (fuel : nat) (s : string) (acc : list JSValue) : option (JSValue * string) :=
  match fuel with
  | O => None
  | S f =>
      match parse_value f s with
      | Some (v, r) =>
          match skip_ws r with
          | String c r' =>
              if Nat.eqb (nat_of_ascii c) 44 then parse_elems f r' (acc ++ [v])
              else if Nat.eqb (nat_of_ascii c) 93 then Some (JArr (acc ++ [v]), r')
              else None
          | EmptyString => None
          end
      | None => None
      end
  end
with parse_members (fuel : nat) (s : string) (acc : gmap string JSValue) : option (JSValue * string) :=
  match fuel with
  | O => None
  | S f =>
      match skip_ws s with
      | String q r =>
          if Nat.eqb (nat_of_ascii q) 34 then
            match parse_chars r with
            | Some (k, r1) =>
                match skip_ws r1 with
                | String c r2 =>
                    if Nat.eqb (nat_of_ascii c) 58 then
                      match parse_value f r2 with
                      | Some (v, r3) =>
                          match skip_ws r3 with
                          | String d r4 =>
                              if Nat.eqb (nat_of_ascii d) 44 then parse_members f r4 (<[k := v]> acc)
                              else if Nat.eqb (nat_of_ascii d) 125 then Some (JObj (<[k := v]> acc), r4)
                              else None
                          | EmptyString => None
                          end
                      | None => None
                      end
                    else None
                | EmptyString => None
                end
            | None => None
            end
          else None
      | EmptyString => None
      end
  end.

(** [JSON.parse(s)] *)
Definition parse (s : string) : option JSValue :=
  match parse_value (2 * String.length s + 2) s with
  | Some (v, rest) => if String.eqb (skip_ws rest) "" then Some v else None
  | None => None
  end.

(** The fuel [g] covers what a parse of [s] that leaves [r] consumes. *)
Definition enough (s r : string) (g : nat) : Prop :=
  2 * (String.length s - String.length r) <= g.

(** ToNumber, the coercion the arithmetic operators apply to their
    operands. *)
Definition to_number (v : JSValue) : JSValue :=
  match v with
  | JUndefined => JNaN
  | JNull => JNum 0
  | JBool b => JNum (if b then 1 else 0)
  | JNum _ | JNaN | JInfinity _ | JNegZero => v
  | JStr s =>
      let t := trim s in
      if String.eqb t "" then JNum 0
      else match parse_number t with
           | Some (q, EmptyString) => number t q
           | _ => JNaN
           end
  | JArr _ | JObj _ => JNaN
  end.

End JSON.

(** ** The stream transport (services/mathAPI.js) *)

Module Transport.
Import JS.

(** What the client writes with [console.error]. *)
Inductive ConsoleError : Type :=
| ErrorParsingStreamData            (* the catch around one event line *)
| StreamError                       (* an event of type error *)
| StreamProcessingError (message : string)   (* the catch around the read loop *)
| StreamConnectionError (message : string).  (* the catch around the request *)

Section WithCallerState.

Context {S : Type}.

(** A callback of the caller: it receives the event and acts on the
    caller's state; it may throw.  It may also call the cleanup function
    of the connection, which acts on the reader and not on the caller:
    the caller's state then tells that it has, see [stepWithin]. *)
Definition Callback : Type := JSValue -> S -> Completion S.

(** The [callbacks] object; a callback the caller did not register is
    [None]. *)
Record Callbacks : Type := {
  onConnect : option Callback;
  onProcessingStart : option Callback;
  onRouting : option Callback;
  onRoutingResult : option Callback;
  onStepUpdate : option Callback;
  onStepGenerated : option Callback;
  onSolutionComplete : option Callback;
  onCompletion : option Callback;
  onError : option Callback;
  onUnknownEvent : option Callback;
  onConnectionError : option Callback
}.

(** The caller's state together with the console. *)
Record World : Type := {
  caller : S;
  console : list ConsoleError
}.

Definition console_error (e : ConsoleError) (w : World) : World :=
  {| caller := caller w; console := console w ++ [e] |}.

(** [callbacks.f?.(data)] *)
Definition call (f : option Callback) (data : JSValue) (w : World) : Completion World :=
  match f with
  | None => Normal w
  | Some cb =>
      match cb data (caller w) with
      | Normal s => Normal {| caller := s; console := console w |}
      | Throws s => Throws {| caller := s; console := console w |}
      end
  end.

(** [handleStreamEvent(data, callbacks)] *)
Definition handleStreamEvent (data : JSValue) (callbacks : Callbacks) (w : World)
  : Completion World :=
  match prop data "type" with
  | None => Throws w
  | Some ty =>
      if is_string ty "connected" then call (onConnect callbacks) data w
      else if is_string ty "processing_started" then call (onProcessingStart callbacks) data w
      else if is_string ty "routing" then call (onRouting callbacks) data w
      else if is_string ty "routing_result" then call (onRoutingResult callbacks) data w
      else if is_string ty "step_update" then call (onStepUpdate callbacks) data w
      else if is_string ty "step_generated" then call (onStepGenerated callbacks) data w
      else if is_string ty "solution_complete" then call (onSolutionComplete callbacks) data w
      else if is_string ty "completion" then call (onCompletion callbacks) data w
      else if is_string ty "error" then call (onError callbacks) data (console_error StreamError w)
      else call (onUnknownEvent callbacks) data w
  end.

(** The body of [for (const line of lines)] in [processStream]: the
    [try] covers the parse and the dispatch, so an exception of either
    is logged and the line is left behind. *)
Definition processLine (callbacks : Callbacks) (line : string) (w : World) : World :=
  if startsWith line "data: " then
    match JSON.parse (slice 6 line) with
    | None => console_error ErrorParsingStreamData w
    | Some data =>
        match handleStreamEvent data callbacks w with
        | Normal w' => w'
        | Throws w' => console_error ErrorParsingStreamData w'
        end
    end
  else w.

Definition processLines (callbacks : Callbacks) (lines : list string) (w : World) : World :=
  fold_left (fun w line => processLine callbacks line w) lines w.

(** One decoded chunk: [chunk.split('\n')] and the loop over the lines. *)
Definition processChunk (callbacks : Callbacks) (chunk : string) (w : World) : World :=
  processLines callbacks (split_lines chunk) w.

(** *** The reader of the response body

    The platform's stream reader, after the Streams standard: a stream is
    readable, closed or errored; [read()] on a closed stream resolves with
    [done], on an errored stream it rejects; [cancel()] closes a readable
    stream, which resolves the pending read with [done], and does nothing
    to a closed or errored one. *)

Inductive StreamState : Type :=
| Readable
| Closed
| Errored (message : string).

Inductive ReadResult : Type :=
| Value (chunk : string)
| Done
| Rejected (message : string).

(** What happens to the transport, seen from the client. *)
Inductive Action : Type :=
| Chunk (chunk : string)          (* the network delivers a chunk *)
| EndOfStream                     (* the server ends the response *)
| NetworkError (message : string) (* the connection fails *)
| Cancel.                         (* the caller runs the cleanup function *)

(** The effect of an action on the stream: its next state, and the result
    that settles the pending [read()], if the action settles it. *)
Definition react (a : Action) (st : StreamState) : StreamState * option ReadResult :=
  match st with
  | Readable =>
      match a with
      | Chunk c => (Readable, Some (Value c))
      | EndOfStream => (Closed, Some Done)
      | NetworkError m => (Errored m, Some (Rejected m))
      | Cancel => (Closed, Some Done)
      end
  | _ => (st, None)
  end.

(** One turn of [while (true)] in [processStream], resumed with the
    result of [await reader.read()]: whether the loop goes on, and the
    world it leaves. *)
Definition iteration (callbacks : Callbacks) (r : ReadResult) (w : World) : bool * World :=
  match r with
  | Done => (false, w)
  | Value chunk => (true, processChunk callbacks chunk w)
  | Rejected m =>
      (false,
       state_of (call (onError callbacks) (JObj {["message" := JStr m]})
                   (console_error (StreamProcessingError m) w)))
  end.

(** An open connection.  The loop has one suspension point, the
    [await reader.read()]; [reading] tells that it is parked there. *)
Record Connection : Type := {
  stream : StreamState;
  reading : bool;
  world : World
}.

Definition step (callbacks : Callbacks) (a : Action) (t : Connection) : Connection :=
  let '(st, settled) := react a (stream t) in
  match settled with
  | Some r =>
      if reading t then
        let '(continue, w) := iteration callbacks r (world t) in
        {| stream := st; reading := continue; world := w |}
      else {| stream := st; reading := false; world := world t |}
  | None => {| stream := st; reading := reading t; world := world t |}
  end.

Definition run (callbacks : Callbacks) (actions : list Action) (t : Connection) : Connection :=
  fold_left (fun t a => step callbacks a t) actions t.

(** *** The cleanup function, called from inside a callback

    The cleanup function closes over the reader, and a callback may call
    it while the loop runs.  [cleanupCalled s] tells that the caller, in
    state [s], has called it.  [reader.cancel()] closes the stream; the
    loop over the lines of the chunk in progress does not look at the
    reader and goes on, and the read that follows resolves with [done],
    which ends the loop.  [step] and [run] are the transport of a caller
    whose callbacks leave the cleanup function alone, [stepWithin] and
    [runWithin] of one whose callbacks may call it. *)

(** The cleanup function is called while the lines are handled: after
    one of them the caller has called it. *)
Fixpoint cancelledDuring (cleanupCalled : S -> bool) (callbacks : Callbacks)
    (lines : list string) (w : World) : bool :=
  match lines with
  | [] => false
  | line :: rest =>
      let w' := processLine callbacks line w in
      cleanupCalled (caller w') || cancelledDuring cleanupCalled callbacks rest w'
  end.

Definition stepWithin (cleanupCalled : S -> bool) (callbacks : Callbacks) (a : Action)
    (t : Connection) : Connection :=
  match a, stream t, reading t with
  | Chunk chunk, Readable, true =>
      let cancelled := cancelledDuring cleanupCalled callbacks (split_lines chunk) (world t) in
      {| stream := if cancelled then Closed else Readable;
         reading := negb cancelled;
         world := processChunk callbacks chunk (world t) |}
  | _, _, _ => step callbacks a t
  end.

Definition runWithin (cleanupCalled : S -> bool) (callbacks : Callbacks)
    (actions : list Action) (t : Connection) : Connection :=
  fold_left (fun t a => stepWithin cleanupCalled callbacks a t) actions t.

(** The answer to the request of [createStreamConnection]. *)
Inductive FetchOutcome : Type :=
| FetchFailed (message : string)
| Response (status : Z).

Definition ok (status : Z) : bool := ((200 <=? status) && (status <=? 299))%Z.

(** [createStreamConnection], from the answer to its request on: either
    the connection, with the read loop started, or the exception it
    throws after [onConnectionError]. *)
Definition createStreamConnection (callbacks : Callbacks) (answer : FetchOutcome) (w : World)
  : Connection + World :=
  let failed (message : string) :=
    inr (state_of (call (onConnectionError callbacks) (JObj {["message" := JStr message]})
                     (console_error (StreamConnectionError message) w))) in
  match answer with
  | FetchFailed m => failed m
  | Response status =>
      if ok status then inl {| stream := Readable; reading := true; world := w |}
      else failed ("HTTP error! status: " +:+ pretty status)
  end.

(** *** The dispatch table, as the specification words it

    The type discriminant names one of nine events; any other value is
    the unknown event; each event has its callback. *)

Inductive EventKind : Type :=
| Connected | ProcessingStarted | Routing | RoutingResult | StepUpdate
| StepGenerated | SolutionComplete | Completion | ErrorEvent | Unknown.

Definition event_table : list (string * EventKind) :=
  [("connected", Connected); ("processing_started", ProcessingStarted);
   ("routing", Routing); ("routing_result", RoutingResult);
   ("step_update", StepUpdate); ("step_generated", StepGenerated);
   ("solution_complete", SolutionComplete); ("completion", Completion);
   ("error", ErrorEvent)].

Fixpoint assoc (s : string) (table : list (string * EventKind)) : option EventKind :=
  match table with
  | [] => None
  | (name, k) :: rest => if String.eqb s name then Some k else assoc s rest
  end.

Definition classify (ty : JSValue) : EventKind :=
  match ty with
  | JStr s => default Unknown (assoc s event_table)
  | _ => Unknown
  end.

Definition callback_of (k : EventKind) (callbacks : Callbacks) : option Callback :=
  match k with
  | Connected => onConnect callbacks
  | ProcessingStarted => onProcessingStart callbacks
  | Routing => onRouting callbacks
  | RoutingResult => onRoutingResult callbacks
  | StepUpdate => onStepUpdate callbacks
  | StepGenerated => onStepGenerated callbacks
  | SolutionComplete => onSolutionComplete callbacks
  | Completion => onCompletion callbacks
  | ErrorEvent => onError callbacks
  | Unknown => onUnknownEvent callbacks
  end.

End WithCallerState.

Arguments Callback S : clear implicits.
Arguments Callbacks S : clear implicits.
Arguments World S : clear implicits.
Arguments Connection S : clear implicits.

(** A caller that records every callback it receives, with the event it
    is given; [registered] tells which callbacks it registers. *)
Definition Recording : Type := list (EventKind * JSValue).

Definition recorder (k : EventKind) : Callback Recording :=
  fun data seen => Normal (seen ++ [(k, data)]).

Definition recorders (registered : EventKind -> bool) : Callbacks Recording :=
  let slot k := if registered k then Some (recorder k) else None in
  {| onConnect := slot Connected;
     onProcessingStart := slot ProcessingStarted;
     onRouting := slot Routing;
     onRoutingResult := slot RoutingResult;
     onStepUpdate := slot StepUpdate;
     onStepGenerated := slot StepGenerated;
     onSolutionComplete := slot SolutionComplete;
     onCompletion := slot Completion;
     onError := slot ErrorEvent;
     onUnknownEvent := slot Unknown;
     onConnectionError := None |}.

(** A connection that has just been opened. *)
Definition opened {S : Type} (w : World S) : Connection S :=
  {| stream := Readable; reading := true; world := w |}.

End Transport.

(** ** The message store and the conversation history *)

Module Entry.

(** One entry of the conversation history sent with a request. *)
Record HistoryEntry : Type := {
  role : string;
  content : JS.JSValue;
  request_type : string
}.

End Entry.

Module Store.
Import JS.

Record FeedbackDetails : Type := {
  rating : Q;
  improvement_triggered : bool
}.

(** A chat message.  A property the source leaves out of an object
    literal is [false], [None] or [JUndefined] here.  [onSolutionComplete]
    is the closure an assistant message carries; it is represented by the
    id of the message it has captured. *)
Record Message : Type := {
  id : string;
  text : JSValue;
  isUser : bool;
  timestamp : Z;
  originalQuestion : option string;
  streaming_session_id : option string;
  solution : JSValue;
  showFeedback : bool;
  isError : bool;
  feedbackSubmitted : bool;
  feedbackDetails : option FeedbackDetails;
  request_type : option string;
  conversationHistory : option (list Entry.HistoryEntry);
  onSolutionComplete : option string
}.

(** The condition [msg.text && msg.text.trim()] of the filter; [None] is
    the TypeError of calling [trim] on a truthy text that is no string. *)
Definition hasText (msg : Message) : option bool :=
  match text msg with
  | JStr s => Some (negb (String.eqb s "") && negb (String.eqb (trim s) ""))
  | v => if truthy v then None else Some false
  end.

(** [messages.filter(msg => msg.text && msg.text.trim())] *)
Fixpoint filterText (messages : list Message) : option (list Message) :=
  match messages with
  | [] => Some []
  | msg :: rest =>
      match hasText msg with
      | None => None
      | Some keep =>
          match filterText rest with
          | None => None
          | Some kept => Some (if keep then msg :: kept else kept)
          end
      end
  end.

(** The object literal the map of the history builder returns. *)
Definition toEntry (msg : Message) : Entry.HistoryEntry :=
  {| Entry.role := if isUser msg then "user" else "assistant";
     Entry.content := text msg;
     Entry.request_type :=
       match request_type msg with
       | Some tag => if String.eqb tag "" then "unknown" else tag
       | None => "unknown"
       end |}.

(** [buildConversationHistory(currentMessages)] of the chat interface
    (the same filter and map are in the message bubble and in the
    streaming display). *)
Definition buildConversationHistory (currentMessages : list Message)
  : option (list Entry.HistoryEntry) :=
  match filterText currentMessages with
  | Some kept => Some (map toEntry kept)
  | None => None
  end.

(** The updater [prev => prev.map(msg => msg.id === target ? patch(msg) : msg)]
    every writer of the store passes to the state setter. *)
Definition updateById (target : string) (patch : Message -> Message) (prev : list Message)
  : list Message :=
  map (fun msg => if String.eqb (id msg) target then patch msg else msg) prev.

(** [{ ...msg, solution: completedSolution, text: newText, streaming_session_id: null }] *)
Definition solutionPatch (completedSolution newText : JSValue) (msg : Message) : Message :=
  {| id := id msg;
     text := newText;
     isUser := isUser msg;
     timestamp := timestamp msg;
     originalQuestion := originalQuestion msg;
     streaming_session_id := None;
     solution := completedSolution;
     showFeedback := showFeedback msg;
     isError := isError msg;
     feedbackSubmitted := feedbackSubmitted msg;
     feedbackDetails := feedbackDetails msg;
     request_type := request_type msg;
     conversationHistory := conversationHistory msg;
     onSolutionComplete := onSolutionComplete msg |}.

(** [{ ...m, feedbackSubmitted: true }] *)
Definition feedbackPatch (m : Message) : Message :=
  {| id := id m;
     text := text m;
     isUser := isUser m;
     timestamp := timestamp m;
     originalQuestion := originalQuestion m;
     streaming_session_id := streaming_session_id m;
     solution := solution m;
     showFeedback := showFeedback m;
     isError := isError m;
     feedbackSubmitted := true;
     feedbackDetails := feedbackDetails m;
     request_type := request_type m;
     conversationHistory := conversationHistory m;
     onSolutionComplete := onSolutionComplete m |}.

(** [{ ...msg, feedbackSubmitted: true, feedbackDetails: details }] *)
Definition feedbackDetailsPatch (details : FeedbackDetails) (msg : Message) : Message :=
  {| id := id msg;
     text := text msg;
     isUser := isUser msg;
     timestamp := timestamp msg;
     originalQuestion := originalQuestion msg;
     streaming_session_id := streaming_session_id msg;
     solution := solution msg;
     showFeedback := showFeedback msg;
     isError := isError msg;
     feedbackSubmitted := true;
     feedbackDetails := Some details;
     request_type := request_type msg;
     conversationHistory := conversationHistory msg;
     onSolutionComplete := onSolutionComplete msg |}.

(** The user message both flows create on submit. *)
Definition userMessage (question : string) (now : Z) : Message :=
  {| id := "user_" +:+ pretty now;
     text := JStr question;
     isUser := true;
     timestamp := now;
     originalQuestion := Some question;
     streaming_session_id := None;
     solution := JUndefined;
     showFeedback := false;
     isError := false;
     feedbackSubmitted := false;
     feedbackDetails := None;
     request_type := None;
     conversationHistory := None;
     onSolutionComplete := None |}.

(** The assistant placeholder both flows create on submit. *)
Definition aiMessage (question sessionId : string) (now : Z)
    (history : option (list Entry.HistoryEntry)) : Message :=
  {| id := "ai_" +:+ pretty now;
     text := JStr "I'm analyzing your math problem and will solve it step by step...";
     isUser := false;
     timestamp := now;
     originalQuestion := Some question;
     streaming_session_id := Some sessionId;
     solution := JUndefined;
     showFeedback := true;
     isError := false;
     feedbackSubmitted := false;
     feedbackDetails := None;
     request_type := None;
     conversationHistory := history;
     onSolutionComplete := Some ("ai_" +:+ pretty now) |}.

(** [message.streaming_session_id && !message.solution]: the message is
    waiting for a stream to fill it. *)
Definition awaitsStream (msg : Message) : bool :=
  match streaming_session_id msg with
  | Some sid => negb (String.eqb sid "") && negb (truthy (solution msg))
  | None => false
  end.

(** What a feedback panel submits. *)
Record FeedbackData : Type := {
  user_rating : Q;
  user_comment : JSValue
}.

(** The outcome of [await submitFeedback(...)]: the body of the
    server's response, or the error it throws. *)
Inductive SubmitOutcome : Type :=
| Submitted (response : JSValue)
| SubmitFailed (message : string).

(** A request for a stream: what [createStreamConnection] posts. *)
Record Request : Type := {
  question : string;
  session_id : string;
  conversation_history : list Entry.HistoryEntry
}.

(** What a component does to the transports: it calls the cleanup
    function a connection returned, or it opens a connection. *)
Inductive Effect : Type :=
| CallCleanup (connection : nat)
| OpenConnection (request : Request).

End Store.

(** ** The tutor (components/ConversationalMathTutor/index.jsx) *)

Module Tutor.
Import JS Store.

Record State : Type := {
  messages : list Message;
  loading : bool;
  isProcessing : bool;
  sessionId : string;
  renderError : bool;          (* a state updater threw while React applied it *)
  console : list string
}.

Definition initial (sessionId : string) : State :=
  {| messages := []; loading := false; isProcessing := false;
     sessionId := sessionId; renderError := false; console := [] |}.

(** [sendMessage(question)]; [now] and [later] are the two readings of
    the clock, for the user message and for the assistant message.  The
    history the function builds is only logged, and nothing in its [try]
    block throws, so neither appears here. *)
Definition sendMessage (question : string) (now later : Z) (st : State) : State :=
  if String.eqb (trim question) "" || isProcessing st then st
  else
    {| messages := (messages st ++ [userMessage question now])
                     ++ [aiMessage question (sessionId st) later None];
       loading := true;
       isProcessing := true;
       sessionId := sessionId st;
       renderError := renderError st;
       console := console st |}.

(** The history [sendMessage] builds and logs: the map of the history
    builder, without its filter. *)
Definition loggedHistory (messages : list Message) : list Entry.HistoryEntry :=
  map toEntry messages.

(** The [onSolutionComplete] closure of the assistant message [aiId].
    The updater reads [completedSolution.conversational_response] for a
    message it patches: on [undefined] or [null] it throws, and the
    message list stays as it is. *)
Definition onSolutionComplete (aiId : string) (completedSolution : JSValue) (st : State)
  : State :=
  let solved := JStr "I've solved your math problem! Here's the solution:" in
  let '(msgs, failed) :=
    match prop completedSolution "conversational_response" with
    | Some response =>
        (updateById aiId (solutionPatch completedSolution (js_or response solved))
           (messages st), false)
    | None =>
        (messages st, existsb (fun msg => String.eqb (id msg) aiId) (messages st))
    end in
  {| messages := msgs;
     loading := false;
     isProcessing := false;
     sessionId := sessionId st;
     renderError := renderError st || failed;
     console := console st |}.

(** [handleFeedback(messageId, feedbackData)], with the outcome of the
    request it awaits. *)
Definition handleFeedback (messageId : string) (feedbackData : FeedbackData)
    (outcome : SubmitOutcome) (st : State) : State :=
  match find (fun m => String.eqb (id m) messageId) (messages st) with
  | Some message =>
      if truthy (solution message) then
        match outcome with
        | Submitted _ =>
            {| messages := updateById messageId feedbackPatch (messages st);
               loading := loading st;
               isProcessing := isProcessing st;
               sessionId := sessionId st;
               renderError := renderError st;
               console := console st |}
        | SubmitFailed e =>
            {| messages := messages st;
               loading := loading st;
               isProcessing := isProcessing st;
               sessionId := sessionId st;
               renderError := renderError st;
               console := console st ++ [e] |}
        end
      else st
  | None => st
  end.

(** The steps of the default flow: a question is submitted, the
    [onSolutionComplete] closure of an assistant message is called, or
    feedback is handled.  The closure has no guard of its own: whoever
    holds it may call it at any time, also for a message that has its
    solution already. *)
Inductive Step : State -> State -> Prop :=
| Submit (question : string) (now later : Z) (st : State) :
    Step st (sendMessage question now later st)
| Complete (aiId : string) (completedSolution : JSValue) (st : State) :
    Step st (onSolutionComplete aiId completedSolution st)
| Feedback (messageId : string) (feedbackData : FeedbackData) (outcome : SubmitOutcome)
    (st : State) :
    Step st (handleFeedback messageId feedbackData outcome st).

Inductive Reachable (sessionId : string) : State -> Prop :=
| ReachInitial : Reachable sessionId (initial sessionId)
| ReachStep (st st' : State) :
    Reachable sessionId st -> Step st st' -> Reachable sessionId st'.

(** A step in time: as [Step], but a solution comes only for a message
    of the store that still awaits its stream. *)
Inductive TimelyStep : State -> State -> Prop :=
| SubmitInTime (question : string) (now later : Z) (st : State) :
    TimelyStep st (sendMessage question now later st)
| CompleteInTime (msg : Message) (completedSolution : JSValue) (st : State) :
    In msg (messages st) ->
    awaitsStream msg = true ->
    TimelyStep st (onSolutionComplete (id msg) completedSolution st)
| FeedbackInTime (messageId : string) (feedbackData : FeedbackData) (outcome : SubmitOutcome)
    (st : State) :
    TimelyStep st (handleFeedback messageId feedbackData outcome st).

(** The states the flow reaches while every solution comes in time. *)
Inductive Timely (sessionId : string) : State -> Prop :=
| TimelyInitial : Timely sessionId (initial sessionId)
| TimelyNext (st st' : State) :
    Timely sessionId st -> TimelyStep st st' -> Timely sessionId st'.

End Tutor.

(** ** The message bubble and the streaming display
    (MessageBubble, components/ConversationalMathTutor/SolutionDisplay.jsx) *)

Module Display.
Import JS Store.

(** The text under the progress bar.  The two template literals are kept
    as terms; their rendering to a string is not modelled. *)
Inductive StepText : Type :=
| Text (v : JSValue)
| UsingRoute (route confidence : JSValue)  (* Using ${route} route (${...}% confidence) *)
| ErrorText (message : JSValue).           (* Error: ${message} *)

Record DisplayState : Type := {
  streamedSteps : list JSValue;
  finalSolution : JSValue;
  isStreaming : bool;
  progress : JSValue;
  currentStep : StepText;
  routeInfo : JSValue;
  streamCleanupRef : option nat
}.

(** The state of the message bubble that owns the display. *)
Record BubbleState : Type := {
  streamingSessionId : option string;
  showStreamingSolution : bool
}.

(** The state the callbacks of one display act on: the display's own,
    its bubble's, and the tutor's. *)
Record Session : Type := {
  display : DisplayState;
  bubble : BubbleState;
  tutor : Tutor.State
}.

Definition initialDisplay : DisplayState :=
  {| streamedSteps := []; finalSolution := JNull; isStreaming := false;
     progress := JNum 0; currentStep := Text (JStr ""); routeInfo := JNull;
     streamCleanupRef := None |}.

(** The own enumerable properties [{...v}] copies. *)
Definition spread (v : JSValue) : gmap string JSValue :=
  match v with
  | JObj o => o
  | JArr l => list_to_map (imap (fun i x => (pretty i, x)) l)
  | JStr s => list_to_map (imap (fun i c => (pretty i, JStr (String c ""))) (list_ascii_of_string s))
  | _ => ∅
  end.

Definition steps_of (data : JSValue) : JSValue :=
  JObj (<["isStreaming" := JBool true]>
          (<["stepNumber" := get data "step_number"]> (spread (get data "step_data")))).

(** [50 + (data.step_number / data.total_steps) * 30] *)
Definition stepProgress (data : JSValue) : JSValue :=
  js_add (JNum 50)
    (js_mul (js_div (JSON.to_number (get data "step_number"))
                    (JSON.to_number (get data "total_steps")))
            (JNum 30)).

Definition with_display (f : DisplayState -> DisplayState) (s : Session) : Session :=
  {| display := f (display s); bubble := bubble s; tutor := tutor s |}.

Definition set_progress (p : JSValue) (step : StepText) (d : DisplayState) : DisplayState :=
  {| streamedSteps := streamedSteps d; finalSolution := finalSolution d;
     isStreaming := isStreaming d; progress := p; currentStep := step;
     routeInfo := routeInfo d; streamCleanupRef := streamCleanupRef d |}.

(** The effect of the bubble on its message (useEffect of MessageBubble). *)
Definition bubbleEffect (message : Message) (b : BubbleState) : BubbleState :=
  if awaitsStream message then
    {| streamingSessionId := streaming_session_id message; showStreamingSolution := true |}
  else if truthy (solution message) then
    {| streamingSessionId := None; showStreamingSolution := false |}
  else b.

(** [handleStreamingComplete(completedSolution)] of the bubble of [message] *)
Definition handleStreamingComplete (message : Message) (completedSolution : JSValue)
    (s : Session) : Session :=
  {| display := display s;
     bubble := {| streamingSessionId := None; showStreamingSolution := false |};
     tutor := match onSolutionComplete message with
              | Some aiId => Tutor.onSolutionComplete aiId completedSolution (tutor s)
              | None => tutor s
              end |}.

Section Callbacks.

(** The message the bubble renders; [onComplete] of the display is the
    bubble's [handleStreamingComplete]. *)
Variable message : Message.

Definition onConnect (data : JSValue) (s : Session) : Completion Session := Normal s.

Definition onProcessingStart (data : JSValue) (s : Session) : Completion Session :=
  Normal (with_display
            (set_progress (JNum 10)
               (Text (js_or (get data "message")
                        (JStr "Starting to solve your math problem...")))) s).

Definition onRouting (data : JSValue) (s : Session) : Completion Session :=
  Normal (with_display
            (set_progress (JNum 25)
               (Text (js_or (get data "message")
                        (JStr "Checking knowledge base for similar problems...")))) s).

Definition onRoutingResult (data : JSValue) (s : Session) : Completion Session :=
  Normal (with_display
            (fun d =>
               {| streamedSteps := streamedSteps d; finalSolution := finalSolution d;
                  isStreaming := isStreaming d; progress := JNum 40;
                  currentStep :=
                    (if truthy (get data "message") then Text (get data "message")
                     else UsingRoute (get data "route") (get data "confidence"));
                  routeInfo := data; streamCleanupRef := streamCleanupRef d |}) s).

Definition onStepUpdate (data : JSValue) (s : Session) : Completion Session :=
  Normal (with_display
            (set_progress (js_or (get data "progress") (JNum 50))
               (Text (get data "message"))) s).

Definition onStepGenerated (data : JSValue) (s : Session) : Completion Session :=
  Normal (with_display
            (fun d =>
               {| streamedSteps := streamedSteps d ++ [steps_of data];
                  finalSolution := finalSolution d;
                  isStreaming := isStreaming d; progress := stepProgress data;
                  currentStep := currentStep d;
                  routeInfo := routeInfo d; streamCleanupRef := streamCleanupRef d |}) s).

Definition onSolutionComplete (data : JSValue) (s : Session) : Completion Session :=
  Normal (handleStreamingComplete message (get data "data")
            (with_display
               (fun d =>
                  {| streamedSteps := streamedSteps d; finalSolution := get data "data";
                     isStreaming := false; progress := JNum 100;
                     currentStep := Text (JStr "Solution complete!");
                     routeInfo := routeInfo d; streamCleanupRef := streamCleanupRef d |}) s)).

Definition onCompletion (data : JSValue) (s : Session) : Completion Session :=
  Normal (with_display
            (set_progress (js_or (get data "progress") (JNum 95))
               (Text (js_or (get data "message") (JStr "Finalizing solution...")))) s).

Definition stop (step : StepText) (d : DisplayState) : DisplayState :=
  {| streamedSteps := streamedSteps d; finalSolution := finalSolution d;
     isStreaming := false; progress := progress d; currentStep := step;
     routeInfo := routeInfo d; streamCleanupRef := streamCleanupRef d |}.

Definition onError (data : JSValue) (s : Session) : Completion Session :=
  Normal (with_display (stop (ErrorText (get data "message"))) s).

Definition onConnectionError (error : JSValue) (s : Session) : Completion Session :=
  Normal (with_display (stop (Text (JStr "Connection error occurred"))) s).

(** The callbacks the display passes to [createStreamConnection]; it
    registers none for unknown events. *)
Definition callbacks : Transport.Callbacks Session :=
  {| Transport.onConnect := Some onConnect;
     Transport.onProcessingStart := Some onProcessingStart;
     Transport.onRouting := Some onRouting;
     Transport.onRoutingResult := Some onRoutingResult;
     Transport.onStepUpdate := Some onStepUpdate;
     Transport.onStepGenerated := Some onStepGenerated;
     Transport.onSolutionComplete := Some onSolutionComplete;
     Transport.onCompletion := Some onCompletion;
     Transport.onError := Some onError;
     Transport.onUnknownEvent := None;
     Transport.onConnectionError := Some onConnectionError |}.

End Callbacks.

(** The synchronous part of the effect of the display: a static display
    shows the solution it is given, a display without session id does
    nothing, any other resets its state and starts streaming. *)
Definition effect (sessionId : option string) (isStatic : bool) (solution : JSValue)
    (d : DisplayState) : DisplayState :=
  if isStatic && truthy solution then
    {| streamedSteps := streamedSteps d; finalSolution := solution;
       isStreaming := false; progress := JNum 100; currentStep := currentStep d;
       routeInfo := routeInfo d; streamCleanupRef := streamCleanupRef d |}
  else
    match sessionId with
    | Some sid =>
        if String.eqb sid "" then d
        else
          {| streamedSteps := []; finalSolution := JNull;
             isStreaming := true; progress := JNum 0; currentStep := currentStep d;
             routeInfo := routeInfo d; streamCleanupRef := streamCleanupRef d |}
    | None => d
    end.

(** The cleanup the effect of the display returns: it runs when the
    display unmounts or its inputs change. *)
Definition cleanup (d : DisplayState) : list Effect :=
  match streamCleanupRef d with
  | Some connection => [CallCleanup connection]
  | None => []
  end.

End Display.

(** ** The chat interface with its own state (ChatInterface) *)

Module Chat.
Import JS Store.

Record State : Type := {
  externalMessages : option (list Message);
  internalMessages : list Message;
  internalLoading : bool;
  currentStreamSession : option string;
  sessionId : string;
  streamCleanupRef : option nat;
  console : list string
}.

(** [externalMessages || internalMessages] *)
Definition messages (st : State) : list Message :=
  default (internalMessages st) (externalMessages st).

(** [handleInternalSendMessage(question)] up to the [await] of the
    connection: the state it leaves and what it does to the transports,
    in order.  An exception of the history builder leaves the handler
    before it has done anything. *)
Definition handleInternalSendMessage (question : string) (now later : Z) (st : State)
  : State * list Effect :=
  let safeQuestion := trim question in
  if String.eqb safeQuestion "" then (st, [])
  else
    match buildConversationHistory (internalMessages st) with
    | None => (st, [])
    | Some history =>
        ({| externalMessages := externalMessages st;
            internalMessages :=
              (internalMessages st ++ [userMessage safeQuestion now])
                ++ [aiMessage safeQuestion (sessionId st) later (Some history)];
            internalLoading := true;
            currentStreamSession := Some (sessionId st);
            sessionId := sessionId st;
            streamCleanupRef := streamCleanupRef st;
            console := console st |},
         match streamCleanupRef st with
         | Some connection => [CallCleanup connection]
         | None => []
         end
         ++ [OpenConnection {| question := safeQuestion;
                               session_id := sessionId st;
                               conversation_history := history |}])
    end.

(** The handler resumes with the cleanup function of the connection. *)
Definition connectionOpened (connection : nat) (st : State) : State :=
  {| externalMessages := externalMessages st;
     internalMessages := internalMessages st;
     internalLoading := internalLoading st;
     currentStreamSession := currentStreamSession st;
     sessionId := sessionId st;
     streamCleanupRef := Some connection;
     console := console st |}.

(** The handler resumes with the exception of the connection, after
    [onConnectionError]. *)
Definition connectionFailed (message : string) (now : Z) (st : State) : State :=
  {| externalMessages := externalMessages st;
     internalMessages :=
       internalMessages st ++
       [{| id := "error_" +:+ pretty now;
           text := JStr ("I apologize, but I encountered an error while trying to solve your problem: "
                         +:+ message +:+ ". Please try again or rephrase your question.");
           isUser := false;
           timestamp := now;
           originalQuestion := None;
           streaming_session_id := None;
           solution := JUndefined;
           showFeedback := false;
           isError := true;
           feedbackSubmitted := false;
           feedbackDetails := None;
           request_type := None;
           conversationHistory := None;
           onSolutionComplete := None |}];
     internalLoading := false;
     currentStreamSession := None;
     sessionId := sessionId st;
     streamCleanupRef := streamCleanupRef st;
     console := console st ++ [message] |}.

(** [handleInternalFeedback(messageId, feedbackData)], with the outcome
    of the request it awaits.  Reading [originalQuestion] of a message
    that is not in the list throws inside the [try]. *)
Definition handleInternalFeedback (messageId : string) (feedbackData : FeedbackData)
    (outcome : SubmitOutcome) (st : State) : State :=
  let log (e : string) :=
    {| externalMessages := externalMessages st;
       internalMessages := internalMessages st;
       internalLoading := internalLoading st;
       currentStreamSession := currentStreamSession st;
       sessionId := sessionId st;
       streamCleanupRef := streamCleanupRef st;
       console := console st ++ [e] |} in
  match find (fun m => String.eqb (id m) messageId) (messages st) with
  | None => log "TypeError"
  | Some message =>
      match outcome with
      | SubmitFailed e => log e
      | Submitted _ =>
          {| externalMessages := externalMessages st;
             internalMessages :=
               updateById messageId
                 (feedbackDetailsPatch
                    {| rating := user_rating feedbackData;
                       improvement_triggered := Qle_bool (user_rating feedbackData) 2 |})
                 (internalMessages st);
             internalLoading := internalLoading st;
             currentStreamSession := currentStreamSession st;
             sessionId := sessionId st;
             streamCleanupRef := streamCleanupRef st;
             console := console st |}
      end
  end.

End Chat.

(** ** The events of the server *)

Module Protocol.
Import JS.

(** Modelled from the spec: the events the server streams and the shape
    of their envelopes (the server, apps/server, is not among the
    sources), after the table of envelope shapes of the external
    interfaces; [progress] is the integer the table bounds by 0 and 100,
    and an event may leave it out. *)
Inductive Event : Type :=
| connected
| processing_started (message : string)
| routing (message : string)
| routing_result (route : string) (confidence : Q) (message : string)
| step_update (message : string) (progress : option Z)
| step_generated (step_number total_steps : Z) (step_data : JSValue)
| solution_complete (data : JSValue)
| completion (message : string) (progress : option Z)
| error (message : string).

Definition optional (name : string) (value : option Z) : list (string * JSValue) :=
  match value with
  | Some n => [(name, JNum (inject_Z n))]
  | None => []
  end.

Definition object (type : string) (fields : list (string * JSValue)) : JSValue :=
  JObj (list_to_map (("type", JStr type) :: fields)).

(** Modelled from the spec: the envelope [JSON.parse] returns for the
    line of an event, with the payload fields of the table. *)
Definition envelope (e : Event) : JSValue :=
  match e with
  | connected => object "connected" []
  | processing_started m => object "processing_started" [("message", JStr m)]
  | routing m => object "routing" [("message", JStr m)]
  | routing_result r c m =>
      object "routing_result"
        [("route", JStr r); ("confidence", JNum (Qred c)); ("message", JStr m)]
  | step_update m p => object "step_update" (("message", JStr m) :: optional "progress" p)
  | step_generated k n d =>
      object "step_generated"
        [("step_number", JNum (inject_Z k)); ("total_steps", JNum (inject_Z n));
         ("step_data", d)]
  | solution_complete d => object "solution_complete" [("data", d)]
  | completion m p => object "completion" (("message", JStr m) :: optional "progress" p)
  | error m => object "error" [("message", JStr m)]
  end.

(** Modelled from the spec: an event of the step phase, a step update
    whose progress, if any, is within 0 and 100, or a generated step
    numbered from 1 up to the total. *)
Definition step_event (e : Event) : Prop :=
  match e with
  | step_update _ (Some p) => (0 <= p <= 100)%Z
  | step_update _ None => True
  | step_generated k n _ => (1 <= k <= n)%Z
  | _ => False
  end.

(** Modelled from the spec: a well-formed sequence of the server, in
    which processing starts, the question is routed, the steps come, the
    solution is finalized and completed. *)
Definition well_formed (events : list Event) : Prop :=
  exists m1 m2 route confidence m3 steps m4 p data,
    events =
      [processing_started m1; routing m2; routing_result route confidence m3]
        ++ steps ++ [completion m4 p; solution_complete data]
    /\ Forall step_event steps
    /\ match p with Some n => (0 <= n <= 100)%Z | None => True end.

End Protocol.

Module Progress.
Import JS.

(** One event of the server reaches the display of [message] through the
    dispatcher. *)
Definition deliver (message : Store.Message) (e : Protocol.Event) (s : Display.Session)
  : Display.Session :=
  Transport.caller
    (state_of (Transport.handleStreamEvent (Protocol.envelope e) (Display.callbacks message)
                 {| Transport.caller := s; Transport.console := [] |})).

(** The progress the display shows after each event. *)
Fixpoint progress_after (message : Store.Message) (events : list Protocol.Event)
    (s : Display.Session) : list JSValue :=
  match events with
  | [] => []
  | e :: rest =>
      let s' := deliver message e s in
      Display.progress (Display.display s') :: progress_after message rest s'
  end.

(** [a <= b], for two numbers *)
Definition num_le (a b : JSValue) : Prop :=
  match a, b with
  | JNum x, JNum y => (x <= y)%Q
  | _, _ => False
  end.

Fixpoint nondecreasing (values : list JSValue) : Prop :=
  match values with
  | a :: (b :: _) as rest => num_le a b /\ nondecreasing rest
  | _ => True
  end.

(** A display that has just started streaming. *)
Definition started (tutor : Tutor.State) : Display.Session :=
  {| Display.display := Display.effect (Some (Tutor.sessionId tutor)) false JUndefined
                          Display.initialDisplay;
     Display.bubble := {| Display.streamingSessionId := Some (Tutor.sessionId tutor);
                          Display.showStreamingSolution := true |};
     Display.tutor := tutor |}.

(** The progress a step update or a completion sets: the one it carries,
    or the default when it carries none (or 0). *)
Definition shown (fallback : Z) (p : option Z) : Z :=
  match p with
  | Some n => if (n =? 0)%Z then fallback else n
  | None => fallback
  end.

(** The progress an event sets, whatever the state of the display. *)
Definition target (e : Protocol.Event) : JSValue :=
  match e with
  | Protocol.processing_started _ => JNum 10
  | Protocol.routing _ => JNum 25
  | Protocol.routing_result _ _ _ => JNum 40
  | Protocol.step_update _ p => JNum (inject_Z (shown 50 p))
  | Protocol.step_generated k n _ =>
      js_add (JNum 50) (js_mul (js_div (JNum (inject_Z k)) (JNum (inject_Z n))) (JNum 30))
  | Protocol.completion _ p => JNum (inject_Z (shown 95 p))
  | Protocol.solution_complete _ => JNum 100
  | Protocol.connected | Protocol.error _ => JUndefined
  end.

Definition sets_progress (e : Protocol.Event) : Prop :=
  match e with
  | Protocol.connected | Protocol.error _ => False
  | _ => True
  end.

Fixpoint ascending (l : list Z) : Prop :=
  match l with
  | a :: (b :: _) as rest => (a <= b)%Z /\ ascending rest
  | _ => True
  end.

Definition between (lo hi : Q) (v : JSValue) : Prop :=
  num_le (JNum lo) v /\ num_le v (JNum hi).

End Progress.

(** ** Predicates of the statements *)

Module Predicates.
Import JS Store.

(** The text of the message is a string that is not blank. *)
Definition nonblank (msg : Message) : bool :=
  match text msg with
  | JStr s => negb (String.eqb (trim s) EmptyString)
  | _ => false
  end.

(** The text of the message is a string, or is absent. *)
Definition textual (msg : Message) : Prop :=
  match text msg with
  | JStr _ | JUndefined | JNull => True
  | _ => False
  end.

(** The properties of a message. *)
Inductive Field : Type :=
| F_id | F_text | F_isUser | F_timestamp | F_originalQuestion | F_streaming_session_id
| F_solution | F_showFeedback | F_isError | F_feedbackSubmitted | F_feedbackDetails
| F_request_type | F_conversationHistory | F_onSolutionComplete.

(** Two messages agree on a property. *)
Definition same (f : Field) (a b : Message) : Prop :=
  match f with
  | F_id => id a = id b
  | F_text => text a = text b
  | F_isUser => isUser a = isUser b
  | F_timestamp => timestamp a = timestamp b
  | F_originalQuestion => originalQuestion a = originalQuestion b
  | F_streaming_session_id => streaming_session_id a = streaming_session_id b
  | F_solution => solution a = solution b
  | F_showFeedback => showFeedback a = showFeedback b
  | F_isError => isError a = isError b
  | F_feedbackSubmitted => feedbackSubmitted a = feedbackSubmitted b
  | F_feedbackDetails => feedbackDetails a = feedbackDetails b
  | F_request_type => request_type a = request_type b
  | F_conversationHistory => conversationHistory a = conversationHistory b
  | F_onSolutionComplete => onSolutionComplete a = onSolutionComplete b
  end.

(** At most one message of the list awaits a stream. *)
Definition at_most_one_awaits (messages : list Message) : Prop :=
  forall i j m m',
    messages !! i = Some m -> messages !! j = Some m' ->
    awaitsStream m = true -> awaitsStream m' = true -> i = j.

Definition none_awaits (messages : list Message) : Prop :=
  Forall (fun m => awaitsStream m = false) messages.

(** The owning message as the store holds it: what the messages with the
    id of [message] show of their solution and of their stream. *)
Definition owned (message : Message) (s : Display.Session)
  : list (JSValue * option string) :=
  map (fun m => (get (solution m) "final_answer", streaming_session_id m))
    (List.filter (fun m => String.eqb (id m) (id message)) (Tutor.messages (Display.tutor s))).

End Predicates.

(** ** Sample values *)

Module Samples.
Import JS Store.

Definition nl : string := String newline EmptyString.

(** The event line of the specification's example, split in two. *)
Definition sample_head : string := "data: {" +:+ quoted "a" +:+ ":1".
Definition sample_tail : string := "}" +:+ nl.

Definition routing_line : string :=
  "data: {" +:+ quoted "type" +:+ ":" +:+ quoted "routing" +:+ "}".

Definition answer (text : string) : JSValue := JObj {["final_answer" := JStr text]}.

Definition solution_line (text : string) : string :=
  "data: {" +:+ quoted "type" +:+ ":" +:+ quoted "solution_complete" +:+ ","
    +:+ quoted "data" +:+ ":{" +:+ quoted "final_answer" +:+ ":" +:+ quoted text +:+ "}}".

(** The event line of a generated step, with the JSON texts of its
    number and of its total. *)
Definition step_line (number total : string) : string :=
  "data: {" +:+ quoted "type" +:+ ":" +:+ quoted "step_generated" +:+ ","
    +:+ quoted "step_number" +:+ ":" +:+ number +:+ ","
    +:+ quoted "total_steps" +:+ ":" +:+ total +:+ "}".

(** A message that has the given text and flag and nothing else. *)
Definition plain (v : JSValue) (user : bool) : Message :=
  {| id := EmptyString; text := v; isUser := user; timestamp := 0;
     originalQuestion := None; streaming_session_id := None; solution := JUndefined;
     showFeedback := false; isError := false; feedbackSubmitted := false;
     feedbackDetails := None; request_type := None; conversationHistory := None;
     onSolutionComplete := None |}.

(** A caller that calls the cleanup function in its callbacks: it has
    called it as soon as it has received an event. *)
Definition calledOnce (seen : Transport.Recording) : bool :=
  match seen with
  | [] => false
  | _ :: _ => true
  end.

Definition rated (stars : Q) : FeedbackData :=
  {| user_rating := stars; user_comment := JNull |}.

(** A chat interface with its own messages. *)
Definition asking (cleanup : option nat) (internalMessages : list Message) : Chat.State :=
  {| Chat.externalMessages := None;
     Chat.internalMessages := internalMessages;
     Chat.internalLoading := false;
     Chat.currentStreamSession := None;
     Chat.sessionId := "s1";
     Chat.streamCleanupRef := cleanup;
     Chat.console := [] |}.

Definition chatting : Chat.State :=
  asking None [userMessage "q" 1; aiMessage "q" "s" 2 None].

End Samples.

(** ** The chat input (ChatInput.jsx) and its wiring in the chat interface *)

Module Input.
Import JS Store.

(** [handleSubmit] of the chat input: the message it passes to
    [onSendMessage], if it passes one. *)
Definition handleSubmit (input : string) (loading streamingActive : bool) : option string :=
  if negb (String.eqb (trim input) EmptyString) && negb loading && negb streamingActive
  then Some (trim input)
  else None.

(** [externalLoading !== undefined ? externalLoading : internalLoading] *)
Definition loading (externalLoading : option bool) (st : Chat.State) : bool :=
  default (Chat.internalLoading st) externalLoading.

(** [currentStreamSession !== null] *)
Definition streamingActive (st : Chat.State) : bool :=
  match Chat.currentStreamSession st with
  | Some _ => true
  | None => false
  end.

(** A submission of the input in a chat interface that is given no
    handler of its own: [handleSubmit], then [handleSendMessage], which
    calls [handleInternalSendMessage]. *)
Definition submitInternal (externalLoading : option bool) (input : string) (now later : Z)
    (st : Chat.State) : Chat.State * list Effect :=
  match handleSubmit input (loading externalLoading st) (streamingActive st) with
  | Some message => Chat.handleInternalSendMessage message now later st
  | None => (st, [])
  end.

(** A submission of the input in the chat interface the tutor renders:
    the tutor passes its [loading] and its [sendMessage], and the stream
    session of the interface itself stays null. *)
Definition submitTutor (input : string) (now later : Z) (st : Tutor.State) : Tutor.State :=
  match handleSubmit input (Tutor.loading st) false with
  | Some message => Tutor.sendMessage message now later st
  | None => st
  end.

End Input.

(** ** The callbacks of the chat interface with its own state
    (handleInternalSendMessage of ChatInterface) *)

Module ChatStream.
Import JS Store.

(** [{ ...msg, text: newText }] *)
Definition textPatch (newText : JSValue) (msg : Message) : Message :=
  {| id := id msg;
     text := newText;
     isUser := isUser msg;
     timestamp := timestamp msg;
     originalQuestion := originalQuestion msg;
     streaming_session_id := streaming_session_id msg;
     solution := solution msg;
     showFeedback := showFeedback msg;
     isError := isError msg;
     feedbackSubmitted := feedbackSubmitted msg;
     feedbackDetails := feedbackDetails msg;
     request_type := request_type msg;
     conversationHistory := conversationHistory msg;
     onSolutionComplete := onSolutionComplete msg |}.

(** [{ ...msg, text: newText, isError: true }] *)
Definition errorPatch (newText : JSValue) (msg : Message) : Message :=
  {| id := id msg;
     text := newText;
     isUser := isUser msg;
     timestamp := timestamp msg;
     originalQuestion := originalQuestion msg;
     streaming_session_id := streaming_session_id msg;
     solution := solution msg;
     showFeedback := showFeedback msg;
     isError := true;
     feedbackSubmitted := feedbackSubmitted msg;
     feedbackDetails := feedbackDetails msg;
     request_type := request_type msg;
     conversationHistory := conversationHistory msg;
     onSolutionComplete := onSolutionComplete msg |}.

Definition with_messages (internalMessages : list Message) (st : Chat.State) : Chat.State :=
  {| Chat.externalMessages := Chat.externalMessages st;
     Chat.internalMessages := internalMessages;
     Chat.internalLoading := Chat.internalLoading st;
     Chat.currentStreamSession := Chat.currentStreamSession st;
     Chat.sessionId := Chat.sessionId st;
     Chat.streamCleanupRef := Chat.streamCleanupRef st;
     Chat.console := Chat.console st |}.

(** [setInternalLoading(false); setCurrentStreamSession(null)] *)
Definition release (st : Chat.State) : Chat.State :=
  {| Chat.externalMessages := Chat.externalMessages st;
     Chat.internalMessages := Chat.internalMessages st;
     Chat.internalLoading := false;
     Chat.currentStreamSession := None;
     Chat.sessionId := Chat.sessionId st;
     Chat.streamCleanupRef := Chat.streamCleanupRef st;
     Chat.console := Chat.console st |}.

(** The callback [onProcessingStart] for the assistant message [aiId]. *)
Definition onProcessingStart (aiId : string) (data : JSValue) (st : Chat.State) : Chat.State :=
  with_messages
    (updateById aiId
       (textPatch (js_or (get data "message") (JStr "Starting to process your question...")))
       (Chat.internalMessages st)) st.

(** The [onSolutionComplete] closure of the assistant message [aiId],
    which the callback of the same name calls with [data.data]: the
    state it leaves, and whether its updater throws while React applies
    it (it reads [completedSolution.conversational_response] for a
    message it patches). *)
Definition onSolutionComplete (aiId : string) (completedSolution : JSValue) (st : Chat.State)
  : Chat.State * bool :=
  let solved := JStr "I've solved your math problem! Here's the step-by-step solution:" in
  match prop completedSolution "conversational_response" with
  | Some response =>
      (release (with_messages
                  (updateById aiId (solutionPatch completedSolution (js_or response solved))
                     (Chat.internalMessages st)) st),
       false)
  | None =>
      (release st, existsb (fun msg => String.eqb (id msg) aiId) (Chat.internalMessages st))
  end.

(** The callback [onError] for the assistant message [aiId]; [rendered]
    is the string of the template literal
    [Sorry, I encountered an error: ${data.message}]. *)
Definition onError (aiId : string) (rendered : string) (st : Chat.State) : Chat.State :=
  release (with_messages
             (updateById aiId (errorPatch (JStr rendered)) (Chat.internalMessages st)) st).

End ChatStream.

(** ** What a message bubble shows and sends (MessageBubble,
    StreamingSolutionDisplay) *)

Module Context.
Import JS Store.

(** [allMessages.findIndex(msg => msg.id === message.id)], [None] for -1 *)
Fixpoint findIndex (target : string) (messages : list Message) : option nat :=
  match messages with
  | [] => None
  | msg :: rest =>
      if String.eqb (id msg) target then Some O
      else match findIndex target rest with
           | Some i => Some (S i)
           | None => None
           end
  end.

(** [buildConversationHistory] of the message bubble: the history it is
    given when that is not empty, else the history of the messages before
    its own; [None] is the TypeError of the filter. *)
Definition buildConversationHistory (conversationHistory : list Entry.HistoryEntry)
    (allMessages : list Message) (message : Message) : option (list Entry.HistoryEntry) :=
  match conversationHistory with
  | _ :: _ => Some conversationHistory
  | [] =>
      match allMessages with
      | _ :: _ =>
          Store.buildConversationHistory
            match findIndex (id message) allMessages with
            | Some messageIndex => take messageIndex allMessages
            | None => allMessages
            end
      | [] => Some []
      end
  end.

(** [msg.content?.substring(0, 50)] returns: the content is a string,
    [undefined] or [null]. *)
Definition loggable (entry : Entry.HistoryEntry) : bool :=
  match Entry.content entry with
  | JStr _ | JUndefined | JNull => true
  | _ => false
  end.

(** [startStream] of the display up to the request: the history it
    posts, the one it is given when that is not empty, else the history
    of all messages.  [None] is an exception of the filter or of the log
    of the entries, which the [catch] of [startStream] turns into
    "Failed to start streaming". *)
Definition startStream (conversationHistory : list Entry.HistoryEntry)
    (messages : list Message) : option (list Entry.HistoryEntry) :=
  match match conversationHistory with
        | _ :: _ => Some conversationHistory
        | [] => Store.buildConversationHistory messages
        end with
  | Some fullConversationHistory =>
      if forallb loggable fullConversationHistory then Some fullConversationHistory else None
  | None => None
  end.

Inductive Started : Type :=
| RenderFails                                   (* an exception while rendering *)
| StartFails                                    (* the catch of [startStream] *)
| Posts (history : list Entry.HistoryEntry).    (* the request is sent *)

(** The streaming display of [message] in a chat interface that shows
    [messages]: the interface builds the history of all messages and
    gives it to every bubble with the messages, the bubble gives its own
    history and the messages to its display. *)
Definition displayStart (messages : list Message) (message : Message) : Started :=
  match Store.buildConversationHistory messages with
  | None => RenderFails
  | Some conversationHistory =>
      match buildConversationHistory conversationHistory messages message with
      | None => RenderFails
      | Some contextHistory =>
          match startStream contextHistory messages with
          | None => StartFails
          | Some history => Posts history
          end
      end
  end.

(** The condition under which the bubble renders the feedback panel:
    [message.showFeedback && !message.feedbackSubmitted && !message.isUser
    && message.solution]. *)
Definition showsPanel (message : Message) : bool :=
  showFeedback message && negb (feedbackSubmitted message) && negb (isUser message)
  && truthy (solution message).

End Context.

(** ** The solution context (contexts/MathContext.js) *)

Module Reducer.
Import JS.

Record State : Type := {
  currentSolution : JSValue;
  isLoading : JSValue;
  error : JSValue;
  feedbackSubmitted : JSValue;
  learningStats : JSValue;
  systemHealth : JSValue;
  history : list JSValue
}.

Definition initialState : State :=
  {| currentSolution := JNull; isLoading := JBool false; error := JNull;
     feedbackSubmitted := JBool false; learningStats := JNull; systemHealth := JNull;
     history := [] |}.

Record Action : Type := {
  type : string;
  payload : JSValue
}.

(** [mathReducer(state, action)] *)
Definition mathReducer (state : State) (action : Action) : State :=
  if String.eqb (type action) "SET_LOADING" then
    {| currentSolution := currentSolution state; isLoading := payload action; error := JNull;
       feedbackSubmitted := feedbackSubmitted state; learningStats := learningStats state;
       systemHealth := systemHealth state; history := history state |}
  else if String.eqb (type action) "SET_SOLUTION" then
    {| currentSolution := payload action; isLoading := JBool false; error := error state;
       feedbackSubmitted := JBool false; learningStats := learningStats state;
       systemHealth := systemHealth state;
       history := payload action :: take 9 (history state) |}
  else if String.eqb (type action) "SET_ERROR" then
    {| currentSolution := currentSolution state; isLoading := JBool false;
       error := payload action;
       feedbackSubmitted := feedbackSubmitted state; learningStats := learningStats state;
       systemHealth := systemHealth state; history := history state |}
  else if String.eqb (type action) "SET_FEEDBACK_SUBMITTED" then
    {| currentSolution := currentSolution state; isLoading := isLoading state;
       error := error state;
       feedbackSubmitted := payload action; learningStats := learningStats state;
       systemHealth := systemHealth state; history := history state |}
  else if String.eqb (type action) "SET_LEARNING_STATS" then
    {| currentSolution := currentSolution state; isLoading := isLoading state;
       error := error state;
       feedbackSubmitted := feedbackSubmitted state; learningStats := payload action;
       systemHealth := systemHealth state; history := history state |}
  else if String.eqb (type action) "SET_SYSTEM_HEALTH" then
    {| currentSolution := currentSolution state; isLoading := isLoading state;
       error := error state;
       feedbackSubmitted := feedbackSubmitted state; learningStats := learningStats state;
       systemHealth := payload action; history := history state |}
  else if String.eqb (type action) "CLEAR_SOLUTION" then
    {| currentSolution := JNull; isLoading := isLoading state; error := JNull;
       feedbackSubmitted := JBool false; learningStats := learningStats state;
       systemHealth := systemHealth state; history := history state |}
  else if String.eqb (type action) "CLEAR_ERROR" then
    {| currentSolution := currentSolution state; isLoading := isLoading state;
       error := JNull;
       feedbackSubmitted := feedbackSubmitted state; learningStats := learningStats state;
       systemHealth := systemHealth state; history := history state |}
  else state.

(** The state after the actions have been dispatched, in order. *)
Definition dispatchAll (actions : list Action) (state : State) : State :=
  fold_left mathReducer actions state.

(** The solutions among the actions, in dispatch order. *)
Definition solutions (actions : list Action) : list JSValue :=
  map payload (List.filter (fun a => String.eqb (type a) "SET_SOLUTION") actions).

End Reducer.

(** ** The feedback panel (FeedbackPanel.jsx) *)

Module Panel.
Import JS Store.

Record State : Type := {
  showFeedback : bool;
  rating : Z;
  comments : string
}.

Definition initial : State :=
  {| showFeedback := false; rating := 0; comments := EmptyString |}.

(** The star buttons of the panel: [[1, 2, 3, 4, 5].map(...)]. *)
Definition stars : list Z := [1; 2; 3; 4; 5]%Z.

(** [handleSubmit]: the next state, and the feedback it passes to
    [onSubmitFeedback], if it passes one. *)
Definition handleSubmit (st : State) : State * option FeedbackData :=
  if (0 <? rating st)%Z then
    (initial,
     Some {| user_rating := inject_Z (rating st);
             user_comment := js_or (JStr (comments st)) JNull |})
  else (st, None).

(** [handleCancel] *)
Definition handleCancel (st : State) : State := initial.

(** What the user does: a click on the button that opens the panel, on
    the star button at a position of the row, on the submit button or on
    the skip button, or a change of the comment. *)
Inductive Action : Type :=
| Open
| ClickStar (position : nat)
| Comment (text : string)
| Submit
| Skip.

(** One action on the panel as it is rendered: the closed panel shows
    the opening button only, the open panel the other controls, and the
    submit button is disabled while the rating is 0. *)
Definition step (a : Action) (st : State) : State * option FeedbackData :=
  if showFeedback st then
    match a with
    | Open => (st, None)
    | ClickStar position =>
        match stars !! position with
        | Some star =>
            ({| showFeedback := showFeedback st; rating := star; comments := comments st |},
             None)
        | None => (st, None)
        end
    | Comment text =>
        ({| showFeedback := showFeedback st; rating := rating st; comments := text |}, None)
    | Submit => if (rating st =? 0)%Z then (st, None) else handleSubmit st
    | Skip => (handleCancel st, None)
    end
  else
    match a with
    | Open => ({| showFeedback := true; rating := rating st; comments := comments st |}, None)
    | _ => (st, None)
    end.

(** The state a sequence of actions leaves and the feedback it submits,
    in order. *)
Fixpoint run (actions : list Action) (st : State) : State * list FeedbackData :=
  match actions with
  | [] => (st, [])
  | a :: rest =>
      let '(st1, out) := step a st in
      let '(st2, outs) := run rest st1 in
      (st2, match out with Some f => f :: outs | None => outs end)
  end.

End Panel.

(** ** The feedback form (FeedbackForm.jsx) *)

Module Form.
Import JS.


End Form.

(** ** Predicates of the statements about the store *)

Module Invariants.
Import JS Store.

(** Every message of [old] is still at its place in [new], with its id,
    author, time and question. *)
Definition keeps (old new : list Message) : Prop :=
  forall i m, old !! i = Some m ->
    exists m', new !! i = Some m'
      /\ id m' = id m /\ isUser m' = isUser m /\ timestamp m' = timestamp m
      /\ originalQuestion m' = originalQuestion m.

(** A patch leaves the id of a message as it is. *)
Definition keeps_id (patch : Message -> Message) : Prop :=
  forall msg, id (patch msg) = id msg.

(** The line is an event line that holds a solution: the read loop
    parses it to an event of type [solution_complete]. *)
Definition delivers_solution (line : string) : bool :=
  startsWith line "data: " &&
  match JSON.parse (slice 6 line) with
  | Some data => is_string (get data "type") "solution_complete"
  | None => false
  end.

(** The action delivers no solution: it is a chunk none of whose lines
    holds one, or the stream ends, fails or is cancelled. *)
Definition without_solution (a : Transport.Action) : bool :=
  match a with
  | Transport.Chunk chunk => negb (existsb delivers_solution (split_lines chunk))
  | _ => true
  end.

(** The event is of type [error]. *)
Definition is_error (data : JSValue) : bool := is_string (get data "type") "error".

(** A feedback the panel may submit: the rating of one of the five
    stars, and a comment that is null or a string that is not empty. *)
Definition valid_feedback (f : FeedbackData) : Prop :=
  (exists star, In star Panel.stars /\ user_rating f = inject_Z star)
  /\ (user_comment f = JNull \/ exists s, s <> EmptyString /\ user_comment f = JStr s).

(** The action opens the panel. *)
Definition opens (a : Panel.Action) : bool :=
  match a with
  | Panel.Open => true
  | _ => false
  end.

End Invariants.

(** * Properties *)

Import JS Store Predicates Samples.

(** ** Lines and chunks *)

Section Lines.

Lemma split_lines_nonempty (s : string) : split_lines s <> [].
Proof.
  destruct s as [|c r]; simpl; [discriminate|].
  destruct (Ascii.eqb c newline); [discriminate|].
  destruct (split_lines r); discriminate.
Qed.

(** Splitting distributes over a newline between two texts. *)
Lemma split_lines_newline (a b : string) :
  split_lines (a +:+ String newline b) = split_lines a ++ split_lines b.
Proof.
  induction a as [|c r IH]; simpl.
  - reflexivity.
  - destruct (Ascii.eqb c newline).
    + rewrite IH. reflexivity.
    + rewrite IH. destruct (split_lines r) as [|h t] eqn:E.
      * exfalso. exact (split_lines_nonempty r E).
      * reflexivity.
Qed.

Lemma split_lines_single (line : string) :
  has_newline line = false -> split_lines line = [line].
Proof.
  induction line as [|c r IH]; simpl; intros H; [reflexivity|].
  apply orb_false_iff in H as [Hc Hr].
  rewrite Hc, (IH Hr). reflexivity.
Qed.

Lemma split_join_lines (lines : list string) :
  lines <> [] ->
  Forall (fun line => has_newline line = false) lines ->
  split_lines (join_lines lines) = lines.
Proof.
  induction lines as [|line rest IH]; intros Hne Hall; [congruence|].
  inversion Hall as [|? ? Hline Hrest]; subst.
  destruct rest as [|line' rest'].
  - simpl. apply split_lines_single. exact Hline.
  - change (join_lines (line :: line' :: rest'))
      with (line +:+ String newline (join_lines (line' :: rest'))).
    rewrite split_lines_newline, (split_lines_single _ Hline), IH by (congruence || assumption).
    reflexivity.
Qed.

Lemma ends_with_newline_app (s : string) :
  ends_with_newline s = true -> exists a, s = a +:+ String newline "".
Proof.
  induction s as [|c r IH]; simpl; [discriminate|].
  destruct r as [|c' r'].
  - intros H. apply Ascii.eqb_eq in H. subst. exists "". reflexivity.
  - intros H. destruct (IH H) as [a Ha]. exists (String c a). rewrite Ha. reflexivity.
Qed.

Lemma string_app_assoc (a b c : string) : (a +:+ b) +:+ c = a +:+ (b +:+ c).
Proof.
  induction a as [|x a IH]; [reflexivity|].
  change (String x ((a +:+ b) +:+ c) = String x (a +:+ (b +:+ c))). rewrite IH. reflexivity.
Qed.

End Lines.

(** ** The fuel of the JSON parser *)

Section JsonFuel.

Import JSON.

Lemma skip_ws_length (s : string) : String.length (skip_ws s) <= String.length s.
Proof.
  induction s as [|c r IH]; simpl; [lia|]. destruct (is_ws c); simpl; lia.
Qed.

Lemma slice_length (n : nat) (s : string) :
  String.length (slice n s) = String.length s - n.
Proof.
  revert s. induction n as [|n IH]; intros s; simpl; [lia|].
  destruct s as [|c r]; simpl; [reflexivity | apply IH].
Qed.

Lemma prefix_length (w s : string) :
  String.prefix w s = true -> String.length w <= String.length s.
Proof.
  revert s. induction w as [|a w IH]; intros s H; [simpl; lia|].
  destruct s as [|b s]; simpl in H; [discriminate|]. simpl.
  destruct (ascii_dec a b); [|discriminate]. apply IH in H. lia.
Qed.

Lemma digits_length (s : string) (acc : Z) (n : nat) (v : Z) (k : nat) (r : string) :
  digits s acc n = (v, k, r) ->
  String.length r <= String.length s /\ (n < k -> String.length r < String.length s).
Proof.
  revert acc n. induction s as [|c s IH]; intros acc n H; simpl in *.
  - injection H as <- <- <-. simpl. lia.
  - destruct (digit c).
    + apply IH in H. lia.
    + injection H as <- <- <-. simpl. lia.
Qed.

Lemma parse_frac_length (ip : Z) (s : string) (m : Z) (fl : nat) (r : string) :
  parse_frac ip s = Some (m, fl, r) -> String.length r <= String.length s.
Proof.
  unfold parse_frac. destruct s as [|c s]; [intros [= <- <- <-]; lia|].
  destruct (Nat.eqb (nat_of_ascii c) 46).
  - destruct (digits s ip 0) as [[v k] r'] eqn:E. destruct k; [discriminate|].
    intros [= <- <- <-]. apply digits_length in E. simpl. lia.
  - intros [= <- <- <-]. lia.
Qed.

Lemma parse_exp_length (s : string) (e : Z) (r : string) :
  parse_exp s = Some (e, r) -> String.length r <= String.length s.
Proof.
  unfold parse_exp. destruct s as [|c s]; [intros [= <- <-]; lia|].
  destruct (Nat.eqb (nat_of_ascii c) 101 || Nat.eqb (nat_of_ascii c) 69).
  - destruct s as [|d s'].
    + simpl. discriminate.
    + destruct (Nat.eqb (nat_of_ascii d) 43); [|destruct (Nat.eqb (nat_of_ascii d) 45)];
        match goal with |- context [digits ?x 0 0] =>
          destruct (digits x 0 0) as [[v k] r'] eqn:E end;
        (destruct k; [discriminate|]); intros [= <- <-];
        apply digits_length in E; simpl in *; lia.
  - intros [= <- <-]. lia.
Qed.

Lemma parse_number_length (s : string) (q : Q) (r : string) :
  parse_number s = Some (q, r) -> String.length r < String.length s.
Proof.
  unfold parse_number.
  assert (Hbody : forall s1,
    match s1 with
    | String c r0 =>
        match digit c with
        | None => None
        | Some d =>
            let '(ip, _, s2) := if (d =? 0)%Z then (0%Z, 1%nat, r0) else digits r0 d 1 in
            match parse_frac ip s2 with
            | None => None
            | Some (m, fl, s3) =>
                match parse_exp s3 with
                | None => None
                | Some (e, s4) => Some (s4)
                end
            end
        end
    | EmptyString => None
    end = Some r -> String.length r < String.length s1).
  { intros [|c r0]; [discriminate|]. destruct (digit c) as [d|]; [|discriminate].
    destruct (if (d =? 0)%Z then (0%Z, 1%nat, r0) else digits r0 d 1) as [[ip k] s2] eqn:E.
    assert (Hs2 : String.length s2 <= String.length r0).
    { destruct (d =? 0)%Z; [injection E as <- <- <-; lia | apply digits_length in E; lia]. }
    destruct (parse_frac ip s2) as [[[m fl] s3]|] eqn:Ef; [|discriminate].
    destruct (parse_exp s3) as [[e s4]|] eqn:Ee; [|discriminate].
    intros [= <-]. apply parse_frac_length in Ef. apply parse_exp_length in Ee. simpl. lia. }
  destruct s as [|c0 s0]; [discriminate|].
  destruct (Nat.eqb (nat_of_ascii c0) 45).
  - specialize (Hbody s0). intros H. simpl. apply Nat.lt_lt_succ_r. apply Hbody. clear Hbody.
    destruct s0 as [|c r0]; [discriminate|]. destruct (digit c); [|discriminate].
    destruct (if (_ =? 0)%Z then _ else _) as [[ip k] s2].
    destruct (parse_frac ip s2) as [[[m fl] s3]|]; [|discriminate].
    destruct (parse_exp s3) as [[e s4]|]; [|discriminate].
    injection H as _ <-. reflexivity.
  - specialize (Hbody (String c0 s0)). intros H. apply Hbody. clear Hbody.
    destruct (digit c0); [|discriminate].
    destruct (if (_ =? 0)%Z then _ else _) as [[ip k] s2].
    destruct (parse_frac ip s2) as [[[m fl] s3]|]; [|discriminate].
    destruct (parse_exp s3) as [[e s4]|]; [|discriminate].
    injection H as _ <-. reflexivity.
Qed.

Lemma parse_chars_length (s t r : string) :
  parse_chars s = Some (t, r) -> String.length r < String.length s.
Proof.
  remember (String.length s) as n eqn:Hn. revert s t r Hn.
  induction n as [n IH] using lt_wf_ind. intros s t r Hn H.
  destruct s as [|c s1]; [discriminate|]. simpl in Hn. cbn [parse_chars] in H.
  destruct (Nat.eqb (nat_of_ascii c) 34).
  { injection H as <- <-. lia. }
  destruct (Nat.eqb (nat_of_ascii c) 92).
  - destruct s1 as [|e s2]; [discriminate|].
    destruct (Nat.eqb (nat_of_ascii e) 117).
    + destruct s2 as [|h1 [|h2 [|h3 [|h4 s3]]]]; try discriminate.
      destruct (hex h1), (hex h2), (hex h3), (hex h4); try discriminate.
      destruct (parse_chars s3) as [[t' r']|] eqn:E; [|discriminate].
      injection H as <- <-. apply (IH (String.length s3)) in E; simpl in *; lia.
    + destruct (escape e); [|discriminate].
      destruct (parse_chars s2) as [[t' r']|] eqn:E; [|discriminate].
      injection H as <- <-. apply (IH (String.length s2)) in E; simpl in *; lia.
  - destruct (Nat.ltb (nat_of_ascii c) 32); [discriminate|].
    destruct (parse_chars s1) as [[t' r']|] eqn:E; [|discriminate].
    injection H as <- <-. apply (IH (String.length s1)) in E; simpl in *; lia.
Qed.

Lemma literal_length (w : string) (v v' : JSValue) (s r : string) :
  0 < String.length w ->
  literal w v s = Some (v', r) -> String.length r < String.length s.
Proof.
  unfold literal. intros Hw. destruct (String.prefix w s) eqn:E; [|discriminate].
  intros [= <- <-]. rewrite slice_length. apply prefix_length in E. lia.
Qed.

End JsonFuel.

Section JsonFuelMain.

Import JSON.

Ltac rew :=
  repeat match goal with
  | E : ?x = _ |- context [?x] => rewrite E
  end.

Ltac ws_fact s :=
  let H := fresh "Hws" in
  pose proof (skip_ws_length s) as H;
  match goal with E : skip_ws s = _ |- _ => rewrite E in H end;
  simpl in H.

Ltac refuel :=
  let g := fresh "g" in
  let Hg := fresh "Hg" in
  intros g Hg; unfold enough in *;
  destruct g as [|g]; [simpl in *; lia|];
  cbn [parse_value parse_elems parse_members]; rew.

Lemma parse_fuel (f : nat) :
  (forall s v r, parse_value f s = Some (v, r) ->
     String.length r < String.length s
     /\ forall g, enough s r g -> parse_value g s = Some (v, r))
  /\ (forall s acc v r, parse_elems f s acc = Some (v, r) ->
     String.length r < String.length s
     /\ forall g, enough s r g -> parse_elems g s acc = Some (v, r))
  /\ (forall s acc v r, parse_members f s acc = Some (v, r) ->
     String.length r < String.length s
     /\ forall g, enough s r g -> parse_members g s acc = Some (v, r)).
Proof.
  induction f as [|f [IHv [IHe IHm]]]; [repeat split; discriminate|].
  split; [|split].
  - intros s v r H. cbn [parse_value] in H.
    destruct (skip_ws s) as [|c r0] eqn:Ews; [discriminate|]. ws_fact s.
    destruct (Nat.eqb (nat_of_ascii c) 123) eqn:E1.
    { destruct (skip_ws r0) as [|c1 r1] eqn:Ews1; [discriminate|]. ws_fact r0.
      destruct (Nat.eqb (nat_of_ascii c1) 125) eqn:E2.
      - injection H as <- <-. split; [lia|]. refuel. reflexivity.
      - apply IHm in H as [Hlen Hfuel]. simpl in Hlen. split; [lia|]. refuel.
        apply Hfuel. unfold enough. simpl. lia. }
    destruct (Nat.eqb (nat_of_ascii c) 91) eqn:E3.
    { destruct (skip_ws r0) as [|c1 r1] eqn:Ews1; [discriminate|]. ws_fact r0.
      destruct (Nat.eqb (nat_of_ascii c1) 93) eqn:E2.
      - injection H as <- <-. split; [lia|]. refuel. reflexivity.
      - apply IHe in H as [Hlen Hfuel]. simpl in Hlen. split; [lia|]. refuel.
        apply Hfuel. unfold enough. simpl. lia. }
    destruct (Nat.eqb (nat_of_ascii c) 34) eqn:E4.
    { destruct (parse_chars r0) as [[t rest]|] eqn:Ec; [|discriminate].
      injection H as <- <-. apply parse_chars_length in Ec as Hlen.
      split; [lia|]. refuel. reflexivity. }
    destruct (Nat.eqb (nat_of_ascii c) 116) eqn:E5.
    { apply literal_length in H as Hlen; [|simpl; lia]. simpl in Hlen.
      split; [lia|]. refuel. reflexivity. }
    destruct (Nat.eqb (nat_of_ascii c) 102) eqn:E6.
    { apply literal_length in H as Hlen; [|simpl; lia]. simpl in Hlen.
      split; [lia|]. refuel. reflexivity. }
    destruct (Nat.eqb (nat_of_ascii c) 110) eqn:E7.
    { apply literal_length in H as Hlen; [|simpl; lia]. simpl in Hlen.
      split; [lia|]. refuel. reflexivity. }
    destruct (parse_number (String c r0)) as [[q rest]|] eqn:En; [|discriminate].
    injection H as <- <-. apply parse_number_length in En as Hlen. simpl in Hlen.
    split; [lia|]. refuel. reflexivity.
  - intros s acc v r H. cbn [parse_elems] in H.
    destruct (parse_value f s) as [[v1 r1]|] eqn:Ev; [|discriminate].
    apply IHv in Ev as [Hlen1 Hfuel1].
    destruct (skip_ws r1) as [|c r2] eqn:Ews; [discriminate|]. ws_fact r1.
    destruct (Nat.eqb (nat_of_ascii c) 44) eqn:E1.
    { apply IHe in H as [Hlen Hfuel]. split; [lia|]. refuel.
      rewrite (Hfuel1 g) by (unfold enough; lia). rew.
      apply Hfuel. unfold enough. lia. }
    destruct (Nat.eqb (nat_of_ascii c) 93) eqn:E2; [|discriminate].
    injection H as <- <-. split; [lia|]. refuel.
    rewrite (Hfuel1 g) by (unfold enough; lia). rew. reflexivity.
  - intros s acc v r H. cbn [parse_members] in H.
    destruct (skip_ws s) as [|q r0] eqn:Ews; [discriminate|]. ws_fact s.
    destruct (Nat.eqb (nat_of_ascii q) 34) eqn:E1; [|discriminate].
    destruct (parse_chars r0) as [[k r1]|] eqn:Ec; [|discriminate].
    apply parse_chars_length in Ec as Hlenk.
    destruct (skip_ws r1) as [|c r2] eqn:Ews1; [discriminate|]. ws_fact r1.
    destruct (Nat.eqb (nat_of_ascii c) 58) eqn:E2; [|discriminate].
    destruct (parse_value f r2) as [[v1 r3]|] eqn:Ev; [|discriminate].
    apply IHv in Ev as [Hlen1 Hfuel1].
    destruct (skip_ws r3) as [|d r4] eqn:Ews2; [discriminate|]. ws_fact r3.
    destruct (Nat.eqb (nat_of_ascii d) 44) eqn:E3.
    { apply IHm in H as [Hlen Hfuel]. split; [lia|]. refuel.
      rewrite (Hfuel1 g) by (unfold enough; lia). rew.
      apply Hfuel. unfold enough. lia. }
    destruct (Nat.eqb (nat_of_ascii d) 125) eqn:E4; [|discriminate].
    injection H as <- <-. split; [lia|]. refuel.
    rewrite (Hfuel1 g) by (unfold enough; lia). rew. reflexivity.
Qed.

(** The fuel of [JSON.parse] never runs out: a text that parses with some
    fuel parses with the fuel [parse] gives, and any larger fuel gives
    what [parse] finds. *)
Lemma parse_value_fuel (s : string) (g : nat) :
  2 * String.length s <= g ->
  parse_value g s = parse_value (2 * String.length s + 2) s.
Proof.
  intros Hg.
  destruct (parse_value g s) as [[v r]|] eqn:E1.
  - apply (proj1 (parse_fuel g)) in E1 as [_ Hfuel]. symmetry. apply Hfuel.
    unfold enough. lia.
  - destruct (parse_value (2 * String.length s + 2) s) as [[v r]|] eqn:E2; [|reflexivity].
    apply (proj1 (parse_fuel _)) in E2 as [_ Hfuel].
    rewrite (Hfuel g) in E1; [discriminate|]. unfold enough. lia.
Qed.

Lemma parse_with_any_fuel (s : string) (f : nat) (v : JSValue) (r : string) :
  parse_value f s = Some (v, r) -> skip_ws r = EmptyString -> parse s = Some v.
Proof.
  intros H Hr. apply (proj1 (parse_fuel f)) in H as [_ Hfuel].
  unfold parse. rewrite (Hfuel (2 * String.length s + 2)) by (unfold enough; lia).
  rewrite Hr. reflexivity.
Qed.

End JsonFuelMain.

(** ** The transport *)

Section TransportFacts.

Import Transport.
Context {S : Type}.
Implicit Types (callbacks : Callbacks S) (w : World S) (t : Connection S).

Lemma processLines_app callbacks (l1 l2 : list string) w :
  processLines callbacks (l1 ++ l2) w = processLines callbacks l2 (processLines callbacks l1 w).
Proof. unfold processLines. apply fold_left_app. Qed.

Lemma processLine_empty callbacks w : processLine callbacks "" w = w.
Proof. reflexivity. Qed.

(** A chunk that ends at a line boundary leaves nothing behind: the text
    after it is processed as if it came with it. *)
Lemma processChunk_boundary callbacks (a rest : string) w :
  processChunk callbacks ((a +:+ String newline "") +:+ rest) w =
  processChunk callbacks rest (processChunk callbacks (a +:+ String newline "") w).
Proof.
  unfold processChunk.
  rewrite string_app_assoc.
  change (String newline "" +:+ rest) with (String newline rest).
  rewrite !split_lines_newline, !processLines_app.
  reflexivity.
Qed.

Lemma run_app callbacks (a1 a2 : list Action) t :
  run callbacks (a1 ++ a2) t = run callbacks a2 (run callbacks a1 t).
Proof. unfold run. apply fold_left_app. Qed.

Lemma run_chunks callbacks (chunks : list string) w :
  run callbacks (map Chunk chunks) (opened w) =
  opened (fold_left (fun w c => processChunk callbacks c w) chunks w).
Proof.
  revert w. induction chunks as [|c rest IH]; intros w; [reflexivity|].
  simpl. rewrite <- IH. reflexivity.
Qed.

Lemma step_not_readable callbacks (a : Action) t :
  stream t <> Readable -> step callbacks a t = t.
Proof.
  intros H. unfold step, react. destruct t as [st rd w]; simpl in *.
  destruct st; [congruence | reflexivity | reflexivity].
Qed.

Lemma run_not_readable callbacks (actions : list Action) t :
  stream t <> Readable -> run callbacks actions t = t.
Proof.
  intros H. induction actions as [|a rest IH]; [reflexivity|].
  simpl. rewrite step_not_readable by exact H. exact IH.
Qed.

Lemma step_Cancel callbacks t :
  stream (step callbacks Cancel t) <> Readable /\
  world (step callbacks Cancel t) = world t.
Proof.
  unfold step, react. destruct t as [st rd w]; simpl.
  destruct st; simpl; [|split; [discriminate | reflexivity]..].
  destruct rd; simpl; split; (discriminate || reflexivity).
Qed.

End TransportFacts.

Section Dispatch.

Import Transport.

Lemma handleStreamEvent_table {S : Type} (data ty : JSValue) (callbacks : Callbacks S)
    (w : World S) :
  prop data "type" = Some ty ->
  handleStreamEvent data callbacks w =
  call (callback_of (classify ty) callbacks) data
    (match classify ty with ErrorEvent => console_error StreamError w | _ => w end).
Proof.
  intros H. unfold handleStreamEvent. rewrite H.
  destruct ty as [| |b|q|s|l|o| |n|]; try reflexivity.
  unfold is_string, classify, event_table, assoc.
  repeat (destruct (String.eqb s _); [reflexivity|]).
  reflexivity.
Qed.

Lemma classify_unknown (ty : JSValue) :
  (forall name, In name (map fst event_table) -> ty <> JStr name) ->
  classify ty = Unknown.
Proof.
  intros H. destruct ty as [| |b|q|s|l|o| |n|]; try reflexivity.
  unfold classify, event_table, assoc.
  repeat match goal with
  | |- context [String.eqb s ?name] =>
      destruct (String.eqb_spec s name) as [->|_];
      [exfalso; eapply H; [|reflexivity]; simpl; tauto|]
  end.
  reflexivity.
Qed.

(** What a recording caller sees of one event. *)
Lemma handleStreamEvent_recorded (data ty : JSValue) (registered : EventKind -> bool)
    (seen : Recording) (errors : list ConsoleError) :
  prop data "type" = Some ty ->
  handleStreamEvent data (recorders registered) {| caller := seen; console := errors |} =
  Normal {| caller := if registered (classify ty)
                      then seen ++ [(classify ty, data)] else seen;
            console := match classify ty with
                       | ErrorEvent => errors ++ [StreamError]
                       | _ => errors
                       end |}.
Proof.
  intros H. rewrite (handleStreamEvent_table _ _ _ _ H).
  destruct (classify ty); unfold recorders, callback_of, call, console_error; simpl;
    destruct (registered _); reflexivity.
Qed.

(** C6. The dispatcher maps the type discriminant of a parsed envelope to
    exactly one callback: one of the nine named ones, or the unknown
    catch-all for any other value; it passes the envelope unchanged; an
    event whose callback is not registered is dropped and nothing is
    raised. *)
Theorem handleStreamEvent_dispatches (data ty : JSValue) :
  prop data "type" = Some ty ->
  (forall (S : Type) (callbacks : Callbacks S) (w : World S),
      handleStreamEvent data callbacks w =
      call (callback_of (classify ty) callbacks) data
        (match classify ty with ErrorEvent => console_error StreamError w | _ => w end))
  /\ (forall (registered : EventKind -> bool) (seen : Recording) (errors : list ConsoleError),
        handleStreamEvent data (recorders registered) {| caller := seen; console := errors |} =
        Normal {| caller := if registered (classify ty)
                            then seen ++ [(classify ty, data)] else seen;
                  console := match classify ty with
                             | ErrorEvent => errors ++ [StreamError]
                             | _ => errors
                             end |})
  /\ map (fun name => classify (JStr name))
       ["connected"; "processing_started"; "routing"; "routing_result"; "step_update";
        "step_generated"; "solution_complete"; "completion"; "error"]
     = [Connected; ProcessingStarted; Routing; RoutingResult; StepUpdate;
        StepGenerated; SolutionComplete; Completion; ErrorEvent]
  /\ ((forall name, In name (map fst event_table) -> ty <> JStr name) ->
      classify ty = Unknown).
Proof.
  intros H. repeat split.
  - intros S callbacks w. apply handleStreamEvent_table. exact H.
  - intros registered seen errors. apply handleStreamEvent_recorded. exact H.
  - apply classify_unknown.
Qed.

Lemma handleStreamEvent_dispatches_witness :
  let data := JObj {["type" := JStr "routing"]} in
  prop data "type" = Some (JStr "routing")
  /\ handleStreamEvent data (recorders (fun _ => true)) {| caller := []; console := [] |} =
     Normal {| caller := [(Routing, data)]; console := [] |}.
Proof.
  split; [reflexivity|].
  exact (proj1 (proj2 (handleStreamEvent_dispatches
                         (JObj {["type" := JStr "routing"]}) (JStr "routing") eq_refl))
           (fun _ => true) [] []).
Defined.

End Dispatch.

Section ReadLoop.

Import Transport.

(** C5. A line whose payload is not valid JSON is logged and skipped, and
    only that line: the lines before it and after it are processed as
    they are without it, and the connection keeps reading. *)
Theorem malformed_line_is_skipped {S : Type} (callbacks : Callbacks S)
    (before after : list string) (bad : string) (w : World S) :
  startsWith bad "data: " = true ->
  JSON.parse (slice 6 bad) = None ->
  Forall (fun line => has_newline line = false) (before ++ bad :: after) ->
  let skipped :=
    processLines callbacks after
      (console_error ErrorParsingStreamData (processLines callbacks before w)) in
  processLines callbacks (before ++ bad :: after) w = skipped
  /\ step callbacks (Chunk (join_lines (before ++ bad :: after))) (opened w) = opened skipped.
Proof.
  intros Hdata Hparse Hlines skipped.
  assert (Hrun : processLines callbacks (before ++ bad :: after) w = skipped).
  { rewrite processLines_app. unfold skipped. simpl. f_equal.
    unfold processLine. rewrite Hdata, Hparse. reflexivity. }
  split; [exact Hrun|].
  unfold step, opened, react, iteration, processChunk. simpl.
  rewrite split_join_lines; [rewrite Hrun; reflexivity | | exact Hlines].
  destruct before; discriminate.
Qed.

Lemma malformed_line_is_skipped_witness :
  let all := recorders (fun _ => true) in
  let routing := JObj {["type" := JStr "routing"]} in
  startsWith "data: {oops" "data: " = true
  /\ JSON.parse (slice 6 "data: {oops") = None
  /\ step all (Chunk (join_lines [routing_line; "data: {oops"; routing_line]))
       (opened {| caller := []; console := [] |}) =
     opened {| caller := [(Routing, routing); (Routing, routing)];
               console := [ErrorParsingStreamData] |}.
Proof.
  split; [reflexivity|]. split; [reflexivity|].
  exact (proj2 (malformed_line_is_skipped (recorders (fun _ => true))
                  [routing_line] [routing_line] "data: {oops"
                  {| caller := []; console := [] |} eq_refl eq_refl
                  ltac:(repeat constructor))).
Defined.

End ReadLoop.

Section Chunks.

Import Transport.

(** C1, as stated, fails: the read loop keeps no buffer.  The event line
    delivered in one chunk yields its envelope; delivered in two chunks,
    the first part fails to parse, the second is no data line, and no
    envelope is produced at all. *)
Lemma split_line_is_lost :
  let all := recorders (fun _ => true) in
  let start := opened {| caller := []; console := [] |} in
  world (run all [Chunk (sample_head +:+ sample_tail)] start) =
    {| caller := [(Unknown, JObj {["a" := JNum 1]})]; console := [] |}
  /\ world (run all [Chunk sample_head; Chunk sample_tail] start) =
    {| caller := []; console := [ErrorParsingStreamData] |}.
Proof. split; vm_compute; reflexivity. Qed.

Lemma chunks_at_boundaries {S : Type} (callbacks : Callbacks S) (chunks : list string)
    (w : World S) :
  Forall (fun chunk => ends_with_newline chunk = true) chunks ->
  fold_left (fun w chunk => processChunk callbacks chunk w) chunks w =
  processChunk callbacks (fold_right String.append EmptyString chunks) w.
Proof.
  intros Hall. revert w. induction Hall as [|chunk rest Hchunk _ IH]; intros w; [reflexivity|].
  simpl. destruct (ends_with_newline_app _ Hchunk) as [a ->].
  rewrite processChunk_boundary. apply IH.
Qed.

(** An event line that comes whole in a chunk yields its envelope, once. *)
Lemma whole_line_yields_its_envelope (line : string) (data ty : JSValue)
    (seen : Recording) (errors : list ConsoleError) :
  has_newline line = false ->
  startsWith line "data: " = true ->
  JSON.parse (slice 6 line) = Some data ->
  prop data "type" = Some ty ->
  processChunk (recorders (fun _ => true)) (line +:+ String newline EmptyString)
    {| caller := seen; console := errors |} =
  {| caller := seen ++ [(classify ty, data)];
     console := match classify ty with
                | ErrorEvent => errors ++ [StreamError]
                | _ => errors
                end |}.
Proof.
  intros Hline Hdata Hparse Hty. unfold processChunk.
  rewrite split_lines_newline, (split_lines_single _ Hline), processLines_app.
  unfold processLines. cbn [fold_left split_lines]. rewrite processLine_empty.
  unfold processLine. rewrite Hdata, Hparse.
  rewrite (handleStreamEvent_recorded _ _ _ _ _ Hty). reflexivity.
Qed.

(** C1, amended. Every chunk is split into lines on its own and nothing
    is carried from one read to the next; when every chunk ends at a line
    boundary, the chunks are processed exactly as the whole text is, and
    an event line that comes whole in a chunk yields its envelope exactly
    once. *)
Theorem chunks_are_split_independently {S : Type} (callbacks : Callbacks S)
    (chunks : list string) (w : World S) :
  Forall (fun chunk => ends_with_newline chunk = true) chunks ->
  run callbacks (map Chunk chunks) (opened w) =
    opened (fold_left (fun w chunk => processChunk callbacks chunk w) chunks w)
  /\ run callbacks (map Chunk chunks) (opened w) =
     run callbacks [Chunk (fold_right String.append EmptyString chunks)] (opened w)
  /\ (forall (line : string) (data ty : JSValue) (seen : Recording)
             (errors : list ConsoleError),
        has_newline line = false ->
        startsWith line "data: " = true ->
        JSON.parse (slice 6 line) = Some data ->
        prop data "type" = Some ty ->
        step (recorders (fun _ => true)) (Chunk (line +:+ String newline EmptyString))
          (opened {| caller := seen; console := errors |}) =
        opened {| caller := seen ++ [(classify ty, data)];
                  console := match classify ty with
                             | ErrorEvent => errors ++ [StreamError]
                             | _ => errors
                             end |}).
Proof.
  intros Hall. split; [apply run_chunks|]. split.
  - rewrite run_chunks, (chunks_at_boundaries _ _ _ Hall). reflexivity.
  - intros line data ty seen errors Hline Hdata Hparse Hty.
    unfold step, opened, react, iteration. simpl.
    rewrite (whole_line_yields_its_envelope _ _ _ _ _ Hline Hdata Hparse Hty). reflexivity.
Qed.

Lemma chunks_are_split_independently_witness :
  let all := recorders (fun _ => true) in
  let start := opened {| caller := []; console := [] |} in
  Forall (fun chunk => ends_with_newline chunk = true)
    [sample_head +:+ sample_tail; sample_head +:+ sample_tail]
  /\ run all [Chunk (sample_head +:+ sample_tail); Chunk (sample_head +:+ sample_tail)] start =
     run all [Chunk ((sample_head +:+ sample_tail) +:+ (sample_head +:+ sample_tail))] start.
Proof.
  split; [repeat constructor|].
  exact (proj1 (proj2 (chunks_are_split_independently (recorders (fun _ => true))
                         [sample_head +:+ sample_tail; sample_head +:+ sample_tail]
                         {| caller := []; console := [] |} ltac:(repeat constructor)))).
Defined.

Lemma stepWithin_not_readable {S : Type} (cleanupCalled : S -> bool)
    (callbacks : Callbacks S) (a : Action) (t : Connection S) :
  stream t <> Readable -> stepWithin cleanupCalled callbacks a t = t.
Proof.
  intros H. unfold stepWithin.
  destruct a, (stream t) eqn:E; try congruence; destruct (reading t);
    apply step_not_readable; congruence.
Qed.

Lemma runWithin_not_readable {S : Type} (cleanupCalled : S -> bool)
    (callbacks : Callbacks S) (actions : list Action) (t : Connection S) :
  stream t <> Readable -> runWithin cleanupCalled callbacks actions t = t.
Proof.
  intros H. induction actions as [|a rest IH]; [reflexivity|].
  cbn [runWithin fold_left]. rewrite stepWithin_not_readable by exact H. exact IH.
Qed.

Lemma never_cancelledDuring {S : Type} (callbacks : Callbacks S) (lines : list string) :
  forall w : World S, cancelledDuring (fun _ => false) callbacks lines w = false.
Proof. induction lines as [|line rest IH]; intros w; [reflexivity | apply IH]. Qed.

(** C8, as stated, fails: the loop over the lines of a chunk does not
    look at the reader.  The caller calls the cleanup function in the
    callback of the first event of a chunk; the stream is closed, and the
    second event line of the chunk still reaches its callback. *)
Lemma cancel_inside_a_callback_is_late :
  let all := recorders (fun _ => true) in
  let start := opened {| caller := []; console := [] |} in
  let chunk := join_lines [routing_line; solution_line "x=3"; EmptyString] in
  let after := runWithin calledOnce all [Chunk chunk] start in
  cancelledDuring calledOnce all [routing_line] (world start) = true
  /\ map fst (caller (processLines all [routing_line] (world start))) = [Routing]
  /\ stream after = Closed
  /\ map fst (caller (world after)) = [Routing; SolutionComplete].
Proof. repeat split; vm_compute; reflexivity. Qed.

(** C8, amended. The cleanup function is idempotent and safe on a stream
    that has ended; called before any event arrives, it leaves the caller
    untouched whatever is delivered afterwards; called between two reads,
    nothing delivered afterwards reaches a callback.  Called from inside
    a callback, it lets the remaining lines of the chunk in progress
    reach their callbacks, and nothing that is delivered after that
    chunk. *)
Theorem cancel_stops_the_transport {S : Type} (callbacks : Callbacks S) :
  (forall t : Connection S,
      step callbacks Cancel (step callbacks Cancel t) = step callbacks Cancel t)
  /\ (forall t : Connection S,
        step callbacks Cancel (step callbacks EndOfStream t) = step callbacks EndOfStream t)
  /\ (forall (w : World S) (later : list Action),
        world (run callbacks (Cancel :: later) (opened w)) = w)
  /\ (forall (earlier later : list Action) (t : Connection S),
        world (run callbacks (earlier ++ Cancel :: later) t) = world (run callbacks earlier t))
  /\ (forall (cleanupCalled : S -> bool) (earlier : list Action) (chunk : string)
             (later : list Action) (t : Connection S),
        let before := runWithin cleanupCalled callbacks earlier t in
        stream before = Readable ->
        reading before = true ->
        cancelledDuring cleanupCalled callbacks (split_lines chunk) (world before) = true ->
        runWithin cleanupCalled callbacks (earlier ++ Chunk chunk :: later) t =
          {| stream := Closed; reading := false;
             world := processChunk callbacks chunk (world before) |})
  /\ (forall (cleanupCalled : S -> bool) (w : World S) (later : list Action),
        world (runWithin cleanupCalled callbacks (Cancel :: later) (opened w)) = w)
  /\ (forall (actions : list Action) (t : Connection S),
        runWithin (fun _ => false) callbacks actions t = run callbacks actions t).
Proof.
  assert (Hend : forall t : Connection S, stream (step callbacks EndOfStream t) <> Readable).
  { intros [st rd w]. unfold step, react. simpl.
    destruct st; simpl; [destruct rd|..]; simpl; discriminate. }
  assert (Hmid : forall (earlier later : list Action) (t : Connection S),
             world (run callbacks (earlier ++ Cancel :: later) t) = world (run callbacks earlier t)).
  { intros earlier later t. rewrite run_app. simpl.
    destruct (step_Cancel callbacks (run callbacks earlier t)) as [Hst Hw].
    rewrite run_not_readable by exact Hst. exact Hw. }
  split; [|split; [|split; [|split; [|split; [|split]]]]].
  - intros t. apply step_not_readable. apply step_Cancel.
  - intros t. apply step_not_readable. apply Hend.
  - intros w later. apply (Hmid [] later (opened w)).
  - exact Hmid.
  - intros cleanupCalled earlier chunk later t before Hst Hrd Hc.
    unfold runWithin. rewrite fold_left_app. fold (runWithin cleanupCalled callbacks earlier t).
    fold before. cbn [fold_left]. unfold stepWithin at 2.
    rewrite Hst, Hrd, Hc. cbn [negb].
    apply (runWithin_not_readable cleanupCalled callbacks later). discriminate.
  - intros cleanupCalled w later.
    change (runWithin cleanupCalled callbacks (Cancel :: later) (opened w))
      with (runWithin cleanupCalled callbacks later (step callbacks Cancel (opened w))).
    destruct (step_Cancel callbacks (opened w)) as [Hst Hw].
    rewrite (runWithin_not_readable cleanupCalled callbacks later _ Hst). exact Hw.
  - intros actions. induction actions as [|a rest IH]; intros t; [reflexivity|].
    change (runWithin (fun _ => false) callbacks (a :: rest) t)
      with (runWithin (fun _ => false) callbacks rest
              (stepWithin (fun _ => false) callbacks a t)).
    change (run callbacks (a :: rest) t) with (run callbacks rest (step callbacks a t)).
    assert (Hs : stepWithin (fun _ => false) callbacks a t = step callbacks a t).
    { unfold stepWithin. destruct a as [chunk| | |]; try reflexivity;
        destruct t as [st rd w]; cbn [stream reading world];
        destruct st; try reflexivity; destruct rd; try reflexivity.
      rewrite never_cancelledDuring. reflexivity. }
    rewrite Hs. apply IH.
Qed.

End Chunks.

Section History.

Lemma hasText_nonblank (msg : Message) : textual msg -> hasText msg = Some (nonblank msg).
Proof.
  unfold textual, hasText, nonblank. destruct (text msg) as [| |b|q|s|l|o| |n|]; try tauto.
  intros _. destruct (String.eqb_spec s EmptyString) as [->|_]; reflexivity.
Qed.

Lemma filterText_filter (messages : list Message) :
  Forall textual messages -> filterText messages = Some (filter (fun m => nonblank m = true) messages).
Proof.
  induction 1 as [|msg rest Hmsg _ IH]; [reflexivity|].
  simpl. rewrite (hasText_nonblank _ Hmsg), IH.
  rewrite filter_cons. destruct (nonblank msg); simpl.
  - destruct (decide (true = true)); [reflexivity | congruence].
  - destruct (decide (false = true)); [congruence | reflexivity].
Qed.

Lemma filter_nonblank_all (messages : list Message) :
  Forall (fun m => nonblank m = true) messages ->
  filter (fun m => nonblank m = true) messages = messages.
Proof.
  induction 1 as [|msg rest Hmsg _ IH]; [reflexivity|].
  rewrite filter_cons, IH. destruct (decide (nonblank msg = true)); [reflexivity | contradiction].
Qed.

(** C7. The history builder drops every message whose text is empty or
    white space only and maps the others, in their order, to an entry
    with the role of the user flag, the text as content and the tag, or
    unknown when there is none, as request type.  The history the tutor's
    [sendMessage] logs, the same map without the filter, is the builder's
    whenever no text is blank. *)
Theorem buildConversationHistory_filters_and_maps (messages : list Message) :
  Forall textual messages ->
  buildConversationHistory messages =
    Some (map toEntry (filter (fun m => nonblank m = true) messages))
  /\ (Forall (fun m => nonblank m = true) messages ->
      buildConversationHistory messages = Some (Tutor.loggedHistory messages))
  /\ (forall msg,
        Entry.role (toEntry msg) = (if isUser msg then "user" else "assistant")
        /\ Entry.content (toEntry msg) = text msg
        /\ Entry.request_type (toEntry msg) =
             match request_type msg with
             | Some tag => if String.eqb tag EmptyString then "unknown" else tag
             | None => "unknown"
             end)
  /\ buildConversationHistory [plain (JStr EmptyString) false; plain (JStr "hi") true] =
       Some [{| Entry.role := "user"; Entry.content := JStr "hi";
                Entry.request_type := "unknown" |}].
Proof.
  intros Hall.
  assert (Hbuild : buildConversationHistory messages =
                   Some (map toEntry (filter (fun m => nonblank m = true) messages))).
  { unfold buildConversationHistory. rewrite (filterText_filter _ Hall). reflexivity. }
  split; [exact Hbuild|]. split; [|split].
  - intros Hfull. rewrite Hbuild, (filter_nonblank_all _ Hfull). reflexivity.
  - intros msg. repeat split.
  - reflexivity.
Qed.

Lemma buildConversationHistory_filters_and_maps_witness :
  Forall textual [plain (JStr "  ") true; plain (JStr "hi") true; plain JUndefined false]
  /\ buildConversationHistory
       [plain (JStr "  ") true; plain (JStr "hi") true; plain JUndefined false] =
     Some [toEntry (plain (JStr "hi") true)].
Proof.
  split; [repeat constructor|].
  exact (proj1 (buildConversationHistory_filters_and_maps
                  [plain (JStr "  ") true; plain (JStr "hi") true; plain JUndefined false]
                  ltac:(repeat constructor))).
Defined.

End History.

Section MessageStore.

Lemma updateById_lookup (target : string) (patch : Message -> Message)
    (prev : list Message) (i : nat) :
  updateById target patch prev !! i =
  (fun msg => if String.eqb (id msg) target then patch msg else msg) <$> prev !! i.
Proof. unfold updateById. apply list_lookup_fmap. Qed.

Lemma updateById_other (target : string) (patch : Message -> Message) (prev : list Message) :
  Forall (fun msg => id msg <> target) prev -> updateById target patch prev = prev.
Proof.
  induction 1 as [|msg rest Hmsg _ IH]; [reflexivity|].
  unfold updateById in *. simpl. rewrite IH.
  destruct (String.eqb_spec (id msg) target); [contradiction | reflexivity].
Qed.

Lemma updateById_insert (target : string) (patch : Message -> Message)
    (prev : list Message) (i : nat) (msg : Message) :
  NoDup (map id prev) ->
  prev !! i = Some msg ->
  id msg = target ->
  updateById target patch prev = <[i := patch msg]> prev.
Proof.
  revert i. induction prev as [|m rest IH]; intros i Hnd Hi Hid; [discriminate|].
  apply NoDup_cons in Hnd as [Hm Hrest].
  destruct i as [|i]; simpl in Hi.
  - injection Hi as ->. unfold updateById. simpl.
    rewrite Hid, String.eqb_refl. f_equal.
    apply updateById_other. apply Forall_forall. intros m' Hm' Heq.
    apply Hm. rewrite Hid, <- Heq. apply list_elem_of_fmap. exists m'. split; [reflexivity|].
    exact Hm'.
  - unfold updateById in *. simpl.
    destruct (String.eqb_spec (id m) target) as [Heq|_].
    + exfalso. apply Hm. rewrite Heq, <- Hid.
      apply list_elem_of_fmap. exists msg. split; [reflexivity|].
      eapply list_elem_of_lookup_2. exact Hi.
    + f_equal. apply IH; assumption.
Qed.

(** C9. An update by id patches exactly the one entry whose id matches:
    the list keeps its length and order, every other entry is the entry
    it was, the matching entry is the patched one as a whole, and the
    patches of the store leave the properties they do not name as they
    were. *)
Theorem updateById_patches_one_entry (target : string) (patch : Message -> Message)
    (prev : list Message) (i : nat) (msg : Message) :
  NoDup (map id prev) ->
  prev !! i = Some msg ->
  id msg = target ->
  updateById target patch prev = <[i := patch msg]> prev
  /\ length (updateById target patch prev) = length prev
  /\ updateById target patch prev !! i = Some (patch msg)
  /\ (forall j, j <> i -> updateById target patch prev !! j = prev !! j)
  /\ (forall j old, prev !! j = Some old ->
        updateById target patch prev !! j = Some old
        \/ updateById target patch prev !! j = Some (patch old))
  /\ (forall completedSolution newText f,
        f <> F_solution -> f <> F_text -> f <> F_streaming_session_id ->
        same f (solutionPatch completedSolution newText msg) msg)
  /\ (forall f, f <> F_feedbackSubmitted -> same f (feedbackPatch msg) msg)
  /\ (forall details f,
        f <> F_feedbackSubmitted -> f <> F_feedbackDetails ->
        same f (feedbackDetailsPatch details msg) msg).
Proof.
  intros Hnd Hi Hid.
  assert (Hold : forall j old, prev !! j = Some old ->
            updateById target patch prev !! j = Some old
            \/ updateById target patch prev !! j = Some (patch old)).
  { intros j old Hj. rewrite updateById_lookup, Hj. simpl.
    destruct (String.eqb (id old) target); [right | left]; reflexivity. }
  rewrite (updateById_insert _ patch _ _ _ Hnd Hi Hid) in *.
  assert (Hlt : i < length prev) by (eapply lookup_lt_Some; exact Hi).
  repeat split.
  - apply length_insert.
  - apply list_lookup_insert_eq. exact Hlt.
  - intros j Hj. apply list_lookup_insert_ne. congruence.
  - exact Hold.
  - intros completedSolution newText f H1 H2 H3. destruct f; simpl; congruence.
  - intros f H1. destruct f; simpl; congruence.
  - intros details f H1 H2. destruct f; simpl; congruence.
Qed.

Lemma updateById_patches_one_entry_witness :
  let prev := [userMessage "q" 1; aiMessage "q" "s" 2 None] in
  NoDup (map id prev)
  /\ prev !! 1%nat = Some (aiMessage "q" "s" 2 None)
  /\ updateById "ai_2" feedbackPatch prev =
     [userMessage "q" 1; feedbackPatch (aiMessage "q" "s" 2 None)].
Proof.
  assert (Hnd : NoDup (map id [userMessage "q" 1; aiMessage "q" "s" 2 None])).
  { apply (bool_decide_unpack _). vm_compute. reflexivity. }
  split; [exact Hnd|]. split; [reflexivity|].
  exact (proj1 (updateById_patches_one_entry "ai_2" feedbackPatch
                  [userMessage "q" 1; aiMessage "q" "s" 2 None] 1
                  (aiMessage "q" "s" 2 None) Hnd eq_refl eq_refl)).
Defined.

End MessageStore.

Section Feedback.

Lemma find_present {A : Type} (f : A -> bool) (l : list A) (x : A) :
  In x l -> f x = true -> exists y, find f l = Some y.
Proof.
  intros Hin Hf. destruct (find f l) as [y|] eqn:E; [exists y; reflexivity|].
  rewrite (find_none f l E x Hin) in Hf. discriminate.
Qed.

(** C10. After a successful submission through the internal feedback
    handler, the message is marked as submitted and its feedback details
    hold the rating and an improvement flag that is set exactly when the
    rating is at most 2; its other properties are as before, and the
    response of the server plays no part in the result. *)
Theorem improvement_triggered_from_rating (st : Chat.State) (messageId : string)
    (feedbackData : FeedbackData) (response : JSValue) (displayed msg : Message) (i : nat) :
  In displayed (Chat.messages st) ->
  id displayed = messageId ->
  Chat.internalMessages st !! i = Some msg ->
  id msg = messageId ->
  let st' := Chat.handleInternalFeedback messageId feedbackData (Submitted response) st in
  (exists flag,
      Chat.internalMessages st' !! i =
        Some (feedbackDetailsPatch
                {| rating := user_rating feedbackData; improvement_triggered := flag |} msg)
      /\ (flag = true <-> (user_rating feedbackData <= 2)%Q))
  /\ (forall other : JSValue,
        Chat.handleInternalFeedback messageId feedbackData (Submitted other) st = st')
  /\ (exists updated details,
        Chat.internalMessages st' !! i = Some updated
        /\ feedbackSubmitted updated = true
        /\ feedbackDetails updated = Some details
        /\ rating details = user_rating feedbackData
        /\ (improvement_triggered details = true <-> (user_rating feedbackData <= 2)%Q)
        /\ (improvement_triggered details = false <-> (2 < user_rating feedbackData)%Q)
        /\ (forall f, f <> F_feedbackSubmitted -> f <> F_feedbackDetails -> same f updated msg)).
Proof.
  intros Hdisplayed Hid Hi Hmsg st'.
  destruct (find_present (fun m => String.eqb (id m) messageId) _ displayed Hdisplayed) as [found Hfound].
  { rewrite Hid. apply String.eqb_refl. }
  assert (Hat : Chat.internalMessages st' !! i =
                Some (feedbackDetailsPatch
                        {| rating := user_rating feedbackData;
                           improvement_triggered := Qle_bool (user_rating feedbackData) 2 |}
                        msg)).
  { unfold st', Chat.handleInternalFeedback. rewrite Hfound.
    simpl. rewrite updateById_lookup, Hi. simpl.
    rewrite Hmsg, String.eqb_refl. reflexivity. }
  split; [|split].
  - exists (Qle_bool (user_rating feedbackData) 2). split; [exact Hat | apply Qle_bool_iff].
  - intros other. unfold st', Chat.handleInternalFeedback. rewrite Hfound. reflexivity.
  - exists (feedbackDetailsPatch
              {| rating := user_rating feedbackData;
                 improvement_triggered := Qle_bool (user_rating feedbackData) 2 |} msg),
           {| rating := user_rating feedbackData;
              improvement_triggered := Qle_bool (user_rating feedbackData) 2 |}.
    split; [exact Hat|].
    cbn [feedbackSubmitted feedbackDetails feedbackDetailsPatch rating improvement_triggered].
    split; [reflexivity|]. split; [reflexivity|]. split; [reflexivity|].
    split; [apply Qle_bool_iff|]. split.
    + split.
      * intros Hf. apply Qnot_le_lt. intros Hle. apply Qle_bool_iff in Hle.
        rewrite Hle in Hf. discriminate Hf.
      * intros Hlt. destruct (Qle_bool (user_rating feedbackData) 2) eqn:E; [|reflexivity].
        apply Qle_bool_iff in E. destruct (Qlt_not_le _ _ Hlt E).
    + intros f H1 H2. destruct f; try reflexivity; congruence.
Qed.

Lemma improvement_triggered_from_rating_witness :
  In (aiMessage "q" "s" 2 None) (Chat.messages chatting)
  /\ Chat.internalMessages chatting !! 1%nat = Some (aiMessage "q" "s" 2 None)
  /\ (forall other : JSValue,
        Chat.handleInternalFeedback "ai_2" (rated 2) (Submitted other) chatting =
        Chat.handleInternalFeedback "ai_2" (rated 2)
          (Submitted (JObj {["improvement_triggered" := JBool false]})) chatting)
  /\ map feedbackDetails
       (Chat.internalMessages
          (Chat.handleInternalFeedback "ai_2" (rated 2)
             (Submitted (JObj {["improvement_triggered" := JBool false]})) chatting)) =
     [None; Some {| rating := 2; improvement_triggered := true |}]
  /\ map feedbackDetails
       (Chat.internalMessages
          (Chat.handleInternalFeedback "ai_2" (rated 3)
             (Submitted (JObj {["improvement_triggered" := JBool true]})) chatting)) =
     [None; Some {| rating := 3; improvement_triggered := false |}].
Proof.
  assert (Hin : In (aiMessage "q" "s" 2 None) (Chat.messages chatting))
    by (right; left; reflexivity).
  split; [exact Hin|]. split; [reflexivity|].
  split; [|split; reflexivity].
  exact (proj1 (proj2 (improvement_triggered_from_rating chatting "ai_2" (rated 2)
                         (JObj {["improvement_triggered" := JBool false]})
                         (aiMessage "q" "s" 2 None) (aiMessage "q" "s" 2 None) 1
                         Hin eq_refl eq_refl eq_refl))).
Defined.

End Feedback.

Section ProgressFacts.

Import Protocol Progress.

Lemma js_or_shown (fallback : Z) (p : Z) :
  js_or (JNum (inject_Z p)) (JNum (inject_Z fallback)) = JNum (inject_Z (shown fallback (Some p))).
Proof.
  unfold js_or, truthy, shown, Qeq_bool. simpl.
  rewrite Z.mul_1_r. change (0 * 1)%Z with 0%Z. destruct (p =? 0)%Z; reflexivity.
Qed.

Lemma deliver_progress (message : Message) (e : Event) (s : Display.Session) :
  sets_progress e ->
  Display.progress (Display.display (deliver message e s)) = target e.
Proof.
  destruct e as [|m|m|r c m|m [p|]|k n d|d|m [p|]|m]; simpl; intros H;
    try contradiction; try reflexivity.
  - exact (js_or_shown 50 p).
  - exact (js_or_shown 95 p).
Qed.

Lemma progress_after_target (message : Message) (events : list Event) (s : Display.Session) :
  Forall sets_progress events ->
  progress_after message events s = map target events.
Proof.
  intros H. revert s. induction H as [|e rest He _ IH]; intros s; [reflexivity|].
  simpl. rewrite (deliver_progress _ _ _ He), IH. reflexivity.
Qed.

(** The value of [50 + (k / n) * 30] for a step within its total. *)
Lemma target_step (k n : Z) (d : JSValue) :
  (1 <= k <= n)%Z ->
  exists q, target (step_generated k n d) = JNum q
            /\ (q == 50 + inject_Z k / inject_Z n * 30)%Q.
Proof.
  intros Hk. unfold target, js_div.
  assert (Hn : Qeq_bool (inject_Z n) 0 = false).
  { unfold Qeq_bool. simpl. rewrite Z.mul_1_r. apply Z.eqb_neq. lia. }
  assert (Hk0 : Qeq_bool (inject_Z k) 0 = false).
  { unfold Qeq_bool. simpl. rewrite Z.mul_1_r. apply Z.eqb_neq. lia. }
  assert (Hpos : (0 < inject_Z k / inject_Z n)%Q).
  { apply Qlt_shift_div_l; [unfold Qlt; simpl; lia|].
    rewrite Qmult_0_l. unfold Qlt; simpl; lia. }
  assert (Hm : Qeq_bool (Qred (inject_Z k / inject_Z n) * 30) 0 = false).
  { destruct (Qeq_bool (Qred (inject_Z k / inject_Z n) * 30) 0) eqn:E; [|reflexivity].
    apply Qeq_bool_eq in E. rewrite Qred_correct in E.
    assert (H30 : (0 < inject_Z k / inject_Z n * 30)%Q)
      by (apply Qmult_lt_0_compat; [exact Hpos | reflexivity]).
    rewrite E in H30. destruct (Qlt_irrefl _ H30). }
  rewrite Hn, Hk0. unfold js_mul. rewrite Hm. unfold js_add.
  eexists. split; [reflexivity|].
  rewrite !Qred_correct. reflexivity.
Qed.

Lemma ratio_bounds (k n : Z) :
  (1 <= k <= n)%Z -> (0 <= inject_Z k / inject_Z n /\ inject_Z k / inject_Z n <= 1)%Q.
Proof.
  intros Hk.
  assert (Hn : (0 < inject_Z n)%Q) by (unfold Qlt; simpl; lia).
  split.
  - apply Qle_shift_div_l; [exact Hn|]. rewrite Qmult_0_l. unfold Qle; simpl; lia.
  - apply Qle_shift_div_r; [exact Hn|]. rewrite Qmult_1_l. rewrite <- Zle_Qle. lia.
Qed.

Lemma ratio_monotone (k k' n : Z) :
  (0 < n)%Z -> (k <= k')%Z -> (inject_Z k / inject_Z n <= inject_Z k' / inject_Z n)%Q.
Proof.
  intros Hn Hk. unfold Qdiv. apply Qmult_le_compat_r.
  - rewrite <- Zle_Qle. exact Hk.
  - apply Qinv_le_0_compat. unfold Qle; simpl; lia.
Qed.

End ProgressFacts.

Section ProgressOrder.

Import Protocol Progress.

Lemma num_le_trans (a c : JSValue) (b : Q) :
  num_le a (JNum b) -> num_le (JNum b) c -> num_le a c.
Proof.
  destruct a, c; simpl; try tauto. apply Qle_trans.
Qed.

Lemma nondecreasing_app (l1 l2 : list JSValue) (b : Q) :
  nondecreasing l1 -> nondecreasing l2 ->
  Forall (fun v => num_le v (JNum b)) l1 ->
  Forall (fun v => num_le (JNum b) v) l2 ->
  nondecreasing (l1 ++ l2).
Proof.
  intros H1 H2 Hb1 Hb2. induction l1 as [|a l1 IH]; [exact H2|].
  inversion Hb1 as [|? ? Ha Hrest]; subst.
  destruct l1 as [|a' l1'].
  - simpl. destruct l2 as [|c l2']; [exact I|].
    inversion Hb2; subst. split; [eapply num_le_trans; eassumption | exact H2].
  - destruct H1 as [Haa Hnd]. split; [exact Haa|]. apply IH; assumption.
Qed.

Lemma between_weaken (lo hi lo' hi' : Q) (l : list JSValue) :
  (lo' <= lo)%Q -> (hi <= hi')%Q ->
  Forall (between lo hi) l -> Forall (between lo' hi') l.
Proof.
  intros Hlo Hhi Hall. eapply Forall_impl; [exact Hall|].
  intros v [H1 H2]. unfold between, num_le in *.
  destruct v; try tauto. split; eapply Qle_trans; eassumption.
Qed.

(** The step updates: their values follow their order and lie within 40
    and 50. *)
Lemma updates_in_order (updates : list (string * option Z)) :
  Forall (fun u => (40 <= shown 50 (snd u) <= 50)%Z) updates ->
  ascending (map (fun u => shown 50 (snd u)) updates) ->
  let values := map target (map (fun u => step_update (fst u) (snd u)) updates) in
  nondecreasing values /\ Forall (between 40 50) values.
Proof.
  intros Hall. induction Hall as [|u rest Hu Hrest IH]; intros Hasc; [split; constructor|].
  assert (Hb : between 40 50 (target (step_update (fst u) (snd u)))).
  { unfold between, target, num_le, Qle. simpl. lia. }
  destruct rest as [|u' rest'].
  - split; [exact I | constructor; [exact Hb | constructor]].
  - destruct Hasc as [Hle Hasc]. destruct (IH Hasc) as [Hnd Hbs].
    split; [split; [|exact Hnd] | constructor; assumption].
    simpl. unfold Qle. simpl. simpl in Hle. lia.
Qed.

(** The generated steps: their values follow their numbers and lie
    within 50 and 80. *)
Lemma generated_in_order (n : Z) (generated : list (Z * JSValue)) :
  Forall (fun g => (1 <= fst g <= n)%Z) generated ->
  ascending (map fst generated) ->
  let values := map target (map (fun g => step_generated (fst g) n (snd g)) generated) in
  nondecreasing values /\ Forall (between 50 80) values.
Proof.
  intros Hall. induction Hall as [|g rest Hg Hrest IH]; intros Hasc; [split; constructor|].
  destruct (target_step _ _ (snd g) Hg) as [q [Hq Heq]].
  destruct (ratio_bounds _ _ Hg) as [H0 H1].
  assert (Hb : between 50 80 (target (step_generated (fst g) n (snd g)))).
  { rewrite Hq. unfold between, num_le. rewrite Heq. split.
    - rewrite <- (Qplus_0_r 50) at 1. apply Qplus_le_r.
      apply Qmult_le_0_compat; [exact H0 | discriminate].
    - apply Qle_trans with (50 + 1 * 30)%Q; [|unfold Qle; simpl; lia].
      apply Qplus_le_r. apply Qmult_le_compat_r; [exact H1 | discriminate]. }
  destruct rest as [|g' rest'].
  - split; [exact I | constructor; [exact Hb | constructor]].
  - destruct Hasc as [Hle Hasc]. destruct (IH Hasc) as [Hnd Hbs].
    split; [split; [|exact Hnd] | constructor; assumption].
    inversion Hrest as [|? ? Hg' _]; subst.
    destruct (target_step _ _ (snd g') Hg') as [q' [Hq' Heq']].
    change (num_le (target (step_generated (fst g) n (snd g)))
              (target (step_generated (fst g') n (snd g')))).
    rewrite Hq, Hq'. unfold num_le. rewrite Heq, Heq'.
    apply Qplus_le_r. apply Qmult_le_compat_r; [|discriminate].
    apply ratio_monotone; lia.
Qed.

(** C2, as stated, fails: a step update sets the progress it carries, and
    a well-formed sequence may carry less than the display shows. *)
Lemma progress_can_decrease :
  let message := aiMessage "q" "s1" 2 None in
  let s := started (Tutor.sendMessage "q" 1 2 (Tutor.initial "s1")) in
  let events :=
    [processing_started "Starting"; routing "Routing";
     routing_result "knowledge_base" (92 # 100) "Found";
     step_update "Working" (Some 20%Z);
     completion "Finalizing" (Some 95%Z); solution_complete (JObj ∅)] in
  well_formed events
  /\ progress_after message events s =
       [JNum 10; JNum 25; JNum 40; JNum 20; JNum 95; JNum 100]
  /\ ~ nondecreasing (Display.progress (Display.display s) :: progress_after message events s).
Proof.
  split; [|split].
  - exists "Starting", "Routing", "knowledge_base", (92 # 100)%Q, "Found",
      [step_update "Working" (Some 20%Z)], "Finalizing", (Some 95%Z), (JObj ∅).
    split; [reflexivity|]. split; [|lia]. repeat constructor; lia.
  - vm_compute. reflexivity.
  - vm_compute. intros (_ & _ & _ & H & _). apply H. reflexivity.
Qed.

End ProgressOrder.

Section ProgressTheorem.

Import Protocol Progress.

Lemma shown_in_range (fallback : Z) (p : option Z) (lo hi : Z) :
  (0 <= lo)%Z -> (hi <= 100)%Z -> (lo <= shown fallback p <= hi)%Z ->
  match p with Some n => (0 <= n <= 100)%Z | None => True end.
Proof.
  destruct p as [n|]; [|tauto]. unfold shown. destruct (Z.eqb_spec n 0); lia.
Qed.

(** C2, amended. In a well-formed sequence whose step updates come before
    the generated steps and carry a progress within 40 and 50 (50 when
    none), in their order, whose steps are numbered in order within their
    total, and whose completion carries a progress within 80 and 100 (95
    when none), the progress never decreases from the start: it is 10,
    25, 40, values within 40 and 80 during the steps, the progress of the
    completion and finally 100. *)
Theorem progress_is_nondecreasing (message : Message) (s : Display.Session)
    (m1 m2 route : string) (confidence : Q) (m3 : string)
    (updates : list (string * option Z)) (n : Z) (generated : list (Z * JSValue))
    (m4 : string) (p : option Z) (data : JSValue) :
  Display.progress (Display.display s) = JNum 0 ->
  Forall (fun u => (40 <= shown 50 (snd u) <= 50)%Z) updates ->
  ascending (map (fun u => shown 50 (snd u)) updates) ->
  Forall (fun g => (1 <= fst g <= n)%Z) generated ->
  ascending (map fst generated) ->
  (80 <= shown 95 p <= 100)%Z ->
  let steps :=
    map (fun u => step_update (fst u) (snd u)) updates
      ++ map (fun g => step_generated (fst g) n (snd g)) generated in
  let events :=
    [processing_started m1; routing m2; routing_result route confidence m3]
      ++ steps ++ [completion m4 p; solution_complete data] in
  well_formed events
  /\ nondecreasing (Display.progress (Display.display s) :: progress_after message events s)
  /\ exists during,
       progress_after message events s =
         [JNum 10; JNum 25; JNum 40] ++ during ++ [JNum (inject_Z (shown 95 p)); JNum 100]
       /\ length during = length steps
       /\ Forall (between 40 80) during.
Proof.
  intros Hstart Hups Hupasc Hgen Hgenasc Hp steps events.
  destruct (updates_in_order _ Hups Hupasc) as [Hnd1 Hb1].
  destruct (generated_in_order _ _ Hgen Hgenasc) as [Hnd2 Hb2].
  assert (Hsets : Forall sets_progress events).
  { unfold events, steps. repeat (apply Forall_app; split); repeat constructor.
    - apply Forall_forall. intros e He. apply list_elem_of_fmap in He as [u [-> _]]. exact I.
    - apply Forall_forall. intros e He. apply list_elem_of_fmap in He as [g [-> _]]. exact I. }
  rewrite (progress_after_target _ _ _ Hsets), Hstart.
  unfold events, steps. rewrite !map_app. simpl map at 1.
  set (v1 := map target (map (fun u => step_update (fst u) (snd u)) updates)) in *.
  set (v2 := map target (map (fun g => step_generated (fst g) n (snd g)) generated)) in *.
  assert (Hend : between 80 100 (JNum (inject_Z (shown 95 p)))).
  { unfold between, num_le, Qle. simpl. lia. }
  split; [|split].
  - exists m1, m2, route, confidence, m3, steps, m4, p, data.
    split; [reflexivity|]. split; [|eapply shown_in_range; [| |exact Hp]; lia].
    unfold steps. apply Forall_app. split.
    + apply Forall_forall. intros e He. apply list_elem_of_fmap in He as [u [-> Hu]].
      rewrite Forall_forall in Hups. specialize (Hups u Hu).
      simpl. destruct (snd u) as [x|] eqn:E; [|exact I].
      apply (shown_in_range 50 (Some x) 40 50); lia.
    + apply Forall_forall. intros e He. apply list_elem_of_fmap in He as [g [-> Hg]].
      rewrite Forall_forall in Hgen. exact (Hgen g Hg).
  - rewrite <- (app_assoc v1 v2).
    change (nondecreasing ([JNum 0; JNum 10; JNum 25; JNum 40]
                             ++ (v1 ++ v2 ++ [JNum (inject_Z (shown 95 p)); JNum 100]))).
    apply nondecreasing_app with (b := 40%Q).
    + simpl. unfold Qle. simpl. lia.
    + apply nondecreasing_app with (b := 50%Q); [exact Hnd1 | | |].
      * apply nondecreasing_app with (b := 80%Q); [exact Hnd2 | | |].
        -- simpl. split; [apply Hend | exact I].
        -- eapply Forall_impl; [exact Hb2|]. intros v Hv. apply Hv.
        -- constructor; [apply Hend|]. constructor; [|constructor].
           simpl. unfold Qle. simpl. lia.
      * eapply Forall_impl; [exact Hb1|]. intros v Hv. apply Hv.
      * apply Forall_app. split.
        -- eapply Forall_impl; [exact Hb2|]. intros v Hv. apply Hv.
        -- constructor; [|constructor; [|constructor]].
           ++ eapply num_le_trans; [|apply Hend]. simpl. unfold Qle. simpl. lia.
           ++ simpl. unfold Qle. simpl. lia.
    + repeat constructor; simpl; unfold Qle; simpl; lia.
    + apply Forall_app. split.
      * eapply Forall_impl; [exact Hb1|]. intros v Hv. apply Hv.
      * apply Forall_app. split.
        -- eapply Forall_impl; [exact Hb2|]. intros v [Hv _].
           eapply num_le_trans; [|exact Hv]. simpl. unfold Qle. simpl. lia.
        -- constructor; [|constructor; [|constructor]].
           ++ eapply num_le_trans; [|apply Hend]. simpl. unfold Qle. simpl. lia.
           ++ simpl. unfold Qle. simpl. lia.
  - exists (v1 ++ v2). split; [|split].
    + reflexivity.
    + unfold v1, v2. rewrite !length_app, !length_map. reflexivity.
    + apply Forall_app. split.
      * eapply between_weaken; [| |exact Hb1]; unfold Qle; simpl; lia.
      * eapply between_weaken; [| |exact Hb2]; unfold Qle; simpl; lia.
Qed.

Lemma progress_is_nondecreasing_witness :
  let message := aiMessage "q" "s1" 2 None in
  let s := started (Tutor.sendMessage "q" 1 2 (Tutor.initial "s1")) in
  Display.progress (Display.display s) = JNum 0
  /\ nondecreasing
       (Display.progress (Display.display s)
        :: progress_after message
             ([processing_started "Starting"; routing "Routing";
               routing_result "knowledge_base" (92 # 100) "Found"]
                ++ (map (fun u => step_update (fst u) (snd u))
                      [("Thinking", Some 45%Z); ("Working", None)]
                    ++ map (fun g => step_generated (fst g) 2 (snd g))
                         [(1%Z, JNull); (2%Z, JNull)])
                ++ [completion "Finalizing" None; solution_complete (JObj ∅)]) s).
Proof.
  split; [reflexivity|].
  exact (proj1 (proj2 (progress_is_nondecreasing
                         (aiMessage "q" "s1" 2 None)
                         (started (Tutor.sendMessage "q" 1 2 (Tutor.initial "s1")))
                         "Starting" "Routing" "knowledge_base" (92 # 100) "Found"
                         [("Thinking", Some 45%Z); ("Working", None)] 2
                         [(1%Z, JNull); (2%Z, JNull)] "Finalizing" None (JObj ∅)
                         eq_refl
                         ltac:(repeat constructor; simpl; lia)
                         ltac:(simpl; lia)
                         ltac:(repeat constructor; simpl; lia)
                         ltac:(simpl; lia)
                         ltac:(simpl; lia)))).
Defined.

End ProgressTheorem.

Section Terminal.

Import Transport Protocol Progress.

(** C4, as stated, fails: no callback looks at the phase.  A session that
    has completed still takes a second completion: it overwrites the
    solution of the owning message.  Both lines come in one chunk, so no
    cleanup can run between them. *)
Lemma completed_message_is_overwritten :
  let message := aiMessage "q" "s1" 2 None in
  let s0 := started (Tutor.sendMessage "q" 1 2 (Tutor.initial "s1")) in
  let s1 := deliver message (solution_complete (answer "x=3")) s0 in
  let s2 := deliver message (solution_complete (answer "x=4")) s1 in
  (Display.isStreaming (Display.display s1) = false
   /\ Display.progress (Display.display s1) = JNum 100
   /\ owned message s1 = [(JStr "x=3", None)])
  /\ owned message s2 = [(JStr "x=4", None)]
  /\ Tutor.messages (Display.tutor s2) <> Tutor.messages (Display.tutor s1)
  /\ caller (world (run (Display.callbacks message)
                      [Chunk (join_lines [solution_line "x=3"; solution_line "x=4"; EmptyString])]
                      (opened {| caller := s0; console := [] |}))) = s2.
Proof.
  repeat split; try (vm_compute; reflexivity).
  intros H.
  apply (f_equal (map (fun m => get (solution m) "final_answer"))) in H.
  vm_compute in H. discriminate H.
Qed.

(** C4, amended. In the default flow the only event that mutates the
    message list is [solution_complete]: every other envelope, before or
    after the session has ended, leaves the tutor's state and the bubble
    as they are.  A completion stores the solution in the owning message,
    clears its stream id and closes the bubble, which unmounts the
    display; the cleanup of the display then calls the cleanup function
    of its connection, if it has been stored.  An error event closes
    nothing. *)
Theorem only_completion_mutates_the_message (message : Message) (data ty : JSValue)
    (s : Display.Session) (errors : list ConsoleError) :
  prop data "type" = Some ty ->
  Store.onSolutionComplete message = Some (id message) ->
  let after :=
    caller (state_of (handleStreamEvent data (Display.callbacks message)
                        {| caller := s; console := errors |})) in
  (classify ty <> SolutionComplete ->
     Display.tutor after = Display.tutor s /\ Display.bubble after = Display.bubble s)
  /\ (classify ty = SolutionComplete ->
      Display.bubble after =
        {| Display.streamingSessionId := None; Display.showStreamingSolution := false |}
      /\ (forall solved,
            prop (get data "data") "conversational_response" = Some solved ->
            Tutor.messages (Display.tutor after) =
              updateById (id message)
                (solutionPatch (get data "data")
                   (js_or solved (JStr "I've solved your math problem! Here's the solution:")))
                (Tutor.messages (Display.tutor s))
            /\ Forall (fun m => id m = id message ->
                               streaming_session_id m = None /\ solution m = get data "data")
                 (Tutor.messages (Display.tutor after))))
  /\ (forall d connection,
        Display.streamCleanupRef d = Some connection ->
        Display.cleanup d = [CallCleanup connection])
  /\ (forall d, Display.streamCleanupRef d = None -> Display.cleanup d = []).
Proof.
  intros Hty Hclosure after.
  assert (Hafter : after =
            caller (state_of
              (call (callback_of (classify ty) (Display.callbacks message)) data
                 (match classify ty with
                  | ErrorEvent => console_error StreamError {| caller := s; console := errors |}
                  | _ => {| caller := s; console := errors |}
                  end)))).
  { unfold after. rewrite (handleStreamEvent_table _ _ _ _ Hty). reflexivity. }
  split; [|split; [|split]].
  - intros Hkind. rewrite Hafter.
    destruct (classify ty); try congruence; simpl; split; reflexivity.
  - intros Hkind. rewrite Hafter, Hkind. simpl. split; [reflexivity|].
    intros solved Hsolved.
    match goal with |- ?lhs = ?rhs /\ _ => assert (Hmsgs : lhs = rhs) end.
    { unfold Display.handleStreamingComplete, Display.tutor at 1.
      rewrite Hclosure. unfold Tutor.onSolutionComplete. rewrite Hsolved. reflexivity. }
    split; [exact Hmsgs|]. rewrite Hmsgs.
    apply Forall_forall. intros m Hm Hid.
    unfold updateById in Hm. apply list_elem_of_fmap in Hm as [m0 [-> Hm0]].
    destruct (String.eqb_spec (id m0) (id message)) as [_|Hne]; [split; reflexivity|].
    contradiction.
  - intros d connection H. unfold Display.cleanup. rewrite H. reflexivity.
  - intros d H. unfold Display.cleanup. rewrite H. reflexivity.
Qed.

Lemma only_completion_mutates_the_message_witness :
  let message := aiMessage "q" "s1" 2 None in
  let s := started (Tutor.sendMessage "q" 1 2 (Tutor.initial "s1")) in
  let data := envelope (error "failed") in
  prop data "type" = Some (JStr "error")
  /\ Store.onSolutionComplete message = Some (id message)
  /\ (classify (JStr "error") <> SolutionComplete ->
      Display.tutor (deliver message (error "failed") s) = Display.tutor s
      /\ Display.bubble (deliver message (error "failed") s) = Display.bubble s).
Proof.
  split; [reflexivity|]. split; [reflexivity|].
  exact (proj1 (only_completion_mutates_the_message
                  (aiMessage "q" "s1" 2 None) (envelope (error "failed")) (JStr "error")
                  (started (Tutor.sendMessage "q" 1 2 (Tutor.initial "s1"))) []
                  eq_refl eq_refl)).
Defined.

End Terminal.

Section OneSession.

Lemma none_then_submitted (messages : list Message) (a b : Message) :
  none_awaits messages -> awaitsStream a = false ->
  at_most_one_awaits ((messages ++ [a]) ++ [b]).
Proof.
  intros Hnone Ha i j m m' Hi Hj Hm Hm'.
  assert (Hlast : forall k x, ((messages ++ [a]) ++ [b]) !! k = Some x ->
                              awaitsStream x = true -> k = S (length messages)).
  { intros k x Hk Hx. rewrite <- app_assoc in Hk.
    apply lookup_app_Some in Hk as [Hk|[Hge Hk]].
    - unfold none_awaits in Hnone. rewrite Forall_forall in Hnone.
      rewrite (Hnone x) in Hx; [discriminate|]. eapply list_elem_of_lookup_2. exact Hk.
    - destruct (k - length messages) as [|[|n]] eqn:E; simpl in Hk.
      + injection Hk as <-. congruence.
      + lia.
      + discriminate. }
  rewrite (Hlast i m Hi Hm), (Hlast j m' Hj Hm'). reflexivity.
Qed.

Lemma completion_settles (messages : list Message) (msg : Message)
    (completedSolution newText : JSValue) :
  at_most_one_awaits messages -> In msg messages -> awaitsStream msg = true ->
  none_awaits (updateById (id msg) (solutionPatch completedSolution newText) messages).
Proof.
  intros Hone Hin Hmsg. unfold none_awaits. apply Forall_forall. intros m Hm.
  unfold updateById in Hm. apply list_elem_of_fmap in Hm as [m0 [-> Hm0]].
  destruct (String.eqb_spec (id m0) (id msg)) as [_|Hne]; [reflexivity|].
  destruct (awaitsStream m0) eqn:E; [|reflexivity].
  exfalso. apply Hne.
  apply list_elem_of_In, list_elem_of_lookup in Hin as [i Hi].
  apply list_elem_of_lookup in Hm0 as [j Hj].
  assert (i = j) by (eapply Hone; eassumption). subst j.
  congruence.
Qed.

Lemma patch_keeps_waiting (target : string) (patch : Message -> Message)
    (messages : list Message) :
  (forall m, awaitsStream (patch m) = awaitsStream m) ->
  (at_most_one_awaits messages -> at_most_one_awaits (updateById target patch messages))
  /\ (none_awaits messages -> none_awaits (updateById target patch messages)).
Proof.
  intros Hp.
  assert (Hsame : forall i m', updateById target patch messages !! i = Some m' ->
                    exists m, messages !! i = Some m /\ awaitsStream m' = awaitsStream m).
  { intros i m' H. rewrite updateById_lookup in H.
    destruct (messages !! i) as [m|]; [|discriminate H].
    exists m. split; [reflexivity|]. cbn in H. injection H as <-.
    destruct (String.eqb (id m) target); [apply Hp | reflexivity]. }
  split.
  - intros Hone i j a b Hi Hj Ha Hb.
    destruct (Hsame i a Hi) as [a0 [Hi0 Ea]]. destruct (Hsame j b Hj) as [b0 [Hj0 Eb]].
    apply (Hone i j a0 b0 Hi0 Hj0); congruence.
  - unfold none_awaits. rewrite !Forall_forall. intros Hnone m' Hm'.
    apply list_elem_of_lookup in Hm' as [i Hi].
    destruct (Hsame i m' Hi) as [m [Hm E]]. rewrite E. apply Hnone.
    eapply list_elem_of_lookup_2. exact Hm.
Qed.

Lemma timely_reachable (sessionId : string) (st : Tutor.State) :
  Tutor.Timely sessionId st -> Tutor.Reachable sessionId st.
Proof.
  induction 1 as [|st st' _ IH Hstep]; [constructor|].
  eapply Tutor.ReachStep; [exact IH|].
  destruct Hstep; constructor.
Qed.

(** In the default flow, as long as every solution comes in time, a state
    without a failed render has at most one message that awaits a stream,
    and none when no question is being processed. *)
Lemma default_flow_invariant (sessionId : string) (st : Tutor.State) :
  Tutor.Timely sessionId st ->
  Tutor.renderError st = false ->
  at_most_one_awaits (Tutor.messages st)
  /\ (Tutor.isProcessing st = false -> none_awaits (Tutor.messages st)).
Proof.
  induction 1 as [|st st' Hreach IH Hstep]; intros Hok.
  - split; [intros i j m m' Hi; discriminate Hi | intros _; constructor].
  - destruct Hstep as [question now later st | msg completedSolution st Hin Hmsg
                      | messageId feedbackData outcome st].
    + unfold Tutor.sendMessage in *.
      destruct (String.eqb (trim question) EmptyString || Tutor.isProcessing st) eqn:Hguard.
      * apply IH. exact Hok.
      * apply orb_false_iff in Hguard as [_ Hidle]. simpl in *.
        destruct (IH Hok) as [_ Hnone].
        split; [|discriminate].
        apply none_then_submitted; [apply Hnone; exact Hidle | reflexivity].
    + unfold Tutor.onSolutionComplete in *.
      destruct (prop completedSolution "conversational_response") as [response|] eqn:Hprop;
        simpl in *.
      * rewrite orb_false_r in Hok. destruct (IH Hok) as [Hone _].
        assert (Hnone := completion_settles _ _ completedSolution
                           (js_or response
                              (JStr "I've solved your math problem! Here's the solution:"))
                           Hone Hin Hmsg).
        split; [|intros _; exact Hnone].
        intros i j m m' Hi Hj Hm _. unfold none_awaits in Hnone. rewrite Forall_forall in Hnone.
        rewrite (Hnone m) in Hm; [discriminate|]. eapply list_elem_of_lookup_2. exact Hi.
      * exfalso. apply orb_false_iff in Hok as [_ Hex].
        assert (Htrue : existsb (fun m => String.eqb (id m) (id msg)) (Tutor.messages st) = true).
        { apply existsb_exists. exists msg. split; [exact Hin | apply String.eqb_refl]. }
        congruence.
    + unfold Tutor.handleFeedback in *.
      destruct (find _ (Tutor.messages st)) as [message|]; [|exact (IH Hok)].
      destruct (truthy (solution message)); [|exact (IH Hok)].
      destruct outcome; cbn [Tutor.messages Tutor.isProcessing Tutor.renderError] in *;
        [|exact (IH Hok)].
      destruct (IH Hok) as [Hone Hnone].
      destruct (patch_keeps_waiting messageId feedbackPatch (Tutor.messages st)
                  (fun m => eq_refl)) as [H1 H2].
      split; [exact (H1 Hone) | intros Hidle; exact (H2 (Hnone Hidle))].
Qed.

(** A solution that comes late: the first question is answered, the
    second is being processed, and the closure of the first message is
    called once more.  It releases the guard, the third question is
    accepted, and two messages await a stream. *)
Lemma late_completion (sessionId : string) :
  sessionId <> EmptyString ->
  let late :=
    Tutor.sendMessage "c" 5 6
      (Tutor.onSolutionComplete "ai_2" (answer "4")
         (Tutor.sendMessage "b" 3 4
            (Tutor.onSolutionComplete "ai_2" (answer "4")
               (Tutor.sendMessage "a" 1 2 (Tutor.initial sessionId))))) in
  Tutor.Reachable sessionId late
  /\ Tutor.renderError late = false
  /\ ~ at_most_one_awaits (Tutor.messages late).
Proof.
  intros Hs late. split; [|split].
  - repeat (eapply Tutor.ReachStep; [|constructor]). constructor.
  - vm_compute. reflexivity.
  - intros Hone.
    assert (Hw : forall q t, awaitsStream (aiMessage q sessionId t None) = true).
    { intros q t. unfold awaitsStream. cbn [streaming_session_id solution aiMessage truthy].
      apply String.eqb_neq in Hs. rewrite Hs. reflexivity. }
    assert (H : 3 = 5); [|discriminate H].
    apply (Hone 3 5 (aiMessage "b" sessionId 4 None) (aiMessage "c" sessionId 6 None));
      try apply Hw; vm_compute; reflexivity.
Qed.

(** C3, as stated, fails.  In the default flow a question submitted while
    one is being processed is dropped: nothing is cancelled and no second
    session starts.  In the internal flow a question submitted before the
    first connection has returned its cleanup function opens a second
    connection without any cancel.  And in the default flow two sessions
    are live at once after a solution that comes late: the closure of the
    first message, called again while the second question is being
    processed, releases the guard, and the third question is accepted. *)
Lemma second_question_does_not_cancel :
  let st1 := Tutor.sendMessage "What is 2+2?" 1 2 (Tutor.initial "s1") in
  let first := Chat.handleInternalSendMessage "What is 2+2?" 1 2 (asking None []) in
  let second := Chat.handleInternalSendMessage "What is 3+3?" 3 4 (fst first) in
  let late :=
    Tutor.sendMessage "c" 5 6
      (Tutor.onSolutionComplete "ai_2" (answer "4")
         (Tutor.sendMessage "b" 3 4
            (Tutor.onSolutionComplete "ai_2" (answer "4")
               (Tutor.sendMessage "a" 1 2 (Tutor.initial "s1"))))) in
  (List.filter awaitsStream (Tutor.messages st1) = [aiMessage "What is 2+2?" "s1" 2 None]
   /\ Tutor.sendMessage "What is 3+3?" 3 4 st1 = st1)
  /\ (Chat.currentStreamSession (fst first) = Some "s1"
      /\ Chat.streamCleanupRef (fst first) = None
      /\ exists request, snd second = [OpenConnection request]
                         /\ question request = "What is 3+3?")
  /\ List.filter awaitsStream (Tutor.messages late) =
       [aiMessage "b" "s1" 4 None; aiMessage "c" "s1" 6 None].
Proof.
  split; [split; reflexivity|].
  split; [|vm_compute; reflexivity].
  split; [reflexivity|]. split; [reflexivity|].
  eexists. split; vm_compute; reflexivity.
Qed.

(** C3, amended. In the default flow a question submitted while one is
    being processed is dropped and the state is left as it is; as long
    as every solution comes for a message that still awaits its stream,
    at most one message awaits a stream in any state the flow reaches
    without a failed render.  The closure has no guard of its own: a
    solution that comes late releases the guard, and then two messages
    can await.  In the internal flow, a stored cleanup function of an
    earlier connection is called exactly once, before the next connection
    is opened. *)
Theorem one_session_at_a_time (sessionId : string) (st : Tutor.State) (chat : Chat.State)
    (question : string) (now later : Z) (connection : nat)
    (history : list Entry.HistoryEntry) :
  Tutor.Timely sessionId st ->
  Tutor.renderError st = false ->
  Chat.streamCleanupRef chat = Some connection ->
  trim question <> EmptyString ->
  buildConversationHistory (Chat.internalMessages chat) = Some history ->
  at_most_one_awaits (Tutor.messages st)
  /\ (Tutor.isProcessing st = true ->
      forall q t t', Tutor.sendMessage q t t' st = st)
  /\ snd (Chat.handleInternalSendMessage question now later chat) =
       [CallCleanup connection;
        OpenConnection {| Store.question := trim question;
                          session_id := Chat.sessionId chat;
                          conversation_history := history |}]
  /\ Tutor.Reachable sessionId st
  /\ (sessionId <> EmptyString ->
      exists late,
        Tutor.Reachable sessionId late
        /\ Tutor.renderError late = false
        /\ ~ at_most_one_awaits (Tutor.messages late)).
Proof.
  intros Htimely Hok Href Hq Hhistory. split; [|split; [|split; [|split]]].
  - apply (default_flow_invariant _ _ Htimely Hok).
  - intros Hbusy q t t'. unfold Tutor.sendMessage. rewrite Hbusy, orb_true_r. reflexivity.
  - unfold Chat.handleInternalSendMessage.
    destruct (String.eqb_spec (trim question) EmptyString) as [Heq|_]; [contradiction|].
    rewrite Hhistory, Href. reflexivity.
  - apply timely_reachable. exact Htimely.
  - intros Hs. eexists. exact (late_completion sessionId Hs).
Qed.

Lemma one_session_at_a_time_witness :
  let st := Tutor.sendMessage "What is 2+2?" 1 2 (Tutor.initial "s1") in
  let chat :=
    Chat.connectionOpened 7
      (fst (Chat.handleInternalSendMessage "What is 2+2?" 1 2 (asking None []))) in
  Tutor.Timely "s1" st
  /\ Tutor.isProcessing st = true
  /\ (forall q t t', Tutor.sendMessage q t t' st = st)
  /\ snd (Chat.handleInternalSendMessage " What is 3+3? " 3 4 chat) =
       [CallCleanup 7;
        OpenConnection
          {| Store.question := "What is 3+3?"; session_id := "s1";
             conversation_history :=
               map toEntry [userMessage "What is 2+2?" 1;
                            aiMessage "What is 2+2?" "s1" 2 (Some [])] |}].
Proof.
  assert (Htimely : Tutor.Timely "s1"
                      (Tutor.sendMessage "What is 2+2?" 1 2 (Tutor.initial "s1"))).
  { eapply Tutor.TimelyNext; [apply Tutor.TimelyInitial | apply Tutor.SubmitInTime]. }
  pose proof (one_session_at_a_time "s1"
                (Tutor.sendMessage "What is 2+2?" 1 2 (Tutor.initial "s1"))
                (Chat.connectionOpened 7
                   (fst (Chat.handleInternalSendMessage "What is 2+2?" 1 2 (asking None []))))
                " What is 3+3? " 3 4 7
                (map toEntry [userMessage "What is 2+2?" 1;
                              aiMessage "What is 2+2?" "s1" 2 (Some [])])
                Htimely eq_refl eq_refl ltac:(discriminate) eq_refl) as [_ [Hdrop [Hcancel _]]].
  split; [exact Htimely|]. split; [reflexivity|].
  split; [exact (Hdrop eq_refl) | exact Hcancel].
Defined.

End OneSession.

(** ** Trimming *)

Section Trimming.

Lemma ws_prefix_length (s : string) : ws_prefix s <= String.length s.
Proof.
  destruct s as [|a [|b [|c r]]]; simpl; try lia;
    repeat match goal with |- context [if ?b then _ else _] => destruct b end; simpl; lia.
Qed.

Lemma trimStart_fuel_any (f : nat) :
  forall (g : nat) (s : string),
    String.length s <= f -> String.length s <= g ->
    trimStart_fuel f s = trimStart_fuel g s.
Proof.
  induction f as [|f IH]; intros g s Hf Hg.
  - destruct s; [|simpl in Hf; lia]. destruct g; reflexivity.
  - destruct g as [|g].
    + destruct s; [reflexivity | simpl in Hg; lia].
    + cbn [trimStart_fuel]. pose proof (ws_prefix_length s) as Hn.
      destruct (ws_prefix s) as [|n] eqn:E; [reflexivity|].
      apply IH; rewrite slice_length; lia.
Qed.

Lemma trimStart_step (s : string) :
  trimStart s =
  match ws_prefix s with
  | O => s
  | n => trimStart (slice n s)
  end.
Proof.
  unfold trimStart. destruct s as [|a r]; [reflexivity|].
  change (String.length (String a r)) with (S (String.length r)).
  cbn [trimStart_fuel].
  pose proof (ws_prefix_length (String a r)) as Hn.
  destruct (ws_prefix (String a r)) as [|n] eqn:E; [reflexivity|].
  apply trimStart_fuel_any; rewrite ?slice_length; simpl in *; lia.
Qed.

Lemma trimStart_fixed (s : string) : ws_prefix s = 0 -> trimStart s = s.
Proof. intros H. rewrite trimStart_step, H. reflexivity. Qed.

Lemma ws_prefix_trimStart (s : string) : ws_prefix (trimStart s) = 0.
Proof.
  remember (String.length s) as n eqn:Hn. revert s Hn.
  induction n as [n IH] using lt_wf_ind. intros s Hn.
  rewrite trimStart_step. pose proof (ws_prefix_length s) as Hl.
  destruct (ws_prefix s) as [|k] eqn:E; [exact E|].
  apply (IH (String.length (slice (S k) s))); [|reflexivity].
  rewrite slice_length. lia.
Qed.

Lemma trimEnd_cons (c : ascii) (r : string) :
  trimEnd (String c r) = if blank (String c r) then EmptyString else String c (trimEnd r).
Proof. reflexivity. Qed.

Lemma ws_prefix_trimEnd (s : string) :
  ws_prefix (trimEnd s) = 0 \/ ws_prefix (trimEnd s) = ws_prefix s.
Proof.
  destruct s as [|a r]; [left; reflexivity|].
  rewrite trimEnd_cons. destruct (blank (String a r)); [left; reflexivity|].
  destruct r as [|b r']; [right; reflexivity|].
  rewrite trimEnd_cons. destruct (blank (String b r')).
  { cbn [ws_prefix].
    destruct ((Nat.leb 9 (nat_of_ascii a) && Nat.leb (nat_of_ascii a) 13)
              || Nat.eqb (nat_of_ascii a) 32); [right|left]; reflexivity. }
  destruct r' as [|c r'']; [right; reflexivity|].
  rewrite trimEnd_cons. destruct (blank (String c r'')); [|right; reflexivity].
  cbn [ws_prefix].
  destruct ((Nat.leb 9 (nat_of_ascii a) && Nat.leb (nat_of_ascii a) 13)
            || Nat.eqb (nat_of_ascii a) 32); [right; reflexivity|].
  destruct (Nat.eqb (nat_of_ascii a) 194 && Nat.eqb (nat_of_ascii b) 160);
    [right|left]; reflexivity.
Qed.

Lemma slice_trimEnd (n : nat) :
  forall s : string,
    n <= String.length (trimEnd s) -> slice n (trimEnd s) = trimEnd (slice n s).
Proof.
  induction n as [|n IH]; intros s Hn; [reflexivity|].
  destruct s as [|c r]; [reflexivity|].
  rewrite trimEnd_cons in *. destruct (blank (String c r)); [simpl in Hn; lia|].
  simpl in Hn. simpl. apply IH. lia.
Qed.

Lemma blank_step (s : string) :
  blank s = match ws_prefix s with
            | O => String.eqb s EmptyString
            | n => blank (slice n s)
            end.
Proof.
  unfold blank. rewrite trimStart_step. destruct (ws_prefix s); reflexivity.
Qed.

Lemma blank_trimEnd (s : string) : blank (trimEnd s) = true -> blank s = true.
Proof.
  remember (String.length s) as n eqn:Hn. revert s Hn.
  induction n as [n IH] using lt_wf_ind. intros s Hn Hb.
  destruct (blank s) eqn:Hs; [reflexivity|].
  destruct s as [|c r]; [discriminate Hs|].
  rewrite blank_step in Hb.
  destruct (ws_prefix_trimEnd (String c r)) as [E|E].
  - rewrite E in Hb. rewrite trimEnd_cons, Hs in Hb. discriminate Hb.
  - pose proof (ws_prefix_length (trimEnd (String c r))) as Hl.
    pose proof (ws_prefix_length (String c r)) as Hl'.
    rewrite E in Hb, Hl.
    destruct (ws_prefix (String c r)) as [|k] eqn:Ek.
    + rewrite trimEnd_cons, Hs in Hb. discriminate Hb.
    + rewrite slice_trimEnd in Hb by exact Hl.
      apply (IH (String.length (slice (S k) (String c r)))) in Hb;
        [|rewrite slice_length; lia | reflexivity].
      rewrite blank_step, Ek in Hs. congruence.
Qed.

Lemma trimEnd_idempotent (s : string) : trimEnd (trimEnd s) = trimEnd s.
Proof.
  induction s as [|c r IH]; [reflexivity|].
  rewrite trimEnd_cons. destruct (blank (String c r)) eqn:Hb; [reflexivity|].
  rewrite trimEnd_cons.
  destruct (blank (String c (trimEnd r))) eqn:Hb'.
  - assert (H : blank (trimEnd (String c r)) = true)
      by (rewrite trimEnd_cons, Hb; exact Hb').
    apply blank_trimEnd in H. congruence.
  - rewrite IH. reflexivity.
Qed.

Lemma trim_fixed (s : string) : trim (trim s) = trim s.
Proof.
  unfold trim.
  assert (H : ws_prefix (trimEnd (trimStart s)) = 0).
  { destruct (ws_prefix_trimEnd (trimStart s)) as [E|E]; [exact E|].
    rewrite E. apply ws_prefix_trimStart. }
  rewrite (trimStart_fixed _ H). apply trimEnd_idempotent.
Qed.

Lemma trim_empty : trim EmptyString = EmptyString.
Proof. reflexivity. Qed.

(** X1. The text a message is made of is left as it is by a second trim, so
    the question the chat input trims and the handler trims again is
    stored and sent as the input passed it; and the trimmed text neither
    starts nor ends with white space. *)
Theorem trimmed_question_is_kept (input : string) (loading streamingActive : bool)
    (message : string) :
  Input.handleSubmit input loading streamingActive = Some message ->
  trim message = message
  /\ message <> EmptyString
  /\ ws_prefix message = 0
  /\ trimEnd message = message
  /\ loading = false /\ streamingActive = false.
Proof.
  unfold Input.handleSubmit. intros H.
  destruct (String.eqb (trim input) EmptyString) eqn:E; [discriminate H|].
  destruct loading; [discriminate H|]. destruct streamingActive; [discriminate H|].
  simpl in H. injection H as <-.
  apply String.eqb_neq in E.
  repeat split; try assumption.
  - apply trim_fixed.
  - unfold trim. destruct (ws_prefix_trimEnd (trimStart input)) as [E'|E']; [exact E'|].
    rewrite E'. apply ws_prefix_trimStart.
  - unfold trim. apply trimEnd_idempotent.
Qed.

Lemma trimmed_question_is_kept_witness :
  Input.handleSubmit "  2+2 " false false = Some "2+2"
  /\ trim "2+2" = "2+2".
Proof.
  split; [reflexivity|].
  apply (trimmed_question_is_kept "  2+2 " false false "2+2"). reflexivity.
Defined.

End Trimming.

(** ** The read loop, line by line *)

Section LineOrder.

Import Transport Invariants.

Lemma processLines_cons {S : Type} (callbacks : Callbacks S) (line : string)
    (lines : list string) (w : World S) :
  processLines callbacks (line :: lines) w =
  processLines callbacks lines (processLine callbacks line w).
Proof. reflexivity. Qed.

Lemma processLine_other {S : Type} (callbacks : Callbacks S) (line : string) (w : World S) :
  startsWith line "data: " = false -> processLine callbacks line w = w.
Proof. intros H. unfold processLine. rewrite H. reflexivity. Qed.

Lemma processLines_data_only {S : Type} (callbacks : Callbacks S) (lines : list string)
    (w : World S) :
  processLines callbacks lines w =
  processLines callbacks (List.filter (fun line => startsWith line "data: ") lines) w.
Proof.
  revert w. induction lines as [|line lines IH]; intros w; [reflexivity|].
  cbn [List.filter]. destruct (startsWith line "data: ") eqn:E.
  - rewrite !processLines_cons. apply IH.
  - rewrite processLines_cons, processLine_other by exact E. apply IH.
Qed.

Lemma processLine_recorded (line : string) (data : JSValue) (seen : Recording)
    (errors : list ConsoleError) :
  startsWith line "data: " = true ->
  JSON.parse (slice 6 line) = Some data ->
  prop data "type" <> None ->
  processLine (recorders (fun _ => true)) line {| caller := seen; console := errors |} =
  {| caller := seen ++ [(classify (get data "type"), data)];
     console := errors ++ (if is_error data then [StreamError] else []) |}.
Proof.
  intros Hs Hp Ht. unfold processLine. rewrite Hs, Hp.
  destruct (prop data "type") as [ty|] eqn:E; [|congruence].
  rewrite (handleStreamEvent_recorded data ty _ _ _ E).
  unfold is_error, get. rewrite E. cbn [from_option Datatypes.id]. f_equal.
  destruct ty as [| | | |s| | | | |]; try (simpl; rewrite app_nil_r; reflexivity).
  unfold classify, is_string, event_table. cbn [assoc].
  repeat match goal with
         | |- context [String.eqb s ?x] =>
             let E := fresh "E" in
             destruct (String.eqb s x) eqn:E;
             [apply String.eqb_eq in E; subst s; simpl; rewrite ?app_nil_r; reflexivity|]
         end.
  simpl. rewrite ?app_nil_r. reflexivity.
Qed.

(** X2. The read loop ignores every line that does not start with
    "data: "; the others, when each holds the JSON text of a value that
    is not null, reach the callbacks in the order of the lines, each
    callback chosen by the type of its event, and the console gets one
    stream error for each event of type error. *)
Theorem events_are_delivered_in_line_order (lines : list string) (events : list JSValue)
    (seen : Recording) (errors : list ConsoleError) :
  Forall2 (fun line data => JSON.parse (slice 6 line) = Some data /\ prop data "type" <> None)
    (List.filter (fun line => startsWith line "data: ") lines) events ->
  processLines (recorders (fun _ => true)) lines {| caller := seen; console := errors |} =
  {| caller := seen ++ map (fun data => (classify (get data "type"), data)) events;
     console := errors ++ map (fun _ => StreamError) (List.filter is_error events) |}.
Proof.
  rewrite processLines_data_only.
  assert (Hd : Forall (fun line => startsWith line "data: " = true)
                 (List.filter (fun line => startsWith line "data: ") lines)).
  { apply List.Forall_forall. intros x Hx. apply List.filter_In in Hx. tauto. }
  revert Hd. generalize (List.filter (fun line => startsWith line "data: ") lines).
  intros data_lines Hd H. revert seen errors Hd.
  induction H as [|line data rest events' [Hp Ht] _ IH]; intros seen errors Hd.
  - simpl. rewrite !app_nil_r. reflexivity.
  - inversion Hd as [|? ? Hs Hd']; subst.
    rewrite processLines_cons, (processLine_recorded line data seen errors Hs Hp Ht).
    rewrite IH by exact Hd'. cbn [map List.filter].
    f_equal; rewrite <- app_assoc; [reflexivity|].
    destruct (is_error data); reflexivity.
Qed.

Lemma events_are_delivered_in_line_order_witness :
  processLines (recorders (fun _ => true))
    [": keep-alive"; routing_line; "event: message"; solution_line "x=3"; EmptyString]
    {| caller := []; console := [] |} =
  {| caller := [(Routing, JObj {["type" := JStr "routing"]});
                (SolutionComplete,
                 JObj (<["type" := JStr "solution_complete"]> {["data" := answer "x=3"]}))];
     console := [] |}.
Proof.
  rewrite (events_are_delivered_in_line_order _
             [JObj {["type" := JStr "routing"]};
              JObj (<["type" := JStr "solution_complete"]> {["data" := answer "x=3"]})]).
  - reflexivity.
  - repeat constructor; try (vm_compute; reflexivity); discriminate.
Defined.

(** X3. A line whose payload is the JSON text of null reaches no
    callback, not even the one for unknown events: reading its type
    throws, and the line is logged as one that could not be parsed.  A
    payload that is a number, a string, a boolean or an array is an
    unknown event. *)
Theorem null_payload_is_logged_as_unparsable {S : Type} (callbacks : Callbacks S)
    (line : string) (data : JSValue) (w : World S) :
  startsWith line "data: " = true ->
  JSON.parse (slice 6 line) = Some data ->
  (data = JNull -> processLine callbacks line w = console_error ErrorParsingStreamData w)
  /\ (data <> JNull -> data <> JUndefined -> (forall o, data <> JObj o) ->
      processLine callbacks line w =
      match call (onUnknownEvent callbacks) data w with
      | Normal w' => w'
      | Throws w' => console_error ErrorParsingStreamData w'
      end).
Proof.
  intros Hs Hp. unfold processLine. rewrite Hs, Hp. split.
  - intros ->. reflexivity.
  - intros Hn Hu Ho.
    destruct data as [| | | | | |o| | |]; try congruence; try reflexivity.
Qed.

Lemma null_payload_is_logged_as_unparsable_witness :
  processLine (recorders (fun _ => true)) "data: null" {| caller := []; console := [] |} =
    {| caller := []; console := [ErrorParsingStreamData] |}
  /\ processLine (recorders (fun _ => true)) "data: 5" {| caller := []; console := [] |} =
    {| caller := [(Unknown, JNum 5)]; console := [] |}.
Proof.
  split.
  - apply (null_payload_is_logged_as_unparsable (recorders (fun _ => true)) "data: null" JNull);
      reflexivity.
  - vm_compute. reflexivity.
Defined.

(** X4. When the connection fails while the loop reads, the loop logs
    the failure, calls [onError] once with an event that holds the
    message only, and ends: whatever happens to the transport afterwards
    reaches no callback. *)
Theorem network_error_is_reported_once {S : Type} (callbacks : Callbacks S)
    (message : string) (later : list Action) (w : World S) :
  run callbacks (NetworkError message :: later) (opened w) =
    {| stream := Errored message; reading := false;
       world := state_of (call (onError callbacks) (JObj {["message" := JStr message]})
                            (console_error (StreamProcessingError message) w)) |}
  /\ (forall (registered : EventKind -> bool) (seen : Recording) (errors : list ConsoleError),
        world (run (recorders registered) (NetworkError message :: later)
                 (opened {| caller := seen; console := errors |})) =
        {| caller := if registered ErrorEvent
                     then seen ++ [(ErrorEvent, JObj {["message" := JStr message]})]
                     else seen;
           console := errors ++ [StreamProcessingError message] |}).
Proof.
  split.
  - change (run callbacks (NetworkError message :: later) (opened w))
      with (run callbacks later (step callbacks (NetworkError message) (opened w))).
    rewrite run_not_readable; [reflexivity | discriminate].
  - intros registered seen errors.
    change (run (recorders registered) (NetworkError message :: later) ?t)
      with (run (recorders registered) later (step (recorders registered) (NetworkError message) t)).
    rewrite run_not_readable by discriminate.
    cbn. destruct (registered ErrorEvent); reflexivity.
Qed.

End LineOrder.

(** ** The tutor while a stream ends without a solution *)

Section Locked.

Import Transport Invariants.

Lemma event_keeps_tutor (message : Message) (data : JSValue)
    (w : World Display.Session) :
  is_string (get data "type") "solution_complete" = false ->
  Display.tutor (caller (state_of (handleStreamEvent data (Display.callbacks message) w))) =
  Display.tutor (caller w).
Proof.
  intros H. unfold handleStreamEvent, get in *.
  destruct (prop data "type") as [ty|]; [|reflexivity].
  cbn [from_option Datatypes.id] in H. rewrite H.
  repeat match goal with
         | |- context [is_string ty ?x] => destruct (is_string ty x)
         end; reflexivity.
Qed.

Lemma processLine_keeps_tutor (message : Message) (line : string)
    (w : World Display.Session) :
  delivers_solution line = false ->
  Display.tutor (caller (processLine (Display.callbacks message) line w)) =
  Display.tutor (caller w).
Proof.
  unfold delivers_solution, processLine. intros H.
  destruct (startsWith line "data: "); [|reflexivity].
  destruct (JSON.parse (slice 6 line)) as [data|]; [|reflexivity].
  cbn [andb] in H. pose proof (event_keeps_tutor message data w H) as Hk.
  destruct (handleStreamEvent data (Display.callbacks message) w); exact Hk.
Qed.

Lemma processLines_keeps_tutor (message : Message) (lines : list string) :
  forall w : World Display.Session,
    existsb delivers_solution lines = false ->
    Display.tutor (caller (processLines (Display.callbacks message) lines w)) =
    Display.tutor (caller w).
Proof.
  induction lines as [|line rest IH]; intros w H; [reflexivity|].
  cbn [existsb] in H. apply orb_false_iff in H as [Hl Hr].
  rewrite processLines_cons, IH by exact Hr. apply processLine_keeps_tutor. exact Hl.
Qed.

Lemma step_keeps_tutor (message : Message) (a : Action)
    (t : Connection Display.Session) :
  without_solution a = true ->
  Display.tutor (caller (world (step (Display.callbacks message) a t))) =
  Display.tutor (caller (world t)).
Proof.
  intros Ha. unfold step.
  destruct t as [st rd w]. cbn [stream reading world].
  destruct st, a as [chunk| |reason|]; cbn [react]; try reflexivity;
    destruct rd; try reflexivity.
  cbn [iteration world]. apply processLines_keeps_tutor.
  cbn [without_solution] in Ha. apply negb_true_iff. exact Ha.
Qed.

Lemma run_keeps_tutor (message : Message) (actions : list Action) :
  forall t : Connection Display.Session,
    forallb without_solution actions = true ->
    Display.tutor (caller (world (run (Display.callbacks message) actions t))) =
    Display.tutor (caller (world t)).
Proof.
  induction actions as [|a actions IH]; intros t H; [reflexivity|].
  cbn [forallb] in H. apply andb_true_iff in H as [Ha H].
  change (run (Display.callbacks message) (a :: actions) t)
    with (run (Display.callbacks message) actions (step (Display.callbacks message) a t)).
  rewrite IH by exact H. apply step_keeps_tutor. exact Ha.
Qed.

(** X5. A stream that ends, fails or is cancelled before any line of its
    chunks has delivered the solution leaves the tutor as it is,
    whatever other events and lines the chunks hold: the tutor still is
    processing and loading, so it drops every later question, and so
    does the chat input.  When the connection fails after the chunks, the
    display of the message stops and shows the error. *)
Theorem stream_end_leaves_the_tutor_locked (message : Message) (actions : list Action)
    (s : Display.Session) (errors : list ConsoleError) :
  forallb without_solution actions = true ->
  Tutor.isProcessing (Display.tutor s) = true ->
  Tutor.loading (Display.tutor s) = true ->
  let after :=
    caller (world (run (Display.callbacks message) actions
                     (opened {| caller := s; console := errors |}))) in
  Display.tutor after = Display.tutor s
  /\ (forall question now later,
        Tutor.sendMessage question now later (Display.tutor after) = Display.tutor after)
  /\ (forall input now later,
        Input.submitTutor input now later (Display.tutor after) = Display.tutor after)
  /\ (forall chunks reason later,
        actions = map Chunk chunks ++ NetworkError reason :: later ->
        Display.isStreaming (Display.display after) = false
        /\ Display.currentStep (Display.display after) = Display.ErrorText (JStr reason)).
Proof.
  intros Hquiet Hp Hl after.
  assert (Ht : Display.tutor after = Display.tutor s)
    by (unfold after; rewrite run_keeps_tutor by exact Hquiet; reflexivity).
  split; [exact Ht|]. rewrite Ht. split; [|split].
  - intros question now later. unfold Tutor.sendMessage.
    rewrite Hp, orb_true_r. reflexivity.
  - intros input now later. unfold Input.submitTutor, Input.handleSubmit.
    rewrite Hl, andb_false_r. reflexivity.
  - intros chunks reason later ->. subst after.
    rewrite run_app, run_chunks.
    change (run ?c (NetworkError reason :: later) ?t)
      with (run c later (step c (NetworkError reason) t)).
    rewrite run_not_readable by discriminate. split; reflexivity.
Qed.

Lemma stream_end_leaves_the_tutor_locked_witness :
  let st := Tutor.sendMessage "What is 2+2?" 1 2 (Tutor.initial "s1") in
  let actions := [Chunk (join_lines [routing_line; "data: {oops"; EmptyString]);
                  NetworkError "reset"; Cancel] in
  let after :=
    caller (world (run (Display.callbacks (aiMessage "What is 2+2?" "s1" 2 None)) actions
                     (opened {| caller := Progress.started st; console := [] |}))) in
  forallb without_solution actions = true
  /\ Tutor.isProcessing st = true
  /\ Display.tutor after = st
  /\ Tutor.sendMessage "What is 3+3?" 3 4 (Display.tutor after) = Display.tutor after
  /\ Display.progress (Display.display after) = JNum 25.
Proof.
  intros st actions after.
  assert (Hq : forallb without_solution actions = true) by (vm_compute; reflexivity).
  split; [exact Hq|]. split; [reflexivity|].
  pose proof (stream_end_leaves_the_tutor_locked
                (aiMessage "What is 2+2?" "s1" 2 None) actions
                (Progress.started st) [] Hq eq_refl eq_refl) as [H1 [H2 _]].
  split; [exact H1|]. split; [apply H2 | vm_compute; reflexivity].
Defined.

End Locked.

(** ** Invariants of the default flow *)

Section DefaultFlow.

Import Invariants.

Lemma sendMessage_dropped (question : string) (now later : Z) (st : Tutor.State) :
  String.eqb (trim question) EmptyString || Tutor.isProcessing st = true ->
  Tutor.sendMessage question now later st = st.
Proof. intros H. unfold Tutor.sendMessage. rewrite H. reflexivity. Qed.

(** X6. In every state the default flow reaches, by questions, by
    solutions that come at any time and for any id, and by feedback, the
    tutor is loading exactly while it is processing a question, and its
    session id is the one it started with; so the chat input, which looks
    at the loading flag, and the tutor's own guard, which looks at the
    processing flag, accept the same submissions. *)
Theorem loading_follows_processing (sessionId : string) (st : Tutor.State) :
  Tutor.Reachable sessionId st ->
  Tutor.loading st = Tutor.isProcessing st
  /\ Tutor.sessionId st = sessionId
  /\ (forall input now later,
        Input.submitTutor input now later st = Tutor.sendMessage (trim input) now later st)
  /\ (forall input now later, Tutor.Reachable sessionId (Input.submitTutor input now later st)).
Proof.
  intros Hr.
  assert (H : Tutor.loading st = Tutor.isProcessing st /\ Tutor.sessionId st = sessionId).
  { induction Hr as [|st st' _ [IH1 IH2] Hstep]; [split; reflexivity|].
    destruct Hstep as [question now later st | aiId completedSolution st
                      | messageId feedbackData outcome st].
    - unfold Tutor.sendMessage.
      destruct (String.eqb (trim question) EmptyString || Tutor.isProcessing st);
        split; assumption || reflexivity.
    - unfold Tutor.onSolutionComplete.
      destruct (prop completedSolution "conversational_response");
        split; assumption || reflexivity.
    - unfold Tutor.handleFeedback.
      destruct (find _ (Tutor.messages st)) as [message|]; [|split; assumption].
      destruct (truthy (solution message)); [|split; assumption].
      destruct outcome; split; assumption. }
  destruct H as [Hl Hs].
  assert (Heq : forall input now later,
             Input.submitTutor input now later st = Tutor.sendMessage (trim input) now later st).
  { intros input now later. unfold Input.submitTutor, Input.handleSubmit.
    destruct (String.eqb (trim input) EmptyString) eqn:E.
    - simpl. symmetry. apply sendMessage_dropped. rewrite trim_fixed, E. reflexivity.
    - rewrite Hl. destruct (Tutor.isProcessing st) eqn:Ep; simpl; [|reflexivity].
      symmetry. apply sendMessage_dropped. rewrite Ep. apply orb_true_r. }
  repeat split; try assumption.
  intros input now later. rewrite Heq.
  eapply Tutor.ReachStep; [exact Hr | constructor].
Qed.

Lemma loading_follows_processing_witness :
  let st := Tutor.sendMessage "What is 2+2?" 1 2 (Tutor.initial "s1") in
  Tutor.Reachable "s1" st
  /\ Tutor.loading st = Tutor.isProcessing st
  /\ Input.submitTutor " 3+3 " 3 4 st = Tutor.sendMessage "3+3" 3 4 st.
Proof.
  intros st.
  assert (Hr : Tutor.Reachable "s1" st)
    by (eapply Tutor.ReachStep; [apply Tutor.ReachInitial | constructor]).
  split; [exact Hr|].
  destruct (loading_follows_processing "s1" st Hr) as [H1 [_ [H3 _]]].
  split; [exact H1 | apply (H3 " 3+3 " 3%Z 4%Z)].
Defined.

Lemma keeps_refl (l : list Message) : keeps l l.
Proof. intros i m H. exists m. repeat split; assumption. Qed.

Lemma keeps_app (l added : list Message) : keeps l (l ++ added).
Proof.
  intros i m H. exists m. split; [|repeat split].
  apply lookup_app_l_Some. exact H.
Qed.

Lemma keeps_trans (a b c : list Message) : keeps a b -> keeps b c -> keeps a c.
Proof.
  intros Hab Hbc i m H.
  destruct (Hab i m H) as [m' [H' [E1 [E2 [E3 E4]]]]].
  destruct (Hbc i m' H') as [m'' [H'' [F1 [F2 [F3 F4]]]]].
  exists m''. repeat split; congruence.
Qed.

Lemma keeps_updateById (target : string) (patch : Message -> Message) (l : list Message) :
  (forall msg,
      id (patch msg) = id msg /\ isUser (patch msg) = isUser msg
      /\ timestamp (patch msg) = timestamp msg
      /\ originalQuestion (patch msg) = originalQuestion msg) ->
  keeps l (updateById target patch l).
Proof.
  intros Hp i m H. rewrite updateById_lookup, H. cbn [fmap option_fmap option_map].
  destruct (String.eqb (id m) target).
  - exists (patch m). split; [reflexivity | apply Hp].
  - exists m. repeat split.
Qed.

(** X7. No operation of the tutor or of the chat interface removes or
    moves a message, or changes its id, its author, its time or its
    question: the store only grows at its end.  This holds for every
    call of each operation, whatever its arguments and the state, hence
    for every step of the default flow and every sequence of its steps;
    in the default flow the messages come in pairs. *)
Theorem store_only_grows :
  (forall question now later st,
      keeps (Tutor.messages st) (Tutor.messages (Tutor.sendMessage question now later st)))
  /\ (forall aiId completedSolution st,
        keeps (Tutor.messages st)
          (Tutor.messages (Tutor.onSolutionComplete aiId completedSolution st)))
  /\ (forall messageId feedbackData outcome st,
        keeps (Tutor.messages st)
          (Tutor.messages (Tutor.handleFeedback messageId feedbackData outcome st)))
  /\ (forall question now later st,
        keeps (Chat.internalMessages st)
          (Chat.internalMessages (fst (Chat.handleInternalSendMessage question now later st))))
  /\ (forall message now st,
        keeps (Chat.internalMessages st)
          (Chat.internalMessages (Chat.connectionFailed message now st)))
  /\ (forall messageId feedbackData outcome st,
        keeps (Chat.internalMessages st)
          (Chat.internalMessages
             (Chat.handleInternalFeedback messageId feedbackData outcome st)))
  /\ (forall st st', Tutor.Step st st' -> keeps (Tutor.messages st) (Tutor.messages st'))
  /\ (forall st st', rtc Tutor.Step st st' -> keeps (Tutor.messages st) (Tutor.messages st'))
  /\ (forall sessionId st,
        Tutor.Reachable sessionId st ->
        length (Tutor.messages st) mod 2 = 0).
Proof.
  assert (Hsend : forall question now later st,
             keeps (Tutor.messages st)
               (Tutor.messages (Tutor.sendMessage question now later st))).
  { intros question now later st. unfold Tutor.sendMessage.
    destruct (String.eqb (trim question) EmptyString || Tutor.isProcessing st);
      [apply keeps_refl|].
    cbn [Tutor.messages]. rewrite <- app_assoc. apply keeps_app. }
  assert (Hsolved : forall aiId completedSolution st,
             keeps (Tutor.messages st)
               (Tutor.messages (Tutor.onSolutionComplete aiId completedSolution st))).
  { intros aiId completedSolution st. unfold Tutor.onSolutionComplete.
    destruct (prop completedSolution "conversational_response");
      cbn [Tutor.messages]; [|apply keeps_refl].
    apply keeps_updateById. intros ?. repeat split. }
  assert (Hrated : forall messageId feedbackData outcome st,
             keeps (Tutor.messages st)
               (Tutor.messages (Tutor.handleFeedback messageId feedbackData outcome st))).
  { intros messageId feedbackData outcome st. unfold Tutor.handleFeedback.
    destruct (find _ _); [|apply keeps_refl].
    destruct (truthy _); [|apply keeps_refl].
    destruct outcome; cbn [Tutor.messages]; [|apply keeps_refl].
    apply keeps_updateById. intros ?. repeat split. }
  assert (Hone : forall st st',
             Tutor.Step st st' -> keeps (Tutor.messages st) (Tutor.messages st')).
  { intros st st' [question now later st0 | aiId completedSolution st0
                  | messageId feedbackData outcome st0];
      [apply Hsend | apply Hsolved | apply Hrated]. }
  split; [exact Hsend|]. split; [exact Hsolved|]. split; [exact Hrated|].
  split; [|split; [|split; [|split; [|split]]]].
  - intros question now later st. unfold Chat.handleInternalSendMessage.
    destruct (String.eqb (trim question) EmptyString); [apply keeps_refl|].
    destruct (buildConversationHistory _); [|apply keeps_refl].
    cbn [fst Chat.internalMessages]. rewrite <- app_assoc. apply keeps_app.
  - intros message now st. cbn [Chat.connectionFailed Chat.internalMessages].
    apply keeps_app.
  - intros messageId feedbackData outcome st. unfold Chat.handleInternalFeedback.
    destruct (find _ _); [|apply keeps_refl].
    destruct outcome; cbn [Chat.internalMessages]; [|apply keeps_refl].
    apply keeps_updateById. intros ?. repeat split.
  - exact Hone.
  - intros st st' Hsteps. induction Hsteps as [st|st mid st' H1 _ IH]; [apply keeps_refl|].
    eapply keeps_trans; [apply Hone; exact H1 | exact IH].
  - intros sessionId st Hr.
    induction Hr as [|st st' _ IH Hstep]; [reflexivity|].
    destruct Hstep as [question now later st | aiId completedSolution st
                      | messageId feedbackData outcome st].
    + unfold Tutor.sendMessage.
      destruct (String.eqb (trim question) EmptyString || Tutor.isProcessing st);
        [exact IH|].
      cbn [Tutor.messages]. rewrite !length_app. cbn [length].
      replace (length (Tutor.messages st) + 1 + 1) with (length (Tutor.messages st) + 1 * 2)
        by lia.
      rewrite Nat.Div0.mod_add. exact IH.
    + unfold Tutor.onSolutionComplete.
      destruct (prop completedSolution "conversational_response");
        cbn [Tutor.messages]; [|exact IH].
      unfold updateById. rewrite length_map. exact IH.
    + unfold Tutor.handleFeedback.
      destruct (find _ _); [|exact IH].
      destruct (truthy _); [|exact IH].
      destruct outcome; cbn [Tutor.messages]; [|exact IH].
      unfold updateById. rewrite length_map. exact IH.
Qed.

End DefaultFlow.

(** ** Updates by id *)

Section Updates.

Import Invariants.

(** X8. Two updates of the same message compose into one update with
    the composed patch, and two updates of different messages can be
    applied in either order, as long as the patches leave the id of a
    message as it is (every patch of the client does). *)
Theorem updates_compose_and_commute (a b : string) (p q : Message -> Message)
    (prev : list Message) :
  keeps_id p -> keeps_id q ->
  updateById a p (updateById a q prev) = updateById a (fun msg => p (q msg)) prev
  /\ (a <> b -> updateById a p (updateById b q prev) = updateById b q (updateById a p prev))
  /\ map id (updateById a p prev) = map id prev.
Proof.
  intros Hp Hq. unfold updateById. repeat split.
  - rewrite map_map. apply map_ext. intros msg.
    destruct (String.eqb (id msg) a) eqn:E; [rewrite Hq, E | rewrite E]; reflexivity.
  - intros Hab. rewrite !map_map. apply map_ext. intros msg.
    destruct (String.eqb (id msg) a) eqn:Ea, (String.eqb (id msg) b) eqn:Eb;
      rewrite ?Hp, ?Hq, ?Ea, ?Eb; try reflexivity.
    apply String.eqb_eq in Ea, Eb. congruence.
  - rewrite map_map. apply map_ext. intros msg.
    destruct (String.eqb (id msg) a); [apply Hp | reflexivity].
Qed.

Lemma updates_compose_and_commute_witness :
  let prev := [userMessage "q" 1; aiMessage "q" "s" 2 None] in
  updateById "ai_2" feedbackPatch (updateById "ai_2" (solutionPatch (answer "4") (JStr "4")) prev)
  = updateById "ai_2" (fun msg => feedbackPatch (solutionPatch (answer "4") (JStr "4") msg)) prev.
Proof.
  intros prev.
  apply (updates_compose_and_commute "ai_2" "user_1" feedbackPatch
           (solutionPatch (answer "4") (JStr "4")) prev);
    intros msg; reflexivity.
Defined.

Lemma find_first_id (messages : list Message) (m : Message) :
  NoDup (map id messages) -> In m messages ->
  find (fun x => String.eqb (id x) (id m)) messages = Some m.
Proof.
  induction messages as [|x rest IH]; intros Hn Hin; [destruct Hin|].
  cbn [map] in Hn. apply NoDup_cons in Hn as [Hx Hn].
  cbn [find]. destruct (String.eqb (id x) (id m)) eqn:E.
  - destruct Hin as [->|Hin]; [reflexivity|].
    apply String.eqb_eq in E. exfalso. apply Hx. rewrite E.
    apply list_elem_of_In. apply in_map. exact Hin.
  - destruct Hin as [->|Hin]; [rewrite String.eqb_refl in E; discriminate|].
    apply IH; assumption.
Qed.

(** X9. When the bubble of a message shows the feedback panel, a
    submission that succeeds marks the message, which hides the panel,
    so the tutor records at most one feedback for a message; a second
    successful submission for the same id changes nothing, and a failed
    one leaves every message as it is. *)
Theorem feedback_is_recorded_once (st : Tutor.State) (message : Message)
    (feedbackData : FeedbackData) (response : JSValue) :
  NoDup (map id (Tutor.messages st)) ->
  In message (Tutor.messages st) ->
  Context.showsPanel message = true ->
  let st' := Tutor.handleFeedback (id message) feedbackData (Submitted response) st in
  Tutor.messages st' = updateById (id message) feedbackPatch (Tutor.messages st)
  /\ Forall (fun m => id m = id message -> Context.showsPanel m = false) (Tutor.messages st')
  /\ (forall other again,
        Tutor.handleFeedback (id message) other (Submitted again) st' = st')
  /\ (forall reason,
        Tutor.messages (Tutor.handleFeedback (id message) feedbackData (SubmitFailed reason) st)
        = Tutor.messages st).
Proof.
  intros Hn Hin Hs st'.
  pose proof (find_first_id _ _ Hn Hin) as Hf.
  assert (Hsol : truthy (solution message) = true).
  { unfold Context.showsPanel in Hs. apply andb_true_iff in Hs. tauto. }
  assert (Hm : Tutor.messages st' = updateById (id message) feedbackPatch (Tutor.messages st)).
  { unfold st', Tutor.handleFeedback. rewrite Hf, Hsol. reflexivity. }
  split; [exact Hm|]. repeat split.
  - rewrite Hm. unfold updateById. apply List.Forall_forall. intros m' Hm'.
    apply in_map_iff in Hm' as [m0 [<- _]].
    destruct (String.eqb (id m0) (id message)) eqn:E.
    + intros _. unfold Context.showsPanel. cbn [feedbackSubmitted feedbackPatch negb].
      rewrite andb_false_r. reflexivity.
    + intros He. apply String.eqb_neq in E. destruct (E He).
  - intros other again.
    assert (Hf' : find (fun x => String.eqb (id x) (id message)) (Tutor.messages st')
                  = Some (feedbackPatch message)).
    { rewrite Hm.
      assert (Hin' : In (feedbackPatch message)
                       (updateById (id message) feedbackPatch (Tutor.messages st))).
      { unfold updateById. apply in_map_iff. exists message.
        rewrite String.eqb_refl. split; [reflexivity | exact Hin]. }
      apply (find_first_id _ (feedbackPatch message)); [|exact Hin'].
      unfold updateById. rewrite map_map.
      erewrite map_ext; [exact Hn|]. intros x. cbn beta.
      destruct (String.eqb (id x) (id message)); reflexivity. }
    unfold Tutor.handleFeedback at 1. rewrite Hf'.
    cbn [solution feedbackPatch]. rewrite Hsol.
    assert (Hi : updateById (id message) feedbackPatch (Tutor.messages st')
                 = Tutor.messages st').
    { rewrite Hm. unfold updateById. rewrite map_map. apply map_ext. intros x.
      destruct (String.eqb (id x) (id message)) eqn:E; [|rewrite E; reflexivity].
      cbn [id feedbackPatch]. rewrite E. reflexivity. }
    rewrite Hi. destruct st'; reflexivity.
  - intros reason. unfold Tutor.handleFeedback. rewrite Hf, Hsol. reflexivity.
Qed.

Lemma feedback_is_recorded_once_witness :
  let solved :=
    solutionPatch (answer "4") (JStr "I've solved your math problem! Here's the solution:")
      (aiMessage "q" "s1" 2 None) in
  let st := Tutor.onSolutionComplete "ai_2" (answer "4")
              (Tutor.sendMessage "q" 1 2 (Tutor.initial "s1")) in
  Context.showsPanel solved = true
  /\ Forall (fun m => id m = "ai_2" -> Context.showsPanel m = false)
       (Tutor.messages (Tutor.handleFeedback "ai_2" (rated 5) (Submitted JNull) st)).
Proof.
  intros solved st. split; [reflexivity|].
  assert (Hn : NoDup (map id (Tutor.messages st))).
  { vm_compute. repeat constructor; rewrite ?list_elem_of_In; simpl; intuition discriminate. }
  assert (Hin : In solved (Tutor.messages st)) by (vm_compute; right; left; reflexivity).
  apply (feedback_is_recorded_once st solved (rated 5) JNull Hn Hin eq_refl).
Defined.

End Updates.

(** ** The chat input of the interface with its own state *)

Section InputLock.

Lemma handleSubmit_open (input : string) :
  trim input <> EmptyString -> Input.handleSubmit input false false = Some (trim input).
Proof.
  intros H. unfold Input.handleSubmit. apply String.eqb_neq in H. rewrite H. reflexivity.
Qed.

Lemma handleSubmit_streaming (input : string) (loading : bool) :
  Input.handleSubmit input loading true = None.
Proof. unfold Input.handleSubmit. rewrite andb_false_r. reflexivity. Qed.

(** X10. A submission the chat input accepts makes the interface store
    the trimmed input as the question, open one connection for it and
    mark a stream session as current; from then on the input drops every
    submission, changing nothing and opening no connection, as long as
    that session is the current one. *)
Theorem input_is_locked_while_streaming (externalLoading : option bool) (input : string)
    (now later : Z) (st : Chat.State) (history : list Entry.HistoryEntry) :
  trim input <> EmptyString ->
  Input.loading externalLoading st = false ->
  Chat.currentStreamSession st = None ->
  buildConversationHistory (Chat.internalMessages st) = Some history ->
  let accepted := Input.submitInternal externalLoading input now later st in
  Chat.internalMessages (fst accepted) =
    Chat.internalMessages st
      ++ [userMessage (trim input) now;
          aiMessage (trim input) (Chat.sessionId st) later (Some history)]
  /\ (exists cleanup,
        snd accepted =
          cleanup ++ [OpenConnection {| question := trim input;
                                        session_id := Chat.sessionId st;
                                        conversation_history := history |}]
        /\ Forall (fun e => exists connection, e = CallCleanup connection) cleanup
        /\ length cleanup <= 1)
  /\ Input.streamingActive (fst accepted) = true
  /\ (forall loading' input' now' later' connection,
        let st' := Chat.connectionOpened connection (fst accepted) in
        Input.submitInternal loading' input' now' later' (fst accepted) = (fst accepted, [])
        /\ Input.submitInternal loading' input' now' later' st' = (st', [])).
Proof.
  intros Ht Hl Hc Hh accepted.
  assert (Ha : accepted = Chat.handleInternalSendMessage (trim input) now later st).
  { unfold accepted, Input.submitInternal, Input.streamingActive.
    rewrite Hl, Hc, handleSubmit_open by exact Ht. reflexivity. }
  assert (Hs : String.eqb (trim (trim input)) EmptyString = false)
    by (rewrite trim_fixed; apply String.eqb_neq; exact Ht).
  unfold Chat.handleInternalSendMessage in Ha. cbv zeta in Ha.
  rewrite Hs, Hh, trim_fixed in Ha. rewrite Ha. cbn [fst snd Chat.internalMessages].
  split; [|split; [|split]].
  - rewrite <- app_assoc. reflexivity.
  - eexists. split; [reflexivity|].
    destruct (Chat.streamCleanupRef st); split; repeat constructor. eexists. reflexivity.
  - reflexivity.
  - intros loading' input' now' later' connection. cbv zeta. split.
    + unfold Input.submitInternal, Input.streamingActive.
      cbn [Chat.currentStreamSession]. rewrite handleSubmit_streaming. reflexivity.
    + unfold Input.submitInternal, Input.streamingActive.
      cbn [Chat.currentStreamSession Chat.connectionOpened].
      rewrite handleSubmit_streaming. reflexivity.
Qed.

Lemma input_is_locked_while_streaming_witness :
  let accepted := Input.submitInternal None " What is 2+2? " 1 2 (asking None []) in
  snd accepted =
    [OpenConnection {| question := "What is 2+2?"; session_id := "s1";
                       conversation_history := [] |}]
  /\ Input.submitInternal None "What is 3+3?" 3 4 (fst accepted) = (fst accepted, []).
Proof.
  intros accepted.
  assert (Ht : trim " What is 2+2? " <> EmptyString) by (vm_compute; discriminate).
  destruct (input_is_locked_while_streaming None " What is 2+2? " 1 2 (asking None []) []
              Ht eq_refl eq_refl eq_refl) as [_ [_ [_ H]]].
  split; [reflexivity|].
  apply (H None "What is 3+3?" 3%Z 4%Z 0).
Defined.

(** X11. When the connection cannot be opened, the interface appends
    one error message of the assistant, which awaits no stream and shows
    no feedback panel, and releases the input: the next submission that
    is not blank is accepted again, unless the parent holds the
    interface in loading. *)
Theorem failed_connection_releases_the_input (reason : string) (failedAt : Z)
    (st : Chat.State) (input : string) (now later : Z) (history : list Entry.HistoryEntry) :
  trim input <> EmptyString ->
  let st' := Chat.connectionFailed reason failedAt st in
  buildConversationHistory (Chat.internalMessages st') = Some history ->
  (exists failure,
      Chat.internalMessages st' = Chat.internalMessages st ++ [failure]
      /\ isUser failure = false /\ isError failure = true
      /\ awaitsStream failure = false /\ Context.showsPanel failure = false
      /\ hasText failure = Some true)
  /\ Input.submitInternal None input now later st' =
       Chat.handleInternalSendMessage input now later st'
  /\ (exists request,
        In (OpenConnection request) (snd (Input.submitInternal None input now later st'))
        /\ question request = trim input
        /\ conversation_history request = history)
  /\ Input.submitInternal (Some true) input now later st' = (st', []).
Proof.
  intros Ht st' Hh.
  assert (Hs : String.eqb (trim (trim input)) EmptyString = false)
    by (rewrite trim_fixed; apply String.eqb_neq; exact Ht).
  assert (Hs' : String.eqb (trim input) EmptyString = false)
    by (apply String.eqb_neq; exact Ht).
  assert (He : Input.submitInternal None input now later st' =
               Chat.handleInternalSendMessage input now later st').
  { unfold Input.submitInternal, Input.streamingActive, Input.loading.
    cbn [st' Chat.connectionFailed Chat.currentStreamSession Chat.internalLoading default
         from_option Datatypes.id].
    rewrite handleSubmit_open by exact Ht.
    unfold Chat.handleInternalSendMessage. cbv zeta. rewrite trim_fixed. reflexivity. }
  repeat split.
  - eexists. split; [reflexivity|]. repeat split.
  - exact He.
  - rewrite He. unfold Chat.handleInternalSendMessage. cbv zeta. rewrite Hs', Hh.
    eexists. split; [apply in_or_app; right; left; reflexivity|]. split; reflexivity.
  - unfold Input.submitInternal, Input.handleSubmit, Input.loading. cbn.
    rewrite andb_false_r. reflexivity.
Qed.

Lemma failed_connection_releases_the_input_witness :
  let st := Chat.connectionFailed "Failed to fetch" 3
              (fst (Input.submitInternal None "What is 2+2?" 1 2 (asking None []))) in
  Input.streamingActive st = false
  /\ exists request,
       In (OpenConnection request) (snd (Input.submitInternal None " What is 3+3? " 4 5 st))
       /\ question request = "What is 3+3?".
Proof.
  intros st. split; [reflexivity|].
  assert (Ht : trim " What is 3+3? " <> EmptyString) by (vm_compute; discriminate).
  destruct (failed_connection_releases_the_input "Failed to fetch" 3
              (fst (Input.submitInternal None "What is 2+2?" 1 2 (asking None [])))
              " What is 3+3? " 4 5 _ Ht eq_refl) as [_ [_ [[request [Hin [Hq _]]] _]]].
  exists request. split; [exact Hin|]. rewrite Hq. reflexivity.
Defined.

End InputLock.

(** ** The history a display sends *)

Section DisplayHistory.

Lemma filterText_strings (messages kept : list Message) :
  filterText messages = Some kept ->
  Forall (fun m => exists s, text m = JStr s) kept.
Proof.
  revert kept. induction messages as [|msg rest IH]; intros kept H.
  - injection H as <-. constructor.
  - cbn [filterText] in H.
    destruct (hasText msg) as [keep|] eqn:Eh; [|discriminate H].
    destruct (filterText rest) as [kept'|]; [|discriminate H].
    injection H as <-. specialize (IH kept' eq_refl).
    destruct keep; [|exact IH].
    constructor; [|exact IH].
    unfold hasText in Eh. destruct (text msg) eqn:Et; try discriminate Eh;
      try (destruct (truthy _); discriminate Eh).
    eexists. reflexivity.
Qed.

Lemma filterText_take (messages : list Message) (n : nat) :
  filterText messages = Some [] -> filterText (take n messages) = Some [].
Proof.
  revert n. induction messages as [|msg rest IH]; intros n H.
  - destruct n; reflexivity.
  - destruct n as [|n]; [reflexivity|].
    cbn [filterText] in H. cbn [take filterText].
    destruct (hasText msg) as [keep|]; [|discriminate H].
    destruct (filterText rest) as [kept|] eqn:Er; [|discriminate H].
    destruct keep; [discriminate H|]. injection H as ->.
    rewrite (IH n eq_refl). reflexivity.
Qed.

Lemma filterText_app (a b ka kb : list Message) :
  filterText a = Some ka -> filterText b = Some kb -> filterText (a ++ b) = Some (ka ++ kb).
Proof.
  revert ka. induction a as [|msg rest IH]; intros ka Ha Hb.
  - injection Ha as <-. exact Hb.
  - cbn [filterText] in Ha. cbn [app filterText].
    destruct (hasText msg) as [keep|]; [|discriminate Ha].
    destruct (filterText rest) as [kept|]; [|discriminate Ha].
    injection Ha as <-. rewrite (IH kept eq_refl Hb).
    destruct keep; reflexivity.
Qed.

Lemma buildConversationHistory_app (a b : list Message) (ha hb : list Entry.HistoryEntry) :
  buildConversationHistory a = Some ha -> buildConversationHistory b = Some hb ->
  buildConversationHistory (a ++ b) = Some (ha ++ hb).
Proof.
  unfold buildConversationHistory. intros Ha Hb.
  destruct (filterText a) as [ka|] eqn:Ea; [|discriminate Ha].
  destruct (filterText b) as [kb|] eqn:Eb; [|discriminate Hb].
  injection Ha as <-. injection Hb as <-.
  rewrite (filterText_app a b ka kb Ea Eb), map_app. reflexivity.
Qed.

Lemma history_loggable (messages : list Message) (history : list Entry.HistoryEntry) :
  buildConversationHistory messages = Some history ->
  forallb Context.loggable history = true.
Proof.
  unfold buildConversationHistory. intros H.
  destruct (filterText messages) as [kept|] eqn:E; [|discriminate H].
  injection H as <-. apply filterText_strings in E.
  induction E as [|m kept [s Hs] _ IH]; [reflexivity|].
  cbn [map forallb]. rewrite IH, andb_true_r.
  unfold Context.loggable, toEntry. cbn [Entry.content]. rewrite Hs. reflexivity.
Qed.

Lemma bubble_history (messages : list Message) (message : Message)
    (history : list Entry.HistoryEntry) :
  buildConversationHistory messages = Some history ->
  Context.buildConversationHistory history messages message = Some history.
Proof.
  intros Eh. destruct history as [|entry history]; [|reflexivity].
  assert (Hf : filterText messages = Some []).
  { unfold buildConversationHistory in Eh.
    destruct (filterText messages) as [kept|]; [|discriminate Eh].
    destruct kept; [reflexivity | discriminate Eh]. }
  unfold Context.buildConversationHistory.
  destruct messages as [|m0 rest] eqn:Em; [reflexivity|]. rewrite <- Em in *.
  unfold buildConversationHistory.
  destruct (Context.findIndex (id message) messages) as [i|].
  - rewrite (filterText_take _ i Hf). reflexivity.
  - rewrite Hf. reflexivity.
Qed.

Lemma startStream_history (messages : list Message) (history : list Entry.HistoryEntry) :
  buildConversationHistory messages = Some history ->
  Context.startStream history messages = Some history.
Proof.
  intros Eh. pose proof (history_loggable _ _ Eh) as Hl.
  unfold Context.startStream.
  destruct history as [|entry history]; [rewrite Eh; reflexivity|].
  rewrite Hl. reflexivity.
Qed.

Lemma displayStart_posts (messages : list Message) (message : Message)
    (history : list Entry.HistoryEntry) :
  buildConversationHistory messages = Some history ->
  Context.displayStart messages message = Context.Posts history.
Proof.
  intros Eh. unfold Context.displayStart.
  rewrite Eh, (bubble_history _ message _ Eh), (startStream_history _ _ Eh). reflexivity.
Qed.

(** X12. In the chat interface the streaming display of a message posts
    exactly the history the interface built from all the messages it
    shows, the message itself and those after it included: given that
    history, the bubble passes it on and so does the display, so the
    history of the messages before the bubble and the display's own
    filter over the messages never make a difference, and the log of the
    entries does not throw.  When the filter of the interface throws,
    nothing is rendered. *)
Theorem display_posts_the_history_of_all_messages (messages : list Message)
    (message : Message) :
  Context.displayStart messages message =
    match buildConversationHistory messages with
    | Some history => Context.Posts history
    | None => Context.RenderFails
    end
  /\ (forall history,
        buildConversationHistory messages = Some history ->
        Context.buildConversationHistory history messages message = Some history
        /\ Context.startStream history messages = Some history
        /\ Forall (fun entry => exists s, Entry.content entry = JStr s) history).
Proof.
  split.
  - destruct (buildConversationHistory messages) as [history|] eqn:Eh.
    + apply displayStart_posts. exact Eh.
    + unfold Context.displayStart. rewrite Eh. reflexivity.
  - intros history Eh.
    split; [apply bubble_history; exact Eh|].
    split; [apply startStream_history; exact Eh|].
    unfold buildConversationHistory in Eh.
    destruct (filterText messages) as [kept|] eqn:E; [|discriminate Eh].
    injection Eh as <-. apply filterText_strings in E.
    induction E as [|m kept' Hm _ IH]; [constructor|].
    cbn [map]. constructor; [exact Hm | exact IH].
Qed.

Lemma hasText_userMessage (question : string) (now : Z) :
  trim question <> EmptyString -> hasText (userMessage question now) = Some true.
Proof.
  intros H. unfold hasText. cbn [text userMessage].
  destruct (String.eqb question EmptyString) eqn:E.
  - apply String.eqb_eq in E. subst question. destruct (H eq_refl).
  - apply String.eqb_neq in H. rewrite H. reflexivity.
Qed.

(** X13. When the tutor accepts a question, the display of the new
    assistant message posts the history of the messages before the
    question followed by two more entries: the question itself, as the
    user's, and the placeholder text of the assistant message that is
    being answered. *)
Theorem tutor_history_ends_with_the_question (question : string) (now later : Z)
    (st : Tutor.State) (before : list Entry.HistoryEntry) :
  trim question <> EmptyString ->
  Tutor.isProcessing st = false ->
  buildConversationHistory (Tutor.messages st) = Some before ->
  Context.displayStart (Tutor.messages (Tutor.sendMessage question now later st))
    (aiMessage question (Tutor.sessionId st) later None) =
  Context.Posts
    (before ++
     [{| Entry.role := "user"; Entry.content := JStr question;
         Entry.request_type := "unknown" |};
      {| Entry.role := "assistant";
         Entry.content :=
           JStr "I'm analyzing your math problem and will solve it step by step...";
         Entry.request_type := "unknown" |}]).
Proof.
  intros Ht Hp Hb. apply displayStart_posts.
  unfold Tutor.sendMessage. apply String.eqb_neq in Ht as Ht'. rewrite Ht', Hp.
  cbn [orb Tutor.messages]. rewrite <- app_assoc.
  erewrite buildConversationHistory_app; [reflexivity | exact Hb |].
  unfold buildConversationHistory. cbn [filterText app].
  rewrite (hasText_userMessage question now Ht). reflexivity.
Qed.

Lemma tutor_history_ends_with_the_question_witness :
  Context.displayStart
    (Tutor.messages (Tutor.sendMessage "What is 2+2?" 1 2 (Tutor.initial "s1")))
    (aiMessage "What is 2+2?" "s1" 2 None) =
  Context.Posts
    [{| Entry.role := "user"; Entry.content := JStr "What is 2+2?";
        Entry.request_type := "unknown" |};
     {| Entry.role := "assistant";
        Entry.content :=
          JStr "I'm analyzing your math problem and will solve it step by step...";
        Entry.request_type := "unknown" |}].
Proof.
  apply (tutor_history_ends_with_the_question "What is 2+2?" 1 2 (Tutor.initial "s1") []);
    [vm_compute; discriminate | reflexivity | reflexivity].
Defined.

End DisplayHistory.

(** ** The solution context *)

Section SolutionHistory.

Import Reducer.

Lemma take_app_take {A : Type} (x : A) (h : list A) (k : nat) :
  forall (l : list A) (n : nat),
    n <= S k -> take n (l ++ x :: take k h) = take n (l ++ x :: h).
Proof.
  induction l as [|y l IH]; intros n Hn.
  - destruct n as [|n]; [reflexivity|]. cbn [app take]. f_equal.
    rewrite take_take. f_equal. lia.
  - destruct n as [|n]; [reflexivity|]. cbn [app take]. f_equal. apply IH. lia.
Qed.

Lemma mathReducer_other (st : State) (a : Action) :
  String.eqb (type a) "SET_SOLUTION" = false ->
  history (mathReducer st a) = history st.
Proof.
  intros H. unfold mathReducer. rewrite H.
  repeat match goal with
         | |- context [String.eqb (type a) ?x] => destruct (String.eqb (type a) x)
         end; reflexivity.
Qed.

Lemma mathReducer_solution (st : State) (a : Action) :
  String.eqb (type a) "SET_SOLUTION" = true ->
  history (mathReducer st a) = payload a :: take 9 (history st).
Proof.
  intros H. apply String.eqb_eq in H. unfold mathReducer. rewrite H. reflexivity.
Qed.

Lemma history_dispatchAll (actions : list Action) :
  forall st : State,
    length (history st) <= 10 ->
    history (dispatchAll actions st) = take 10 (rev (solutions actions) ++ history st).
Proof.
  induction actions as [|a actions IH]; intros st Hl.
  - cbn. symmetry. apply take_ge. exact Hl.
  - change (dispatchAll (a :: actions) st) with (dispatchAll actions (mathReducer st a)).
    unfold solutions. cbn [List.filter].
    destruct (String.eqb (type a) "SET_SOLUTION") eqn:E.
    + rewrite IH.
      * rewrite (mathReducer_solution st a E). cbn [map rev].
        fold (solutions actions). rewrite <- app_assoc. cbn [app].
        apply take_app_take. lia.
      * rewrite (mathReducer_solution st a E). cbn [length].
        rewrite length_take. lia.
    + rewrite IH; rewrite (mathReducer_other st a E); [reflexivity | exact Hl].
Qed.

(** X14. The history of the solution context holds the solutions that
    were set, newest first, and never more than ten of them: after any
    sequence of actions it is the last ten solutions in reverse order of
    dispatch, and an action of any other type, known or unknown, leaves
    it as it is. *)
Theorem history_holds_the_last_ten_solutions (actions : list Action) :
  history (dispatchAll actions initialState) = take 10 (rev (solutions actions))
  /\ length (history (dispatchAll actions initialState)) <= 10
  /\ (forall st a, type a <> "SET_SOLUTION" -> history (mathReducer st a) = history st)
  /\ (forall st a,
        type a = "SET_SOLUTION" ->
        currentSolution (mathReducer st a) = payload a
        /\ hd_error (history (mathReducer st a)) = Some (payload a)).
Proof.
  assert (H : history (dispatchAll actions initialState) = take 10 (rev (solutions actions))).
  { rewrite history_dispatchAll by (cbn; lia). cbn [history initialState].
    rewrite app_nil_r. reflexivity. }
  repeat split.
  - exact H.
  - rewrite H, length_take. lia.
  - intros st a Ha. apply mathReducer_other. apply String.eqb_neq. exact Ha.
  - match goal with E : type _ = _ |- _ => unfold mathReducer; rewrite E end. reflexivity.
  - match goal with E : type _ = _ |- _ => unfold mathReducer; rewrite E end. reflexivity.
Qed.

End SolutionHistory.

(** ** The feedback panel and the feedback form *)

Section FeedbackInput.

Import Panel.

Import Invariants.

Lemma step_valid (a : Action) (st : State) :
  (0 <= rating st <= 5)%Z ->
  (0 <= rating (fst (step a st)) <= 5)%Z
  /\ (forall f, snd (step a st) = Some f -> valid_feedback f /\ fst (step a st) = initial)
  /\ (showFeedback (fst (step a st)) = true -> showFeedback st = false -> a = Open).
Proof.
  intros Hr. unfold step.
  destruct (showFeedback st) eqn:Es.
  - destruct a as [|position|text| |]; cbn [fst snd];
      try (repeat split; intros; cbn [rating initial handleCancel] in *;
           first [lia | discriminate | congruence]).
    + destruct (stars !! position) as [star|] eqn:E; cbn [fst snd rating];
        [|repeat split; intros; first [lia | discriminate | congruence]].
      apply list_elem_of_lookup_2, list_elem_of_In in E.
      unfold stars in E; cbn [In] in E.
      repeat split; intros; first [lia | discriminate | congruence].
    + destruct (rating st =? 0)%Z eqn:E0; cbn [fst snd];
        [repeat split; intros; first [lia | discriminate | congruence]|].
      unfold handleSubmit. apply Z.eqb_neq in E0.
      assert (Hp : (0 <? rating st)%Z = true) by (apply Z.ltb_lt; lia).
      rewrite Hp. cbn [fst snd rating initial]. split; [lia|]. split.
      * intros f Hf. injection Hf as <-. split; [|reflexivity]. split.
        -- exists (rating st). split; [|reflexivity]. unfold stars. cbn [In]. lia.
        -- cbn [user_comment]. unfold js_or. cbn [truthy].
           destruct (String.eqb (comments st) EmptyString) eqn:Ec; cbn [negb];
             [left; reflexivity|].
           right. exists (comments st). split; [|reflexivity].
           apply String.eqb_neq. exact Ec.
      * intros; congruence.
  - destruct a; cbn [fst snd rating showFeedback];
      repeat split; intros; first [lia | discriminate | congruence].
Qed.

Lemma run_cons (a : Action) (rest : list Action) (st : State) :
  run (a :: rest) st =
  (fst (run rest (fst (step a st))),
   match snd (step a st) with
   | Some f => f :: snd (run rest (fst (step a st)))
   | None => snd (run rest (fst (step a st)))
   end).
Proof.
  cbn [run]. destruct (step a st) as [st1 out]. cbn [fst snd].
  destruct (run rest st1) as [st2 outs]. reflexivity.
Qed.

Lemma run_valid (actions : list Action) :
  forall st : State,
    (0 <= rating st <= 5)%Z ->
    Forall valid_feedback (snd (run actions st))
    /\ length (snd (run actions st))
       <= length (List.filter opens actions) + (if showFeedback st then 1 else 0).
Proof.
  induction actions as [|a rest IH]; intros st Hr.
  - split; [constructor | cbn; lia].
  - rewrite run_cons. cbn [snd].
    destruct (step_valid a st Hr) as [Hr' [Hout Hopen]].
    destruct (IH (fst (step a st)) Hr') as [IH1 IH2].
    destruct (snd (step a st)) as [f|] eqn:Eo.
    + destruct (Hout f eq_refl) as [Hv Hi]. split; [constructor; assumption|].
      rewrite Hi in IH2. cbn [showFeedback initial] in IH2.
      assert (Hs : showFeedback st = true).
      { unfold step in Eo. destruct (showFeedback st); [reflexivity|].
        destruct a; discriminate Eo. }
      assert (Ha : opens a = false).
      { unfold step in Eo. rewrite Hs in Eo. destruct a; try discriminate Eo; reflexivity. }
      rewrite Hs, Hi. cbn [List.filter length]. rewrite Ha. lia.
    + split; [exact IH1|]. cbn [List.filter].
      destruct (showFeedback (fst (step a st))) eqn:E1, (showFeedback st) eqn:E0;
        try (pose proof (Hopen eq_refl eq_refl); subst a);
        cbn [opens] in *; try (destruct (opens a)); cbn [length] in *; lia.
Qed.

(** X15. Whatever the user does to the feedback panel, every feedback
    it submits carries the rating of one of the five stars, an integer
    from 1 to 5, and a comment that is null or a string that is not
    empty; and each submission closes the panel, so the panel submits no
    more often than it has been opened. *)
Theorem panel_submits_valid_feedback (actions : list Action) :
  Forall valid_feedback (snd (run actions initial))
  /\ Forall (fun f => (1 <= user_rating f)%Q /\ (user_rating f <= 5)%Q)
       (snd (run actions initial))
  /\ length (snd (run actions initial)) <= length (List.filter opens actions).
Proof.
  destruct (run_valid actions initial) as [Hv Hl]; [cbn; lia|].
  split; [exact Hv|]. split.
  - eapply Forall_impl; [exact Hv|]. intros f [[star [Hin ->]] _].
    unfold stars in Hin. cbn [In] in Hin.
    unfold Qle. cbn [Qnum Qden inject_Z]. lia.
  - cbn [showFeedback initial] in Hl. lia.
Qed.

Import Form.





End FeedbackInput.

(** ** Generated steps *)

Section GeneratedSteps.

(** X17. A generated step is appended to the steps of the display with
    the number of the event as its [stepNumber] and marked as streaming,
    whatever the step data hold under these names, and with the other
    properties of the step data.  When the event carries no total the
    progress becomes NaN; when the number is positive and the total is 0
    it becomes Infinity, and when the total is -0, as the JSON text -0
    gives it, -Infinity.  The event is one the dispatcher passes on: it
    is neither undefined nor null. *)
Theorem generated_step_without_total (data : JSValue) (s : Display.Session) :
  prop data "type" <> None ->
  let after := Display.display (state_of (Display.onStepGenerated data s)) in
  Display.streamedSteps after =
    Display.streamedSteps (Display.display s) ++ [Display.steps_of data]
  /\ get (Display.steps_of data) "stepNumber" = get data "step_number"
  /\ get (Display.steps_of data) "isStreaming" = JBool true
  /\ (forall k, k <> "stepNumber" -> k <> "isStreaming" ->
        get (Display.steps_of data) k =
        default JUndefined (Display.spread (get data "step_data") !! k))
  /\ (get data "total_steps" = JUndefined -> Display.progress after = JNaN)
  /\ (forall n : Q,
        get data "total_steps" = JNum 0 -> get data "step_number" = JNum n -> (0 < n)%Q ->
        Display.progress after = JInfinity false)
  /\ (forall n : Q,
        get data "total_steps" = JNegZero -> get data "step_number" = JNum n -> (0 < n)%Q ->
        Display.progress after = JInfinity true)
  /\ JSON.parse "-0" = Some JNegZero.
Proof.
  intros _. cbn zeta.
  assert (Hsign : forall n : Q, (0 < n)%Q -> Qeq_bool n 0 = false /\ sign_of n = false).
  { intros n Hp. split.
    - destruct (Qeq_bool n 0) eqn:E; [|reflexivity].
      apply Qeq_bool_eq in E. rewrite E in Hp. apply Qlt_irrefl in Hp. destruct Hp.
    - unfold sign_of. apply Z.ltb_ge. unfold Qlt in Hp. simpl in Hp. lia. }
  split; [reflexivity|]. split; [|split; [|split; [|split; [|split; [|split]]]]].
  - unfold Display.steps_of, get. cbn [prop]. rewrite lookup_insert_ne by discriminate.
    rewrite lookup_insert. reflexivity.
  - unfold Display.steps_of, get. cbn [prop]. rewrite lookup_insert. reflexivity.
  - intros k H1 H2. unfold Display.steps_of. unfold get at 1. cbn [prop].
    rewrite !lookup_insert_ne by congruence. reflexivity.
  - intros H. cbn. unfold Display.stepProgress. rewrite H. cbn [JSON.to_number].
    destruct (JSON.to_number (get data "step_number")); reflexivity.
  - intros n H0 Hn Hp. cbn. unfold Display.stepProgress. rewrite H0, Hn.
    cbn [JSON.to_number js_div]. destruct (Hsign n Hp) as [Hz Hs].
    change (Qeq_bool 0 0) with true. cbn match. rewrite Hz, Hs. reflexivity.
  - intros n H0 Hn Hp. cbn. unfold Display.stepProgress. rewrite H0, Hn.
    cbn [JSON.to_number js_div]. destruct (Hsign n Hp) as [Hz Hs].
    rewrite Hz, Hs. reflexivity.
  - vm_compute. reflexivity.
Qed.

Lemma generated_step_without_total_witness :
  let data :=
    JObj (<["step_number" := JNum 1]> {["step_data" := JObj {["stepNumber" := JNum 7]}]}) in
  get data "total_steps" = JUndefined
  /\ Display.progress
       (Display.display
          (state_of (Display.onStepGenerated data
                       (Progress.started (Tutor.initial "s1"))))) = JNaN
  /\ get (Display.steps_of data) "stepNumber" = JNum 1
  /\ map (fun total =>
            Display.progress
              (Display.display
                 (Transport.caller
                    (Transport.processLine (Display.callbacks (aiMessage "q" "s1" 2 None))
                       (step_line "1" total)
                       {| Transport.caller := Progress.started (Tutor.initial "s1");
                          Transport.console := [] |}))))
       ["4"; "0"; "-0"] =
     [JNum (115 # 2); JInfinity false; JInfinity true].
Proof.
  intros data.
  destruct (generated_step_without_total data (Progress.started (Tutor.initial "s1"))
              ltac:(discriminate))
    as [_ [H2 [_ [_ [H5 _]]]]].
  split; [reflexivity|]. split; [apply H5; reflexivity|].
  split; [rewrite H2; reflexivity | vm_compute; reflexivity].
Defined.

End GeneratedSteps.

(** ** Feedback and solutions that find no message or no data *)

Section Missing.

Lemma find_absent (messageId : string) (messages : list Message) :
  Forall (fun m => id m <> messageId) messages ->
  find (fun m => String.eqb (id m) messageId) messages = None.
Proof.
  intros H. induction H as [|m rest Hm _ IH]; [reflexivity|].
  cbn [find]. apply String.eqb_neq in Hm. rewrite Hm. exact IH.
Qed.

(** X18. Feedback for an id that no message has changes no message: the
    tutor returns without a request, the chat interface with its own
    state logs the TypeError of reading the question of the missing
    message.  The tutor also ignores feedback for a message that has no
    solution yet. *)
Theorem feedback_for_a_missing_message_is_dropped (messageId : string)
    (feedbackData : FeedbackData) (outcome : SubmitOutcome) :
  (forall st : Tutor.State,
      Forall (fun m => id m <> messageId) (Tutor.messages st) ->
      Tutor.handleFeedback messageId feedbackData outcome st = st)
  /\ (forall (st : Tutor.State) (message : Message),
        find (fun m => String.eqb (id m) messageId) (Tutor.messages st) = Some message ->
        truthy (solution message) = false ->
        Tutor.handleFeedback messageId feedbackData outcome st = st)
  /\ (forall st : Chat.State,
        Forall (fun m => id m <> messageId) (Chat.messages st) ->
        let st' := Chat.handleInternalFeedback messageId feedbackData outcome st in
        Chat.internalMessages st' = Chat.internalMessages st
        /\ Chat.console st' = Chat.console st ++ ["TypeError"]).
Proof.
  repeat split.
  - intros st H. unfold Tutor.handleFeedback. rewrite (find_absent _ _ H). reflexivity.
  - intros st message Hf Hs. unfold Tutor.handleFeedback. rewrite Hf, Hs. reflexivity.
  - unfold Chat.handleInternalFeedback. rewrite (find_absent _ _ H). reflexivity.
  - unfold Chat.handleInternalFeedback. rewrite (find_absent _ _ H). reflexivity.
Qed.

Lemma existsb_present (message : Message) (messages : list Message) :
  In message messages ->
  existsb (fun msg => String.eqb (id msg) (id message)) messages = true.
Proof.
  intros H. apply existsb_exists. exists message. split; [exact H|].
  apply String.eqb_refl.
Qed.

(** X19. A solution_complete event that carries no data stops the
    display and releases the tutor, but the update of the message reads
    a property of the missing solution and throws while React applies
    it: the messages stay as they are, the message of the bubble still
    awaits its stream, and the render fails. *)
Theorem solution_without_data_breaks_the_render (message : Message) (data : JSValue)
    (s : Display.Session) :
  prop data "type" <> None ->
  get data "data" = JUndefined \/ get data "data" = JNull ->
  Store.onSolutionComplete message = Some (id message) ->
  In message (Tutor.messages (Display.tutor s)) ->
  let after := state_of (Display.onSolutionComplete message data s) in
  Tutor.messages (Display.tutor after) = Tutor.messages (Display.tutor s)
  /\ Tutor.renderError (Display.tutor after) = true
  /\ Tutor.isProcessing (Display.tutor after) = false
  /\ Tutor.loading (Display.tutor after) = false
  /\ Display.isStreaming (Display.display after) = false
  /\ Display.progress (Display.display after) = JNum 100.
Proof.
  intros _ Hd Hc Hin after.
  assert (Hp : prop (get data "data") "conversational_response" = None)
    by (destruct Hd as [-> | ->]; reflexivity).
  assert (Ht : Display.tutor after =
               Tutor.onSolutionComplete (id message) (get data "data") (Display.tutor s)).
  { unfold after. cbn [state_of Display.onSolutionComplete Display.handleStreamingComplete
                       Display.tutor Display.with_display].
    rewrite Hc. reflexivity. }
  rewrite Ht. unfold Tutor.onSolutionComplete. rewrite Hp.
  cbn [Tutor.messages Tutor.renderError Tutor.isProcessing Tutor.loading].
  rewrite (existsb_present message _ Hin), orb_true_r.
  repeat split.
Qed.

Lemma solution_without_data_breaks_the_render_witness :
  let message := aiMessage "q" "s1" 2 None in
  let s := Progress.started (Tutor.sendMessage "q" 1 2 (Tutor.initial "s1")) in
  let after :=
    state_of (Display.onSolutionComplete message
                (JObj {["type" := JStr "solution_complete"]}) s) in
  In message (Tutor.messages (Display.tutor s))
  /\ Tutor.renderError (Display.tutor after) = true
  /\ List.filter awaitsStream (Tutor.messages (Display.tutor after)) = [message].
Proof.
  intros message s after.
  assert (Hin : In message (Tutor.messages (Display.tutor s))) by (right; left; reflexivity).
  split; [exact Hin|].
  destruct (solution_without_data_breaks_the_render message
              (JObj {["type" := JStr "solution_complete"]}) s
              ltac:(discriminate) ltac:(left; vm_compute; reflexivity) eq_refl Hin) as [Hm [Hr _]].
  split; [exact Hr|]. fold after in Hm. rewrite Hm. reflexivity.
Defined.

End Missing.

(** ** The end of a stream in the interface with its own state *)

Section Release.

(** X20. In the chat interface with its own state both the solution and
    an error event release the input: the interface stops loading and
    has no current stream session, so the next submission that is not
    blank is accepted.  After the solution no message with the id of the
    answered one awaits a stream; after an error such a message is
    marked as an error and still awaits its stream. *)
Theorem solution_and_error_release_the_input (aiId rendered : string)
    (completedSolution response : JSValue) (st : Chat.State) :
  prop completedSolution "conversational_response" = Some response ->
  let solved := fst (ChatStream.onSolutionComplete aiId completedSolution st) in
  let failed := ChatStream.onError aiId rendered st in
  (Input.loading None solved = false /\ Input.streamingActive solved = false
   /\ Input.loading None failed = false /\ Input.streamingActive failed = false)
  /\ (forall input now later,
        Input.submitInternal None input now later solved =
          Chat.handleInternalSendMessage input now later solved
        /\ Input.submitInternal None input now later failed =
          Chat.handleInternalSendMessage input now later failed)
  /\ Forall (fun m => id m = aiId -> awaitsStream m = false /\ solution m = completedSolution)
       (Chat.internalMessages solved)
  /\ snd (ChatStream.onSolutionComplete aiId completedSolution st) = false
  /\ Forall2 (fun old new =>
               if String.eqb (id old) aiId
               then isError new = true /\ text new = JStr rendered
                    /\ awaitsStream new = awaitsStream old
               else new = old)
       (Chat.internalMessages st) (Chat.internalMessages failed).
Proof.
  intros Hp solved failed.
  assert (Hs : solved =
               ChatStream.release
                 (ChatStream.with_messages
                    (updateById aiId
                       (solutionPatch completedSolution
                          (js_or response
                             (JStr "I've solved your math problem! Here's the step-by-step solution:")))
                       (Chat.internalMessages st)) st)).
  { unfold solved, ChatStream.onSolutionComplete. rewrite Hp. reflexivity. }
  assert (Hsub : forall st' input now later,
             Chat.internalLoading st' = false -> Chat.currentStreamSession st' = None ->
             Input.submitInternal None input now later st' =
             Chat.handleInternalSendMessage input now later st').
  { intros st' input now later Hl Hc.
    unfold Input.submitInternal, Input.streamingActive, Input.loading.
    rewrite Hl, Hc. cbn [default from_option Datatypes.id].
    unfold Input.handleSubmit, Chat.handleInternalSendMessage. cbv zeta.
    destruct (String.eqb (trim input) EmptyString) eqn:E; [reflexivity|].
    cbn [negb andb]. rewrite trim_fixed, E. reflexivity. }
  split; [|split; [|split; [|split]]].
  - rewrite Hs. repeat split.
  - intros input now later. split; apply Hsub; rewrite ?Hs; reflexivity.
  - rewrite Hs. cbn [Chat.internalMessages ChatStream.release ChatStream.with_messages].
    unfold updateById. apply List.Forall_forall. intros m Hm.
    apply in_map_iff in Hm as [m0 [<- _]].
    destruct (String.eqb (id m0) aiId) eqn:E.
    + intros _. split; reflexivity.
    + intros He. apply String.eqb_neq in E. destruct (E He).
  - unfold ChatStream.onSolutionComplete. rewrite Hp. reflexivity.
  - cbn [failed ChatStream.onError Chat.internalMessages ChatStream.release
         ChatStream.with_messages].
    unfold updateById. clear. induction (Chat.internalMessages st) as [|m rest IH]; [constructor|].
    cbn [map]. constructor; [|exact IH].
    destruct (String.eqb (id m) aiId); [repeat split | reflexivity].
Qed.

Lemma solution_and_error_release_the_input_witness :
  let st := fst (Input.submitInternal None "What is 2+2?" 1 2 (asking None [])) in
  let solved := fst (ChatStream.onSolutionComplete "ai_2" (answer "4") st) in
  Input.streamingActive st = true
  /\ Input.streamingActive solved = false
  /\ List.filter awaitsStream (Chat.internalMessages solved) = []
  /\ List.filter awaitsStream (Chat.internalMessages (ChatStream.onError "ai_2" "Sorry" st)) =
       [ChatStream.errorPatch (JStr "Sorry") (aiMessage "What is 2+2?" "s1" 2 (Some []))].
Proof.
  intros st solved.
  destruct (solution_and_error_release_the_input "ai_2" "Sorry" (answer "4") JUndefined st
              ltac:(vm_compute; reflexivity))
    as [[_ [H _]] _].
  split; [reflexivity|]. split; [exact H|]. split; reflexivity.
Defined.

End Release.
